(** * Retail promotions -> Shopify metafields: a shallow embedding

    The development follows the two Python sources of the repository:

    - [retail_promotions_to_shopify_metafields.py]: the date-window rules
      ([compute_display_window]), the per-vendor fold
      ([aggregate_by_vendor]), the reader loop of [fetch_active_today], the
      write/delete decision of [main] with its caches and counters, and the
      methods of [ShopifyClient] (the request loop, the collection look-up,
      the paged listings, the metafield calls);
    - [Shopify_Add_Banner_Test.py]: the month.day normaliser [parse_mm_dd]
      and the payload builder [build_metafields].

    The shop is a parameter: a state [world] and the GraphQL operations as
    functions on it.  A loop that runs until the shop says so takes a number
    of iterations it may use, and answers [None] when these do not suffice.

    Python values are modelled as follows.  A [str] is a [string] whose
    characters are read as code points below 256.  A raised exception is a
    value of [exn] carried by [result].  A [datetime.date] is the triple the
    interpreter stores (year, month, day); ordering is the lexicographic one
    and arithmetic with a [timedelta] goes through the proleptic Gregorian
    ordinal, as in the datetime module.  A [dict] is an insertion-ordered
    association list. *)

From Stdlib Require Import ZArith List String Ascii Bool Lia Permutation.
From Stdlib Require Import DecimalString.
Import ListNotations.
Local Open Scope string_scope.
Local Open Scope Z_scope.

(* ===================================================================== *)
(** * Python runtime: exceptions, strings, [int] *)
(* ===================================================================== *)

Module Py.

Inductive exn : Type :=
| ValueError
| OverflowError
| TypeError
| AttributeError
| RuntimeError.

Inductive result (A : Type) : Type :=
| Ok (a : A)
| Raise (e : exn).

Arguments Ok {A} a.
Arguments Raise {A} e.

Definition bind {A B} (r : result A) (k : A -> result B) : result B :=
  match r with
  | Ok a => k a
  | Raise e => Raise e
  end.

Definition raises {A} (r : result A) : Prop := exists e, r = Raise e.

Definition returns {A} (r : result A) : Prop := exists a, r = Ok a.

(** ** Characters *)

Definition code (c : ascii) : nat := nat_of_ascii c.

Definition between (lo hi n : nat) : bool := (Nat.leb lo n && Nat.leb n hi)%bool.

(** [str.isspace] on code points below 256: TAB..CR, FS..US, SPACE, NEL and
    NBSP.  This is the set [str.strip()] and [str.split()] work with. *)
Definition is_space (c : ascii) : bool :=
  let n := code c in
  (between 9 13 n || between 28 32 n || Nat.eqb n 133 || Nat.eqb n 160)%bool.

(** The white space [int()] skips around a literal: the C locale set, plus
    the two non-ASCII spaces that are first rewritten to a blank. *)
Definition is_int_space (c : ascii) : bool :=
  let n := code c in
  (between 9 13 n || Nat.eqb n 32 || Nat.eqb n 133 || Nat.eqb n 160)%bool.

Definition is_digit (c : ascii) : bool := between 48 57 (code c).

Definition digit_val (c : ascii) : Z := Z.of_nat (code c) - 48.

(** [str.lower] on one code point below 256: A-Z and the upper-case letters
    of the Latin-1 supplement move up by 32. *)
Definition lower_char (c : ascii) : ascii :=
  let n := code c in
  if (between 65 90 n || between 192 214 n || between 216 222 n)%bool
  then ascii_of_nat (n + 32)
  else c.

(** ** Strings *)

Fixpoint smap (f : ascii -> ascii) (s : string) : string :=
  match s with
  | EmptyString => EmptyString
  | String c s' => String (f c) (smap f s')
  end.

Definition lower (s : string) : string := smap lower_char s.

Definition is_empty (s : string) : bool :=
  match s with
  | EmptyString => true
  | String _ _ => false
  end.

Fixpoint lstrip_by (p : ascii -> bool) (s : string) : string :=
  match s with
  | EmptyString => EmptyString
  | String c s' => if p c then lstrip_by p s' else s
  end.

Fixpoint rstrip_by (p : ascii -> bool) (s : string) : string :=
  match s with
  | EmptyString => EmptyString
  | String c s' =>
      let r := rstrip_by p s' in
      if (p c && is_empty r)%bool then EmptyString else String c r
  end.

Definition strip_by (p : ascii -> bool) (s : string) : string :=
  rstrip_by p (lstrip_by p s).

(** [s.strip()] *)
Definition strip (s : string) : string := strip_by is_space s.

Definition starts_space (s : string) : bool :=
  match s with
  | EmptyString => true
  | String c _ => is_space c
  end.

(** [s.split()]: the maximal runs of non-space characters, in order. *)
Fixpoint split_ws (s : string) : list string :=
  match s with
  | EmptyString => []
  | String c s' =>
      if is_space c then split_ws s'
      else if starts_space s' then String c EmptyString :: split_ws s'
      else match split_ws s' with
           | w :: ws => String c w :: ws
           | [] => [String c EmptyString]
           end
  end.

(** [sep.join(l)] *)
Fixpoint join (sep : string) (l : list string) : string :=
  match l with
  | [] => EmptyString
  | w :: rest =>
      match rest with
      | [] => w
      | _ :: _ => w ++ sep ++ join sep rest
      end
  end.

(** [sep in s] for a one-character [sep] *)
Fixpoint contains (sep : ascii) (s : string) : bool :=
  match s with
  | EmptyString => false
  | String c s' => (Ascii.eqb c sep || contains sep s')%bool
  end.

(** [s.split(sep)] for a one-character [sep]: never the empty list. *)
Fixpoint split_on (sep : ascii) (s : string) : list string :=
  match s with
  | EmptyString => [EmptyString]
  | String c s' =>
      if Ascii.eqb c sep then EmptyString :: split_on sep s'
      else match split_on sep s' with
           | w :: ws => String c w :: ws
           | [] => [String c EmptyString]
           end
  end.

(** [s[i]] for an index known to be in range; [None] stands for IndexError,
    which the callers below rule out by a length test. *)
Definition char_at (i : nat) (s : string) : option ascii := String.get i s.

(** ** [int(s)] in base 10 *)

(** Digits with single underscores between them. *)
Fixpoint int_digits (s : string) (acc : Z) (prev_digit : bool) : option Z :=
  match s with
  | EmptyString => if prev_digit then Some acc else None
  | String c s' =>
      if is_digit c then int_digits s' (10 * acc + digit_val c) true
      else if Ascii.eqb c "_" then
        if prev_digit then int_digits s' acc false else None
      else None
  end.

(** [sys.get_int_max_str_digits()] as the interpreter starts: a decimal text
    with more digits is refused, leading zeros counted, underscores, sign and
    surrounding white space not. *)
Definition MAX_STR_DIGITS : Z := 4300.

Fixpoint count_digits (s : string) : Z :=
  match s with
  | EmptyString => 0
  | String c s' => (if is_digit c then 1 else 0) + count_digits s'
  end.

Definition int_of_str (s : string) : result Z :=
  let body := strip_by is_int_space s in
  let signed :=
    match body with
    | String "-" r => option_map Z.opp (int_digits r 0 false)
    | String "+" r => int_digits r 0 false
    | _ => int_digits body 0 false
    end in
  match signed with
  | Some z => if MAX_STR_DIGITS <? count_digits body then Raise ValueError else Ok z
  | None => Raise ValueError
  end.

(** [str(n)] for a non-negative [n], and ["%0wd" % n]. *)
Definition str_of_Z (n : Z) : string :=
  NilZero.string_of_uint (N.to_uint (Z.to_N n)).

Fixpoint zeros (k : nat) : string :=
  match k with
  | O => EmptyString
  | S k' => String "0" (zeros k')
  end.

Definition zfill (w : nat) (n : Z) : string :=
  let s := str_of_Z n in
  zeros (w - String.length s) ++ s.

End Py.

Import Py.

Notation "x <- c1 ;; c2" := (Py.bind c1 (fun x => c2))
  (at level 61, c1 at next level, right associativity).

(* ===================================================================== *)
(** * The [datetime] module: [date] and [timedelta] *)
(* ===================================================================== *)

Module Datetime.

(** A [date] object stores its three fields.  Every value built by
    [date_new] or [fromordinal] satisfies [valid_date]. *)
Record date : Type := mkdate { year : Z; month : Z; day : Z }.

Definition MINYEAR : Z := 1.
Definition MAXYEAR : Z := 9999.
(** [date.max.toordinal()] *)
Definition MAXORDINAL : Z := 3652059.

Definition is_leap (y : Z) : bool :=
  ((y mod 4 =? 0) && (negb (y mod 100 =? 0) || (y mod 400 =? 0)))%bool.

Definition days_in_month_table (m : Z) : Z :=
  match m with
  | 1 => 31 | 2 => 28 | 3 => 31 | 4 => 30 | 5 => 31 | 6 => 30
  | 7 => 31 | 8 => 31 | 9 => 30 | 10 => 31 | 11 => 30 | 12 => 31
  | _ => -1
  end.

Definition days_before_month_table (m : Z) : Z :=
  match m with
  | 1 => 0 | 2 => 31 | 3 => 59 | 4 => 90 | 5 => 120 | 6 => 151
  | 7 => 181 | 8 => 212 | 9 => 243 | 10 => 273 | 11 => 304 | 12 => 334
  | _ => -1
  end.

Definition days_in_month (y m : Z) : Z :=
  if ((m =? 2) && is_leap y)%bool then 29 else days_in_month_table m.

Definition days_before_year (y : Z) : Z :=
  let p := y - 1 in
  p * 365 + p / 4 - p / 100 + p / 400.

Definition days_before_month (y m : Z) : Z :=
  days_before_month_table m + (if ((2 <? m) && is_leap y)%bool then 1 else 0).

Definition valid_ymd (y m d : Z) : bool :=
  ((MINYEAR <=? y) && (y <=? MAXYEAR) && (1 <=? m) && (m <=? 12)
   && (1 <=? d) && (d <=? days_in_month y m))%bool.

Definition valid_date (d : date) : bool := valid_ymd (year d) (month d) (day d).

Definition fits_c_int (n : Z) : bool := ((- 2147483648 <=? n) && (n <=? 2147483647))%bool.

(** [date(y, m, d)]: the arguments are converted to C ints (OverflowError
    when one does not fit), then range-checked (ValueError). *)
Definition date_new (y m d : Z) : result date :=
  if negb (fits_c_int y && fits_c_int m && fits_c_int d)%bool then Raise OverflowError
  else if valid_ymd y m d then Ok (mkdate y m d)
  else Raise ValueError.

(** [d.toordinal()]: 0001-01-01 is day 1. *)
Definition ymd2ord (y m d : Z) : Z :=
  days_before_year y + days_before_month y m + d.

Definition toordinal (d : date) : Z := ymd2ord (year d) (month d) (day d).

Definition DI400Y : Z := 146097.
Definition DI100Y : Z := 36524.
Definition DI4Y : Z := 1461.

(** The month and day of the [n]-th day (from 0) of a year: the estimate
    [(n + 50) >> 5] is at most one month too far. *)
Definition month_day (leapyear : bool) (n : Z) : Z * Z :=
  let m := Z.shiftr (n + 50) 5 in
  let preceding :=
    days_before_month_table m + (if ((2 <? m) && leapyear)%bool then 1 else 0) in
  if n <? preceding then
    let m' := m - 1 in
    let preceding' :=
      preceding - (days_in_month_table m'
                   + (if ((m' =? 2) && leapyear)%bool then 1 else 0)) in
    (m', n - preceding' + 1)
  else (m, n - preceding + 1).

(** [date.fromordinal(n)], the inverse of [toordinal] on 1..MAXORDINAL. *)
Definition fromordinal (n : Z) : date :=
  let n := n - 1 in
  let n400 := n / DI400Y in
  let n := n mod DI400Y in
  let y := n400 * 400 + 1 in
  let n100 := n / DI100Y in
  let n := n mod DI100Y in
  let n4 := n / DI4Y in
  let n := n mod DI4Y in
  let n1 := n / 365 in
  let n := n mod 365 in
  let y := y + n100 * 100 + n4 * 4 + n1 in
  if ((n1 =? 4) || (n100 =? 4))%bool then mkdate (y - 1) 12 31
  else
    let leapyear := ((n1 =? 3) && (negb (n4 =? 24) || (n100 =? 3)))%bool in
    let md := month_day leapyear n in
    mkdate y (fst md) (snd md).

(** [timedelta(days=n)]: the magnitude is limited to 999999999 days. *)
Definition timedelta (n : Z) : result Z :=
  if ((-999999999 <=? n) && (n <=? 999999999))%bool then Ok n
  else Raise OverflowError.

(** [d + td] for a timedelta of [days] days *)
Definition date_add (d : date) (days : Z) : result date :=
  let o := toordinal d + days in
  if ((0 <? o) && (o <=? MAXORDINAL))%bool then Ok (fromordinal o)
  else Raise OverflowError.

(** [d - td], computed by the module as [d + timedelta(-td.days)] *)
Definition date_sub (d : date) (days : Z) : result date := date_add d (- days).

(** [d - timedelta(days=n)] and [d + timedelta(days=n)] as the sources
    write them: the timedelta is built first. *)
Definition minus_days (d : date) (n : Z) : result date :=
  td <- timedelta n ;; date_sub d td.

Definition plus_days (d : date) (n : Z) : result date :=
  td <- timedelta n ;; date_add d td.

(** Comparison of two dates: the fields in order. *)
Definition date_cmp (a b : date) : comparison :=
  match year a ?= year b with
  | Eq => match month a ?= month b with
          | Eq => day a ?= day b
          | c => c
          end
  | c => c
  end.

Definition date_ltb (a b : date) : bool :=
  match date_cmp a b with Lt => true | _ => false end.

Definition date_leb (a b : date) : bool :=
  match date_cmp a b with Gt => false | _ => true end.

Definition date_eqb (a b : date) : bool :=
  match date_cmp a b with Eq => true | _ => false end.

(** The builtins [min(a, b)] and [max(a, b)]: the first argument is kept
    unless the second is strictly smaller (resp. larger). *)
Definition py_min (a b : date) : date := if date_ltb b a then b else a.
Definition py_max (a b : date) : date := if date_ltb a b then b else a.

(** [d.isoformat()] is ["%04d-%02d-%02d" % (year, month, day)] *)
Definition isoformat (d : date) : string :=
  zfill 4 (year d) ++ "-" ++ zfill 2 (month d) ++ "-" ++ zfill 2 (day d).

End Datetime.

Import Datetime.

(* ===================================================================== *)
(** * retail_promotions_to_shopify_metafields.py *)
(* ===================================================================== *)

Module Promotions.

(** ** Config: the metafield names *)

Definition MF_NAMESPACE : string := "custom".
Definition MF_SALE_START : string := "promo_sale_start_date".
Definition MF_SALE_END : string := "promo_sale_end_date".
Definition MF_PI_START : string := "promo_pi_start_date".
Definition MF_PI_END : string := "promo_pi_end_date".

(** [normalize]: [" ".join((s or "").strip().lower().split())] *)
Definition normalize (s : string) : string :=
  join " " (split_ws (lower (strip s))).

(** ** Data models *)

Record RetailPromoRow : Type := mkRow {
  id : Z;
  vendor : string;
  entry_type : string;
  start_date : date;
  end_date : option date
}.

Record VendorPlan : Type := mkPlan {
  plan_vendor : string;
  sale_display_start : option date;
  sale_display_end : option date;
  pi_display_start : option date;
  pi_display_end : option date;
  sale_real_start : option date;
  sale_real_end : option date;
  pi_real_start : option date;
  pi_real_end : option date
}.

(** [VendorPlan(vendor=v)]: every date defaults to None. *)
Definition new_plan (v : string) : VendorPlan :=
  mkPlan v None None None None None None None None.

(** ** Reading rows *)

(** A cell of a fetched row, as the driver hands it over. *)
Inductive dbvalue : Type :=
| VNone
| VInt (n : Z)
| VStr (s : string)
| VDate (d : date)
| VDatetime (d : date) (microsecond_of_day : Z).

(** One [dict(zip(cols, row))] of [DatabaseConnection.query]. *)
Record RawRow : Type := mkRaw {
  raw_ID : dbvalue;
  raw_Vendor : dbvalue;
  raw_EntryType : dbvalue;
  raw_Date_of_Start : dbvalue;
  raw_Date_of_End : dbvalue
}.

Fixpoint remove_char (c : ascii) (s : string) : string :=
  match s with
  | EmptyString => EmptyString
  | String a s' => if Ascii.eqb a c then remove_char c s' else String a (remove_char c s')
  end.

Definition date_formats : list string :=
  ["%Y-%m-%d"; "%Y-%m-%d %H:%M:%S"; "%Y-%m-%d %H:%M:%S.%f"].

Section Reader.

(** The two library parsers [to_date_only] calls.  [strptime s fmt] is the
    date of [datetime.strptime(s, fmt)], [None] when it raises ValueError;
    [fromisoformat s] is the date of [datetime.fromisoformat(s)], [None]
    when it raises. *)
Variable strptime : string -> string -> option date.
Variable fromisoformat : string -> option date.

Fixpoint try_formats (s : string) (fmts : list string) : option date :=
  match fmts with
  | [] => None
  | fmt :: rest =>
      match strptime s fmt with
      | Some d => Some d
      | None => try_formats s rest
      end
  end.

Definition to_date_only (v : dbvalue) : option date :=
  match v with
  | VNone => None
  | VDatetime d _ => Some d
  | VDate d => Some d
  | VStr raw =>
      let s := strip raw in
      match try_formats s date_formats with
      | Some d => Some d
      | None => fromisoformat (remove_char "Z" s)
      end
  | VInt _ => None
  end.

(** [(r.get(col) or "").strip()] *)
Definition text_cell (v : dbvalue) : result string :=
  match v with
  | VNone => Ok EmptyString
  | VStr s => Ok (strip s)
  | VInt 0 => Ok EmptyString
  | VInt _ => Raise AttributeError
  | VDate _ => Raise AttributeError
  | VDatetime _ _ => Raise AttributeError
  end.

(** [int(r["ID"])] *)
Definition int_cell (v : dbvalue) : result Z :=
  match v with
  | VInt n => Ok n
  | VStr s => int_of_str s
  | VNone => Raise TypeError
  | VDate _ => Raise TypeError
  | VDatetime _ _ => Raise TypeError
  end.

(** The body of the [for r in raw] loop of [fetch_active_today]:
    [None] is [continue], [Some row] is the appended row. *)
Definition read_row (r : RawRow) : result (option RetailPromoRow) :=
  v <- text_cell (raw_Vendor r) ;;
  t <- text_cell (raw_EntryType r) ;;
  let s := to_date_only (raw_Date_of_Start r) in
  let e := to_date_only (raw_Date_of_End r) in
  match (is_empty v || is_empty t)%bool, s with
  | false, Some s =>
      i <- int_cell (raw_ID r) ;;
      Ok (Some (mkRow i v t s e))
  | _, _ => Ok None
  end.

(** The rows [fetch_active_today] returns for the fetched list [raw]. *)
Fixpoint read_rows (raw : list RawRow) : result (list RetailPromoRow) :=
  match raw with
  | [] => Ok []
  | r :: rest =>
      o <- read_row r ;;
      rows <- read_rows rest ;;
      Ok (match o with Some row => row :: rows | None => rows end)
  end.

End Reader.

(** ** Aggregation *)

Definition compute_display_window (row : RetailPromoRow) (x y z : Z)
  : result (date * date) :=
  let t := normalize (entry_type row) in
  if String.eqb t "sale" then
    ds <- minus_days (start_date row) x ;;
    Ok (ds, match end_date row with Some e => e | None => start_date row end)
  else if String.eqb t "price increase" then
    end_display <- match end_date row with
                   | Some e => Ok e
                   | None => plus_days (start_date row) z
                   end ;;
    ds <- minus_days (start_date row) y ;;
    Ok (ds, end_display)
  else Ok (start_date row, start_date row).

(** [d if cur is None else min(cur, d)] and its [max] twin *)
Definition keep_min (cur : option date) (d : date) : option date :=
  match cur with
  | None => Some d
  | Some c => Some (py_min c d)
  end.

Definition keep_max (cur : option date) (d : date) : option date :=
  match cur with
  | None => Some d
  | Some c => Some (py_max c d)
  end.

(** The Sale branch of the loop body *)
Definition merge_sale (w : VendorPlan) (r : RetailPromoRow) (d_start d_end : date)
  : VendorPlan :=
  let real_end := match end_date r with Some e => e | None => start_date r end in
  mkPlan (plan_vendor w)
         (keep_min (sale_display_start w) d_start)
         (keep_max (sale_display_end w) d_end)
         (pi_display_start w)
         (pi_display_end w)
         (keep_min (sale_real_start w) (start_date r))
         (keep_max (sale_real_end w) real_end)
         (pi_real_start w)
         (pi_real_end w).

(** The Price Increase branch of the loop body *)
Definition merge_pi (w : VendorPlan) (r : RetailPromoRow) (d_start d_end : date)
  : VendorPlan :=
  mkPlan (plan_vendor w)
         (sale_display_start w)
         (sale_display_end w)
         (keep_min (pi_display_start w) d_start)
         (keep_max (pi_display_end w) d_end)
         (sale_real_start w)
         (sale_real_end w)
         (keep_min (pi_real_start w) (start_date r))
         (match end_date r with
          | Some e => keep_max (pi_real_end w) e
          | None => pi_real_end w
          end).

(** A dict with string keys, in insertion order. *)
Definition dict (V : Type) : Type := list (string * V).

(** [d.get(k)] *)
Fixpoint dict_get {V} (k : string) (d : dict V) : option V :=
  match d with
  | [] => None
  | (k', w) :: rest => if String.eqb k' k then Some w else dict_get k rest
  end.

(** [d[k] = w]: an existing key keeps its position, a new one goes last. *)
Fixpoint dict_set {V} (k : string) (w : V) (d : dict V) : dict V :=
  match d with
  | [] => [(k, w)]
  | (k', w') :: rest =>
      if String.eqb k' k then (k', w) :: rest else (k', w') :: dict_set k w rest
  end.

(** [by_vendor] *)
Definition plans : Type := dict VendorPlan.

(** One iteration of [for r in rows] *)
Definition agg_step (x y z : Z) (by_vendor : plans) (r : RetailPromoRow)
  : result plans :=
  let v := vendor r in
  let w := match dict_get v by_vendor with
           | Some w => w
           | None => new_plan v
           end in
  let t := normalize (entry_type r) in
  win <- compute_display_window r x y z ;;
  let w' :=
    if String.eqb t "sale" then merge_sale w r (fst win) (snd win)
    else if String.eqb t "price increase" then merge_pi w r (fst win) (snd win)
    else w in
  Ok (dict_set v w' by_vendor).

Fixpoint agg_loop (x y z : Z) (rows : list RetailPromoRow) (by_vendor : plans)
  : result plans :=
  match rows with
  | [] => Ok by_vendor
  | r :: rest =>
      d <- agg_step x y z by_vendor r ;;
      agg_loop x y z rest d
  end.

Definition aggregate_by_vendor (rows : list RetailPromoRow) (x y z : Z)
  : result (list VendorPlan) :=
  d <- agg_loop x y z rows [] ;;
  Ok (map snd d).

(** The plan of vendor [v] in the returned list *)
Definition plan_of (v : string) (l : list VendorPlan) : option VendorPlan :=
  find (fun w => String.eqb (plan_vendor w) v) l.

(** ** The write/delete decision of [main] *)

(** One entry of a [metafieldsSet] payload *)
Record Metafield : Type := mkMf {
  ownerId : string;
  namespace : string;
  key : string;
  type_ : string;
  value : string
}.

Definition build_date_metafield (owner_id ns k : string) (d : date) : Metafield :=
  mkMf owner_id ns k "date" (isoformat d).

(** [ds is not None and de is not None and ds <= today <= de] *)
Definition should_exist (ds de : option date) (today : date) : bool :=
  match ds, de with
  | Some s, Some e => (date_leb s today && date_leb today e)%bool
  | _, _ => false
  end.

Definition sale_should_exist (w : VendorPlan) (today : date) : bool :=
  should_exist (sale_display_start w) (sale_display_end w) today.

Definition pi_should_exist (w : VendorPlan) (today : date) : bool :=
  should_exist (pi_display_start w) (pi_display_end w) today.

(** The entries appended for Sale *)
Definition sale_payload (pid : string) (w : VendorPlan) (today : date)
  : list Metafield :=
  match sale_should_exist w today, sale_real_start w, sale_real_end w with
  | true, Some s, Some e =>
      [build_date_metafield pid MF_NAMESPACE MF_SALE_START s;
       build_date_metafield pid MF_NAMESPACE MF_SALE_END e]
  | _, _, _ => []
  end.

(** The entries appended for Price Increase *)
Definition pi_payload (pid : string) (w : VendorPlan) (today : date)
  : list Metafield :=
  match pi_should_exist w today, pi_real_start w with
  | true, Some s =>
      build_date_metafield pid MF_NAMESPACE MF_PI_START s
      :: match pi_real_end w with
         | Some e => [build_date_metafield pid MF_NAMESPACE MF_PI_END e]
         | None => []
         end
  | _, _ => []
  end.

Definition build_payload (pid : string) (w : VendorPlan) (today : date)
  : list Metafield :=
  sale_payload pid w today ++ pi_payload pid w today.

Definition sale_keys_to_delete (w : VendorPlan) (today : date) : list string :=
  if negb (sale_should_exist w today) then [MF_SALE_START; MF_SALE_END] else [].

Definition pi_keys_to_delete (w : VendorPlan) (today : date) : list string :=
  if negb (pi_should_exist w today) then [MF_PI_START; MF_PI_END] else [].

Definition keys_to_delete (w : VendorPlan) (today : date) : list string :=
  sale_keys_to_delete w today ++ pi_keys_to_delete w today.

(** ** The calls on the shop *)

(** A metafield node of a [product.metafields(identifiers:)] answer *)
Record MfNode : Type := mkNode { mf_id : string; mf_key : string }.

(** What one product iteration leaves behind *)
Record RunState (world : Type) : Type := mkState {
  shop : world;
  updated_products : nat;
  deleted_metafields : nat;
  errors : list exn
}.

Arguments mkState {world}.
Arguments shop {world}.
Arguments updated_products {world}.
Arguments deleted_metafields {world}.
Arguments errors {world}.

Section Shop.

(** The state of the store and the three GraphQL operations the driver
    uses; a call either raises or answers, a mutation answers with its
    [userErrors]. *)
Variable world : Type.
Variable gql_metafields_set :
  list Metafield -> world -> world * result (list string).
Variable gql_product_metafields :
  string -> list (string * string) -> world -> result (list (option MfNode)).
Variable gql_metafield_delete :
  string -> world -> world * result (list string).

Definition check_user_errors (r : result (list string)) : result unit :=
  errs <- r ;;
  match errs with
  | [] => Ok tt
  | _ :: _ => Raise RuntimeError
  end.

Definition metafields_set (m : list Metafield) (s : world) : world * result unit :=
  let (s', r) := gql_metafields_set m s in (s', check_user_errors r).

Definition metafield_delete (metafield_id : string) (s : world)
  : world * result unit :=
  let (s', r) := gql_metafield_delete metafield_id s in (s', check_user_errors r).

(** [{k: None for k in keys}] *)
Definition none_for (keys : list string) : dict (option string) :=
  fold_left (fun out k => dict_set k None out) keys [].

(** [for mf in mfs: if mf and mf.get("key") in out: out[mf["key"]] = mf.get("id")] *)
Definition fill_ids (mfs : list (option MfNode)) (out : dict (option string))
  : dict (option string) :=
  fold_left
    (fun out mf =>
       match mf with
       | Some n =>
           match dict_get (mf_key n) out with
           | Some _ => dict_set (mf_key n) (Some (mf_id n)) out
           | None => out
           end
       | None => out
       end)
    mfs out.

Definition get_metafield_ids (product_id ns : string) (keys : list string)
  (s : world) : result (dict (option string)) :=
  let idents := map (fun k => (ns, k)) keys in
  mfs <- gql_product_metafields product_id idents s ;;
  Ok (fill_ids mfs (none_for keys)).

(** [mf_id = id_map.get(k)] followed by the test [if mf_id:] *)
Definition truthy_id (id_map : dict (option string)) (k : string) : option string :=
  match dict_get k id_map with
  | Some (Some i) => if is_empty i then None else Some i
  | _ => None
  end.

(** The [for k in keys_to_delete] loop; it stops at the first exception. *)
Fixpoint delete_loop (id_map : dict (option string)) (keys : list string)
  (s : world) (deleted : nat) : world * nat * result unit :=
  match keys with
  | [] => (s, deleted, Ok tt)
  | k :: rest =>
      match truthy_id id_map k with
      | Some i =>
          match metafield_delete i s with
          | (s', Ok _) => delete_loop id_map rest s' (S deleted)
          | (s', Raise e) => (s', deleted, Raise e)
          end
      | None => delete_loop id_map rest s deleted
      end
  end.

Definition log_error (r : result unit) (errs : list exn) : list exn :=
  match r with
  | Ok _ => errs
  | Raise e => errs ++ [e]
  end.

(** [if payload: try: shop.metafields_set(payload) ... except ...] *)
Definition write_phase (payload : list Metafield) (st : RunState world)
  : RunState world :=
  match payload with
  | [] => st
  | _ :: _ =>
      match metafields_set payload (shop st) with
      | (s', Ok _) =>
          mkState s' (S (updated_products st)) (deleted_metafields st) (errors st)
      | (s', Raise e) =>
          mkState s' (updated_products st) (deleted_metafields st) (errors st ++ [e])
      end
  end.

(** [if keys_to_delete: try: ... except ...] *)
Definition delete_phase (pid : string) (keys : list string) (st : RunState world)
  : RunState world :=
  match keys with
  | [] => st
  | _ :: _ =>
      match get_metafield_ids pid MF_NAMESPACE keys (shop st) with
      | Raise e =>
          mkState (shop st) (updated_products st) (deleted_metafields st)
                  (errors st ++ [e])
      | Ok id_map =>
          match delete_loop id_map keys (shop st) (deleted_metafields st) with
          | (s', n, r) => mkState s' (updated_products st) n (log_error r (errors st))
          end
      end
  end.

(** The body of [for pid in product_ids] *)
Definition process_product (dry_run : bool) (w : VendorPlan) (today : date)
  (pid : string) (st : RunState world) : RunState world :=
  let payload := build_payload pid w today in
  let keys := keys_to_delete w today in
  if dry_run then st
  else delete_phase pid keys (write_phase payload st).

End Shop.


(** ** ShopifyClient: the request loop *)

(** What one [requests.post] gives: it raises (time-out, connection
    error), or answers with a status code and a body; [parsed] is what
    [resp.json()] returns, [None] when it raises or when the body is no
    JSON object, so that [data.get] raises. *)
Inductive exchange (data : Type) : Type :=
| PostRaises
| Answer (status_code : Z) (parsed : option data).

Arguments PostRaises {data}.
Arguments Answer {data} status_code parsed.

(** [resp.status_code in (429, 500, 502, 503, 504)] *)
Definition is_temporary (status : Z) : bool :=
  ((status =? 429) || (status =? 500) || (status =? 502) || (status =? 503)
   || (status =? 504))%bool.

(** [resp.raise_for_status()] raises for the 4xx and 5xx codes. *)
Definition raise_for_status (status : Z) : bool :=
  ((400 <=? status) && (status <? 600))%bool.

Section Graphql.

Variable data : Type.
Variable world : Type.
(** [data.get("errors")] is truthy *)
Variable has_errors : data -> bool.
(** [requests.post(self.endpoint, ...)] for one query and its variables *)
Variable post : string -> world -> world * exchange data.

(** The body of one iteration of [for attempt in range(retries)]:
    [Some d] is [return data], [None] goes on with the next attempt (after
    the [continue] of a temporary status, or after the [except] clause). *)
Definition attempt_result (x : exchange data) : option data :=
  match x with
  | PostRaises => None
  | Answer status parsed =>
      if is_temporary status then None
      else if raise_for_status status then None
      else match parsed with
           | None => None
           | Some d => if has_errors d then None else Some d
           end
  end.

Fixpoint graphql_loop (attempts : nat) (query : string) (s : world)
  : world * result data :=
  match attempts with
  | O => (s, Raise RuntimeError)
  | S n =>
      let (s', x) := post query s in
      match attempt_result x with
      | Some d => (s', Ok d)
      | None => graphql_loop n query s'
      end
  end.

(** [graphql(query, variables, retries)]; [time.sleep] only delays. *)
Definition graphql (query : string) (retries : Z) (s : world)
  : world * result data :=
  graphql_loop (Z.to_nat retries) query s.

End Graphql.

(** ** ShopifyClient: collections and products *)

Record CollNode : Type := mkColl { coll_id : string; coll_title : string }.

Record ProdNode : Type := mkProd { prod_id : string; prod_vendor : string }.

(** One page of a [products] connection *)
Record Page : Type := mkPage {
  nodes : list ProdNode;
  hasNextPage : bool;
  endCursor : option string
}.

Definition dquote : string := String (ascii_of_nat 34) EmptyString.

(** The first node whose normalised title is [target] *)
Definition match_title (target : string) (l : list CollNode)
  : option (string * string) :=
  match find (fun n => String.eqb (normalize (coll_title n)) target) l with
  | Some n => Some (coll_id n, coll_title n)
  | None => None
  end.

Section Catalog.

Variable world : Type.
(** [self.graphql(q, {"q": search})["data"]["collections"]["nodes"]] *)
Variable query_collections : string -> world -> world * result (list CollNode).
(** [self.graphql(q, {"id": id, "cursor": cursor})["data"]["collection"]["products"]] *)
Variable query_collection_products :
  string -> option string -> world -> world * result Page.
(** [self.graphql(q, {"q": qstr, "cursor": cursor})["data"]["products"]] *)
Variable query_products :
  string -> option string -> world -> world * result Page.

Definition find_collection_by_title_exact (title : string) (s : world)
  : world * result (option (string * string)) :=
  let target := normalize title in
  match query_collections ("title:" ++ dquote ++ title ++ dquote) s with
  | (s1, Raise e) => (s1, Raise e)
  | (s1, Ok nodes1) =>
      match match_title target nodes1 with
      | Some r => (s1, Ok (Some r))
      | None =>
          match query_collections ("title:" ++ title) s1 with
          | (s2, Raise e) => (s2, Raise e)
          | (s2, Ok nodes2) => (s2, Ok (match_title target nodes2))
          end
      end
  end.

(** The [while has_next] loop of both listings.  [keep] selects the nodes
    whose id is recorded.  The loop runs as long as the shop announces
    another page, so it is given [fuel]: [None] means that the fuel ran out
    before the last page. *)
Fixpoint page_loop (fetch : option string -> world -> world * result Page)
  (keep : ProdNode -> bool) (fuel : nat) (ids : list string)
  (cursor : option string) (s : world)
  : option (world * result (list string)) :=
  match fuel with
  | O => None
  | S n =>
      match fetch cursor s with
      | (s', Raise e) => Some (s', Raise e)
      | (s', Ok conn) =>
          let ids' := (ids ++ map prod_id (filter keep (nodes conn)))%list in
          if hasNextPage conn
          then page_loop fetch keep n ids' (endCursor conn) s'
          else Some (s', Ok ids')
      end
  end.

Definition list_product_ids_in_collection (fuel : nat) (collection_id : string)
  (s : world) : option (world * result (list string)) :=
  page_loop (query_collection_products collection_id) (fun _ => true)
            fuel [] None s.

Definition list_product_ids_by_vendor (fuel : nat) (vendor : string) (s : world)
  : option (world * result (list string)) :=
  let target := normalize vendor in
  page_loop (query_products ("vendor:" ++ dquote ++ vendor ++ dquote))
            (fun n => String.eqb (normalize (prod_vendor n)) target)
            fuel [] None s.

(** ** [main]: from a vendor to its products, through the two caches *)

Record Caches : Type := mkCaches {
  collection_cache : dict (option (string * string));
  product_cache : dict (list string)
}.

Definition cache_key (vendor : string) (col : option (string * string)) : string :=
  vendor ++ "::" ++ match col with Some _ => "collection" | None => "vendor" end.

(** The two cache blocks at the head of [for w in vendor_plans]; an
    exception of the shop is not caught here. *)
Definition resolve_products (fuel : nat) (vendor : string) (c : Caches) (s : world)
  : option (world * result (list string * Caches)) :=
  let lookup_col :=
    match dict_get vendor (collection_cache c) with
    | Some col => (s, Ok (col, collection_cache c))
    | None =>
        match find_collection_by_title_exact vendor s with
        | (s1, Raise e) => (s1, Raise e)
        | (s1, Ok col) => (s1, Ok (col, dict_set vendor col (collection_cache c)))
        end
    end in
  match lookup_col with
  | (s1, Raise e) => Some (s1, Raise e)
  | (s1, Ok (col, cc)) =>
      let k := cache_key vendor col in
      match dict_get k (product_cache c) with
      | Some ids => Some (s1, Ok (ids, mkCaches cc (product_cache c)))
      | None =>
          let listed :=
            match col with
            | Some (col_id, _) => list_product_ids_in_collection fuel col_id s1
            | None => list_product_ids_by_vendor fuel vendor s1
            end in
          match listed with
          | None => None
          | Some (s2, Raise e) => Some (s2, Raise e)
          | Some (s2, Ok ids) =>
              Some (s2, Ok (ids, mkCaches cc (dict_set k ids (product_cache c))))
          end
      end
  end.

End Catalog.

(** ** [main]: the products of one vendor *)

Section Products.

Variable world : Type.
Variable gql_metafields_set :
  list Metafield -> world -> world * result (list string).
Variable gql_product_metafields :
  string -> list (string * string) -> world -> result (list (option MfNode)).
Variable gql_metafield_delete :
  string -> world -> world * result (list string).

(** [for pid in product_ids: ...] *)
Definition process_products (dry_run : bool) (w : VendorPlan) (today : date)
  (product_ids : list string) (st : RunState world) : RunState world :=
  fold_left
    (fun st pid =>
       process_product world gql_metafields_set gql_product_metafields
                       gql_metafield_delete dry_run w today pid st)
    product_ids st.

End Products.
End Promotions.

Import Promotions.

(* ===================================================================== *)
(** * Shopify_Add_Banner_Test.py *)
(* ===================================================================== *)

Module BannerTest.

(** [len(s) == 10 and s[4] == "-" and s[7] == "-"] *)
Definition already_iso (s : string) : bool :=
  (Nat.eqb (String.length s) 10
   && match char_at 4 s with Some c => Ascii.eqb c "-" | None => false end
   && match char_at 7 s with Some c => Ascii.eqb c "-" | None => false end)%bool.

(** [default_year or datetime.now().year]; [now_year] is the clock's year. *)
Definition pick_year (now_year : Z) (default_year : option Z) : Z :=
  match default_year with
  | Some y => if y =? 0 then now_year else y
  | None => now_year
  end.

(** The [for sep in [".", "/", "-"]] loop, followed by the final raise. *)
Fixpoint try_separators (year : Z) (s : string) (seps : list ascii) : result string :=
  match seps with
  | [] => Raise ValueError
  | sep :: rest =>
      if contains sep s then
        match split_on sep s with
        | [p0; p1] =>
            m <- int_of_str p0 ;;
            d <- int_of_str p1 ;;
            dt <- date_new year m d ;;
            Ok (isoformat dt)
        | _ => try_separators year s rest
        end
      else try_separators year s rest
  end.

Definition separators : list ascii := ["."%char; "/"%char; "-"%char].

Definition parse_mm_dd (now_year : Z) (s : option string) (default_year : option Z)
  : result string :=
  let s := strip (match s with Some s => s | None => EmptyString end) in
  if is_empty s then Raise ValueError
  else if already_iso s then Ok s
  else try_separators (pick_year now_year default_year) s separators.


(** ** The payload of the test script *)

Definition NAMESPACE : string := "custom".

(** The entries of [KEYS] *)
Definition KEYS_sale_start : string := "custom_promo_start_date".
Definition KEYS_sale_end : string := "custom_promo_end_date".
Definition KEYS_pi_start : string := "custom_promo_pi_start_date".
Definition KEYS_pi_end : string := "custom_promo_pi_end_date".

Definition build_metafields (product_id promo_type start_iso end_iso : string)
  : result (list Promotions.Metafield) :=
  let keys :=
    if String.eqb promo_type "retail_sale"
    then Ok (KEYS_sale_start, KEYS_sale_end)
    else if String.eqb promo_type "price_increase"
    then Ok (KEYS_pi_start, KEYS_pi_end)
    else Raise ValueError in
  ks <- keys ;;
  Ok [Promotions.mkMf product_id NAMESPACE (fst ks) "date" start_iso;
      Promotions.mkMf product_id NAMESPACE (snd ks) "date" end_iso].
End BannerTest.

Import BannerTest.

(* ===================================================================== *)
(** * Notions used to state the properties *)
(* ===================================================================== *)

Definition lex_lt (a b : date) : Prop :=
  year a < year b
  \/ (year a = year b
      /\ (month a < month b \/ (month a = month b /\ day a < day b))).

Definition Z_range (lo : Z) (len : nat) : list Z :=
  map (fun k => lo + Z.of_nat k) (seq 0 len).

(** What [month_day] must satisfy on day [n] of a year. *)
Definition month_day_ok (leap : bool) (n : Z) : bool :=
  let md := month_day leap n in
  let m := fst md in
  let d := snd md in
  ((1 <=? m) && (m <=? 12) && (1 <=? d)
   && (d <=? days_in_month_table m + (if ((m =? 2) && leap)%bool then 1 else 0))
   && (days_before_month_table m + (if ((2 <? m) && leap)%bool then 1 else 0) + d
       =? n + 1))%bool.

Fixpoint all_space (s : string) : bool :=
  match s with
  | EmptyString => true
  | String c s' => (is_space c && all_space s')%bool
  end.

(** The plan the loop body starts from for vendor [v]:
    [by_vendor.get(v) or VendorPlan(vendor=v)] *)
Definition current (d : plans) (v : string) : VendorPlan :=
  match dict_get v d with
  | Some w => w
  | None => new_plan v
  end.

(** What the loop body does to that plan, given the row's window *)
Definition apply_row (w : VendorPlan) (r : RetailPromoRow) (win : date * date)
  : VendorPlan :=
  let t := normalize (entry_type r) in
  if String.eqb t "sale" then merge_sale w r (fst win) (snd win)
  else if String.eqb t "price increase" then merge_pi w r (fst win) (snd win)
  else w.

Definition is_sale (r : RetailPromoRow) : bool :=
  String.eqb (normalize (entry_type r)) "sale".

Definition is_pi (r : RetailPromoRow) : bool :=
  (negb (is_sale r) && String.eqb (normalize (entry_type r)) "price increase")%bool.

(** Two dicts that answer every lookup alike *)
Definition dict_equiv (d d' : plans) : Prop :=
  forall k, dict_get k d = dict_get k d'.

(** Two runs of the loop that end alike: the same exception, or dicts that
    answer every lookup alike *)
Definition res_equiv (r r' : result plans) : Prop :=
  match r, r' with
  | Ok d, Ok d' => dict_equiv d d'
  | Raise e, Raise e' => e = e'
  | _, _ => False
  end.

(** Two calls of [aggregate_by_vendor] that end alike: the same exception,
    or the same plan for every vendor *)
Definition same_outcome (r r' : result (list VendorPlan)) : Prop :=
  match r, r' with
  | Ok ps, Ok ps' => forall v, plan_of v ps = plan_of v ps'
  | Raise e, Raise e' => e = e'
  | _, _ => False
  end.

(** Every entry of the dict is filed under its own vendor name. *)
Definition keyed (d : plans) : Prop :=
  Forall (fun kw : string * VendorPlan => plan_vendor (snd kw) = fst kw) d.

(** The source end dates of the Price Increase rows of vendor [v], in order *)
Fixpoint pi_ends (v : string) (rows : list RetailPromoRow) : list date :=
  match rows with
  | [] => []
  | r :: rest =>
      match String.eqb (vendor r) v, is_pi r, end_date r with
      | true, true, Some e => e :: pi_ends v rest
      | _, _, _ => pi_ends v rest
      end
  end.

(** What each Sale row of vendor [v] offers as its real end, in order *)
Fixpoint sale_ends (v : string) (rows : list RetailPromoRow) : list date :=
  match rows with
  | [] => []
  | r :: rest =>
      if (String.eqb (vendor r) v && is_sale r)%bool
      then match end_date r with Some e => e | None => start_date r end
           :: sale_ends v rest
      else sale_ends v rest
  end.

(** The largest date of a list, [None] when there is none *)
Definition max_date (l : list date) : option date :=
  fold_left keep_max l None.

(** The same row under another spelling of its entry type *)
Definition with_entry_type (r : RetailPromoRow) (t : string) : RetailPromoRow :=
  mkRow (id r) (vendor r) t (start_date r) (end_date r).

(** [row.end_date or row.start_date] *)
Definition end_or_start (r : RetailPromoRow) : date :=
  match end_date r with
  | Some e => e
  | None => start_date r
  end.

(** No node of the answer [mfs] is filed under one of [keys]: none of these
    fields exists on the product. *)
Definition absent_on_target (keys : list string) (mfs : list (option MfNode)) : Prop :=
  forall n, In (Some n) mfs -> ~ In (mf_key n) keys.

(** Every key of [keys] is looked up as missing in [id_map]. *)
Definition all_missing (id_map : dict (option string)) (keys : list string) : Prop :=
  forall k, In k keys -> truthy_id id_map k = None.

(** A fetched row whose text columns hold text or NULL and whose ID is an
    integer; nothing is asked of the two date cells. *)
Definition text_or_null (v : dbvalue) : bool :=
  match v with
  | VNone | VStr _ => true
  | _ => false
  end.

Definition typed_row (r : RawRow) : bool :=
  (text_or_null (raw_Vendor r) && text_or_null (raw_EntryType r)
   && match raw_ID r with VInt _ => true | _ => false end)%bool.

(** Parsers that reject their input, as [strptime] and [fromisoformat] do
    for a string that is not a date *)
Definition rejecting_strptime : string -> string -> option date := fun _ _ => None.
Definition rejecting_fromisoformat : string -> option date := fun _ => None.

(** Every character of [s] satisfies [q]. *)
Fixpoint all_chars (q : ascii -> bool) (s : string) : bool :=
  match s with
  | EmptyString => true
  | String c s' => (q c && all_chars q s')%bool
  end.

(** The characters a text accepted by [int()] is made of *)
Definition int_char (c : ascii) : bool :=
  (is_int_space c || is_digit c || Ascii.eqb c "_" || Ascii.eqb c "+"
   || Ascii.eqb c "-")%bool.

(** The month and day texts of [s], read as the loop of [parse_mm_dd] reads
    them, before the date is built *)
Fixpoint split_md (s : string) (seps : list ascii) : result (Z * Z) :=
  match seps with
  | [] => Raise ValueError
  | sep :: rest =>
      if contains sep s then
        match split_on sep s with
        | [p0; p1] =>
            m <- int_of_str p0 ;;
            d <- int_of_str p1 ;;
            Ok (m, d)
        | _ => split_md s rest
        end
      else split_md s rest
  end.

(** [t] splits on a recognised separator into exactly two integer parts,
    month and day, that form a calendar date of [year]. *)
Definition well_formed_md (year : Z) (t : string) : Prop :=
  exists sep p0 p1 m d,
    In sep separators
    /\ split_on sep t = [p0; p1]
    /\ int_of_str p0 = Ok m /\ int_of_str p1 = Ok d
    /\ valid_ymd year m d = true.

(** YYYY-MM-DD: ten characters, digits around two hyphens *)
Definition iso_pattern (s : string) : bool :=
  match s with
  | String y1 (String y2 (String y3 (String y4 (String h1
      (String m1 (String m2 (String h2 (String d1 (String d2 EmptyString))))))))) =>
      (is_digit y1 && is_digit y2 && is_digit y3 && is_digit y4
       && Ascii.eqb h1 "-" && is_digit m1 && is_digit m2
       && Ascii.eqb h2 "-" && is_digit d1 && is_digit d2)%bool
  | _ => false
  end.

(** [s] is made of exactly [n] digits. *)
Definition digits_n (n : nat) (s : string) : bool :=
  (Nat.eqb (String.length s) n && all_chars is_digit s)%bool.

(** What the month.day text of [m] and [d] must satisfy to be read back *)
Definition md_text_ok (render : Z -> string) (sep : ascii) (m d : Z) : bool :=
  let t := (render m ++ String sep (render d))%string in
  (String.eqb (strip t) t && negb (is_empty t) && negb (already_iso t)
   && match split_md t separators with
      | Ok (m', d') => (m' =? m) && (d' =? d)
      | Raise _ => false
      end)%bool.

(** ** Notions for the further properties of the aggregator *)

(** The distinct strings of a list, in order of first appearance *)
Definition first_seen (l : list string) : list string :=
  fold_left (fun acc v => if existsb (String.eqb v) acc then acc else (acc ++ [v])%list)
            l [].

(** The windows of the rows of vendor [v] that [sel] selects, in order;
    a row without a window contributes nothing. *)
Fixpoint windows_of (sel : RetailPromoRow -> bool) (x y z : Z) (v : string)
  (rows : list RetailPromoRow) : list (date * date) :=
  match rows with
  | [] => []
  | r :: rest =>
      match (String.eqb (vendor r) v && sel r)%bool, compute_display_window r x y z with
      | true, Ok win => win :: windows_of sel x y z v rest
      | _, _ => windows_of sel x y z v rest
      end
  end.

(** The real start dates of the rows of vendor [v] that [sel] selects *)
Fixpoint starts_of (sel : RetailPromoRow -> bool) (v : string)
  (rows : list RetailPromoRow) : list date :=
  match rows with
  | [] => []
  | r :: rest =>
      if (String.eqb (vendor r) v && sel r)%bool
      then start_date r :: starts_of sel v rest
      else starts_of sel v rest
  end.

(** The smallest date of a list *)
Definition min_date (l : list date) : option date :=
  fold_left keep_min l None.

(** [a <= b] on optional dates, where an absent date bounds nothing *)
Definition opt_leb (a b : option date) : Prop :=
  match a, b with
  | Some a, Some b => date_leb a b = true
  | _, _ => True
  end.

(** The four keys, as [keys_to_delete] lists them *)
Definition all_keys : list string :=
  [MF_SALE_START; MF_SALE_END; MF_PI_START; MF_PI_END].

(** [lo .. hi] is the smallest window that contains every window of
    [wins]: both bounds are taken from [wins], and they are absent only when
    [wins] is empty. *)
Definition is_hull (lo hi : option date) (wins : list (date * date)) : Prop :=
  (forall ds de, In (ds, de) wins ->
                 exists a b, lo = Some a /\ hi = Some b
                             /\ date_leb a ds = true /\ date_leb de b = true)
  /\ (forall a, lo = Some a -> exists de, In (a, de) wins)
  /\ (forall b, hi = Some b -> exists ds, In (ds, b) wins).

(** The real dates of a plan lie inside its display windows. *)
Definition real_inside_display (w : VendorPlan) : Prop :=
  sale_display_end w = sale_real_end w
  /\ opt_leb (sale_display_start w) (sale_real_start w)
  /\ opt_leb (pi_display_start w) (pi_real_start w)
  /\ opt_leb (pi_real_end w) (pi_display_end w).

(** The dates of one promotion type come together. *)
Definition dates_paired (w : VendorPlan) : Prop :=
  (sale_display_start w <> None <-> sale_display_end w <> None)
  /\ (sale_display_start w <> None <-> sale_real_start w <> None)
  /\ (sale_display_start w <> None <-> sale_real_end w <> None)
  /\ (pi_display_start w <> None <-> pi_display_end w <> None)
  /\ (pi_display_start w <> None <-> pi_real_start w <> None)
  /\ (pi_real_end w <> None -> pi_display_start w <> None).

(** A non-empty string without white space: what [str.split()] returns *)
Definition is_word (w : string) : bool :=
  (negb (is_empty w) && all_chars (fun c => negb (is_space c)) w)%bool.

(** ** Notions for the further properties of the driver *)

(** The id of the last node of [mfs] filed under [k] *)
Fixpoint last_id (k : string) (mfs : list (option MfNode)) : option string :=
  match mfs with
  | [] => None
  | mf :: rest =>
      match last_id k rest with
      | Some i => Some i
      | None =>
          match mf with
          | Some n => if String.eqb (mf_key n) k then Some (mf_id n) else None
          | None => None
          end
      end
  end.

(** ** Notions for the further properties of the reader *)

(** A text cell with white space put around its text; other cells as they are *)
Definition pad_cell (w1 w2 : string) (v : dbvalue) : dbvalue :=
  match v with
  | VStr s => VStr (w1 ++ s ++ w2)
  | _ => v
  end.

(** A fetched row with the same white space put around each of its text
    cells, the ID apart *)
Definition pad_row (w1 w2 : string) (r : RawRow) : RawRow :=
  mkRaw (raw_ID r)
        (pad_cell w1 w2 (raw_Vendor r))
        (pad_cell w1 w2 (raw_EntryType r))
        (pad_cell w1 w2 (raw_Date_of_Start r))
        (pad_cell w1 w2 (raw_Date_of_End r)).

(** [l] is [l'] with some elements left out, the order kept. *)
Fixpoint is_subsequence {A B : Type} (same : A -> B -> Prop) (l : list A) (l' : list B)
  : Prop :=
  match l, l' with
  | [], _ => True
  | _ :: _, [] => False
  | a :: t, b :: t' => (same a b /\ is_subsequence same t t') \/ is_subsequence same l t'
  end.

(** Row [row] is what the reader makes of the fetched row [r]. *)
Definition read_as (strptime : string -> string -> option date)
  (fromisoformat : string -> option date) (row : RetailPromoRow) (r : RawRow)
  : Prop :=
  read_row strptime fromisoformat r = Ok (Some row).

(** [not l] for a list *)
Definition is_nil {A : Type} (l : list A) : bool :=
  match l with
  | [] => true
  | _ :: _ => false
  end.

(** The values of a list of optional values, in order *)
Fixpoint somes {A : Type} (l : list (option A)) : list A :=
  match l with
  | [] => []
  | Some a :: rest => a :: somes rest
  | None :: rest => somes rest
  end.

(* ===================================================================== *)
(** * Facts about the runtime model *)
(* ===================================================================== *)

(** ** The order on dates *)

Lemma date_ltb_spec (a b : date) : date_ltb a b = true <-> lex_lt a b.
Proof.
  unfold date_ltb, date_cmp, lex_lt.
  destruct (Z.compare_spec (year a) (year b));
    destruct (Z.compare_spec (month a) (month b));
    destruct (Z.compare_spec (day a) (day b));
    split; intros; try discriminate; try reflexivity; lia.
Qed.

Lemma date_ltb_false (a b : date) : date_ltb a b = false <-> ~ lex_lt a b.
Proof.
  rewrite <- date_ltb_spec. destruct (date_ltb a b); split; congruence.
Qed.

Lemma date_leb_ltb (a b : date) : date_leb a b = negb (date_ltb b a).
Proof.
  unfold date_leb, date_ltb, date_cmp.
  rewrite (Z.compare_antisym (year a) (year b)),
          (Z.compare_antisym (month a) (month b)),
          (Z.compare_antisym (day a) (day b)).
  destruct (year a ?= year b), (month a ?= month b), (day a ?= day b);
    reflexivity.
Qed.

Lemma date_eq_fields (a b : date) :
  year a = year b -> month a = month b -> day a = day b -> a = b.
Proof. destruct a, b; simpl; intros; subst; reflexivity. Qed.

(** Turns every comparison of the goal into linear facts on the fields. *)
Ltac date_order :=
  unfold py_min, py_max;
  repeat match goal with
         | |- context [date_ltb ?a ?b] =>
             is_var a; is_var b;
             let E := fresh "E" in destruct (date_ltb a b) eqn:E
         end;
  repeat match goal with
         | H : date_ltb _ _ = true |- _ => apply date_ltb_spec in H
         | H : date_ltb _ _ = false |- _ => apply date_ltb_false in H
         end;
  unfold lex_lt in *;
  first [ reflexivity | apply date_eq_fields; lia | exfalso; lia ].

Lemma py_min_comm (a b : date) : py_min a b = py_min b a.
Proof. date_order. Qed.

Lemma py_max_comm (a b : date) : py_max a b = py_max b a.
Proof. date_order. Qed.

Lemma py_min_assoc (a b c : date) : py_min (py_min a b) c = py_min a (py_min b c).
Proof. date_order. Qed.

Lemma py_max_assoc (a b c : date) : py_max (py_max a b) c = py_max a (py_max b c).
Proof. date_order. Qed.

Lemma py_min_idem (a : date) : py_min a a = a.
Proof. date_order. Qed.

Lemma py_max_idem (a : date) : py_max a a = a.
Proof. date_order. Qed.

(** Folding [min]/[max] into an optional accumulator does not depend on
    the order in which two dates arrive. *)
Lemma keep_min_swap (cur : option date) (a b : date) :
  keep_min (keep_min cur a) b = keep_min (keep_min cur b) a.
Proof.
  destruct cur as [c|]; simpl; f_equal.
  - rewrite !py_min_assoc. f_equal. apply py_min_comm.
  - apply py_min_comm.
Qed.

Lemma keep_max_swap (cur : option date) (a b : date) :
  keep_max (keep_max cur a) b = keep_max (keep_max cur b) a.
Proof.
  destruct cur as [c|]; simpl; f_equal.
  - rewrite !py_max_assoc. f_equal. apply py_max_comm.
  - apply py_max_comm.
Qed.

Lemma keep_min_some (cur : option date) (d : date) : keep_min cur d <> None.
Proof. destruct cur; discriminate. Qed.

Lemma keep_max_some (cur : option date) (d : date) : keep_max cur d <> None.
Proof. destruct cur; discriminate. Qed.

(** ** [fromordinal] inverts [toordinal] *)

Lemma Z_range_In (lo : Z) (len : nat) (z : Z) :
  lo <= z < lo + Z.of_nat len -> In z (Z_range lo len).
Proof.
  intros H. unfold Z_range. apply in_map_iff.
  exists (Z.to_nat (z - lo)). split; [lia|].
  apply in_seq. lia.
Qed.

Lemma forallb_range (f : Z -> bool) (lo : Z) (len : nat) :
  forallb f (Z_range lo len) = true ->
  forall z, lo <= z < lo + Z.of_nat len -> f z = true.
Proof.
  intros H z Hz. rewrite forallb_forall in H. apply H, Z_range_In, Hz.
Qed.

Lemma month_day_ok_all (leap : bool) (n : Z) :
  0 <= n < 365 -> month_day_ok leap n = true.
Proof.
  intros H.
  assert (A : forall b, forallb (month_day_ok b) (Z_range 0 365) = true)
    by (intros []; vm_compute; reflexivity).
  apply (forallb_range _ 0 365 (A leap)). lia.
Qed.

Lemma is_leap_parts (n400 n100 n4 n1 : Z) :
  0 <= n100 <= 3 -> 0 <= n4 <= 24 -> 0 <= n1 <= 3 ->
  is_leap (n400 * 400 + 1 + n100 * 100 + n4 * 4 + n1)
  = ((n1 =? 3) && (negb (n4 =? 24) || (n100 =? 3)))%bool.
Proof.
  intros H100 H4 H1. unfold is_leap.
  set (y := n400 * 400 + 1 + n100 * 100 + n4 * 4 + n1).
  assert (E4 : y mod 4 = (n1 + 1) mod 4).
  { unfold y. replace (n400 * 400 + 1 + n100 * 100 + n4 * 4 + n1)
      with ((n1 + 1) + (n400 * 100 + n100 * 25 + n4) * 4) by lia.
    apply Z.mod_add. lia. }
  assert (E100 : y mod 100 = (n4 * 4 + n1 + 1) mod 100).
  { unfold y. replace (n400 * 400 + 1 + n100 * 100 + n4 * 4 + n1)
      with ((n4 * 4 + n1 + 1) + (n400 * 4 + n100) * 100) by lia.
    apply Z.mod_add. lia. }
  assert (E400 : y mod 400 = (n100 * 100 + n4 * 4 + n1 + 1) mod 400).
  { unfold y. replace (n400 * 400 + 1 + n100 * 100 + n4 * 4 + n1)
      with ((n100 * 100 + n4 * 4 + n1 + 1) + n400 * 400) by lia.
    apply Z.mod_add. lia. }
  rewrite E4, E100, E400.
  destruct (Z.eqb_spec n1 3), (Z.eqb_spec n4 24), (Z.eqb_spec n100 3);
    repeat match goal with
           | |- context [?a mod ?b =? 0] => destruct (Z.eqb_spec (a mod b) 0)
           end;
    simpl; try reflexivity; exfalso;
    Z.div_mod_to_equations; lia.
Qed.

Lemma days_before_year_parts (n400 n100 n4 n1 : Z) :
  0 <= n100 <= 3 -> 0 <= n4 <= 24 -> 0 <= n1 <= 3 ->
  days_before_year (n400 * 400 + 1 + n100 * 100 + n4 * 4 + n1)
  = n400 * DI400Y + n100 * DI100Y + n4 * DI4Y + n1 * 365.
Proof.
  intros H100 H4 H1. unfold days_before_year, DI400Y, DI100Y, DI4Y.
  Z.div_mod_to_equations. lia.
Qed.

(** The quotients and the remainder [fromordinal] works with. *)
Lemma fromordinal_parts (n : Z) :
  exists n400 n100 n4 n1 r,
    n - 1 = n400 * DI400Y + n100 * DI100Y + n4 * DI4Y + n1 * 365 + r
    /\ 0 <= r < 365
    /\ 0 <= n1 * 365 + r < DI4Y
    /\ 0 <= n4 * DI4Y + n1 * 365 + r < DI100Y
    /\ 0 <= n100 * DI100Y + n4 * DI4Y + n1 * 365 + r < DI400Y
    /\ fromordinal n =
       let y := n400 * 400 + 1 + n100 * 100 + n4 * 4 + n1 in
       if ((n1 =? 4) || (n100 =? 4))%bool then mkdate (y - 1) 12 31
       else
         let leapyear := ((n1 =? 3) && (negb (n4 =? 24) || (n100 =? 3)))%bool in
         let md := month_day leapyear r in
         mkdate y (fst md) (snd md).
Proof.
  unfold fromordinal. cbv zeta.
  set (a := n - 1).
  set (r400 := a mod DI400Y).
  set (r100 := r400 mod DI100Y).
  set (r4 := r100 mod DI4Y).
  exists (a / DI400Y), (r400 / DI100Y), (r100 / DI4Y), (r4 / 365), (r4 mod 365).
  assert (H1 := Z.div_mod a DI400Y ltac:(discriminate)).
  assert (H2 := Z.mod_pos_bound a DI400Y ltac:(reflexivity)).
  assert (H3 := Z.div_mod r400 DI100Y ltac:(discriminate)).
  assert (H4 := Z.mod_pos_bound r400 DI100Y ltac:(reflexivity)).
  assert (H5 := Z.div_mod r100 DI4Y ltac:(discriminate)).
  assert (H6 := Z.mod_pos_bound r100 DI4Y ltac:(reflexivity)).
  assert (H7 := Z.div_mod r4 365 ltac:(discriminate)).
  assert (H8 := Z.mod_pos_bound r4 365 ltac:(reflexivity)).
  fold r400 in H1, H2. fold r100 in H3, H4. fold r4 in H5, H6.
  repeat split; try lia.
Qed.

Theorem toordinal_fromordinal (n : Z) :
  1 <= n -> toordinal (fromordinal n) = n.
Proof.
  intros Hn.
  destruct (fromordinal_parts n)
    as (n400 & n100 & n4 & n1 & r & E & Hr & H4 & H100 & H400 & ->).
  unfold DI400Y, DI100Y, DI4Y in *. cbv zeta.
  destruct (Z.eqb_spec n1 4) as [E1|E1]; simpl orb.
  - (* last day of a leap year that ends a 4-year cycle *)
    assert (r = 0) by lia. subst r n1.
    assert (B100 : 0 <= n100 <= 3) by lia.
    assert (B4 : 0 <= n4 <= 23) by lia.
    unfold toordinal, ymd2ord; simpl year; simpl month; simpl day.
    replace (n400 * 400 + 1 + n100 * 100 + n4 * 4 + 4 - 1)
      with (n400 * 400 + 1 + n100 * 100 + n4 * 4 + 3) by lia.
    rewrite days_before_year_parts by lia.
    unfold days_before_month. rewrite is_leap_parts by lia.
    replace (n4 =? 24) with false by (symmetry; apply Z.eqb_neq; lia).
    simpl. unfold DI400Y, DI100Y, DI4Y. lia.
  - destruct (Z.eqb_spec n100 4) as [E2|E2].
    + (* last day of a 400-year cycle *)
      subst n100.
      assert (n4 = 0 /\ n1 = 0 /\ r = 0) as (-> & -> & ->) by lia.
      unfold toordinal, ymd2ord; simpl year; simpl month; simpl day.
      match goal with
      | |- context [days_before_year ?t] =>
          replace t with (n400 * 400 + 1 + 3 * 100 + 24 * 4 + 3) by lia
      end.
      rewrite (days_before_year_parts n400 3 24 3) by lia.
      unfold days_before_month. rewrite (is_leap_parts n400 3 24 3) by lia.
      simpl. unfold DI400Y, DI100Y, DI4Y. lia.
    + assert (B1 : 0 <= n1 <= 3) by lia.
      assert (B100 : 0 <= n100 <= 3) by lia.
      assert (B4 : 0 <= n4 <= 24) by lia.
      set (leap := ((n1 =? 3) && (negb (n4 =? 24) || (n100 =? 3)))%bool).
      assert (M := month_day_ok_all leap r Hr).
      unfold month_day_ok in M. cbv zeta in M.
      destruct (month_day leap r) as [m d]. simpl fst in *; simpl snd in *.
      apply andb_prop in M as [M Msum].
      apply Z.eqb_eq in Msum.
      unfold toordinal, ymd2ord; simpl year; simpl month; simpl day.
      rewrite days_before_year_parts by lia.
      unfold days_before_month. rewrite is_leap_parts by lia. fold leap.
      unfold DI400Y, DI100Y, DI4Y. lia.
Qed.

Theorem fromordinal_valid (n : Z) :
  1 <= n <= MAXORDINAL -> valid_date (fromordinal n) = true.
Proof.
  intros Hn.
  destruct (fromordinal_parts n)
    as (n400 & n100 & n4 & n1 & r & E & Hr & H4 & H100 & H400 & ->).
  unfold DI400Y, DI100Y, DI4Y, MAXORDINAL in *. cbv zeta.
  assert (B400 : 0 <= n400 <= 24) by lia.
  destruct (Z.eqb_spec n1 4) as [E1|E1]; simpl orb.
  - unfold valid_date, valid_ymd, MINYEAR, MAXYEAR; simpl.
    repeat (apply andb_true_intro; split); try reflexivity;
      apply Z.leb_le; lia.
  - destruct (Z.eqb_spec n100 4) as [E2|E2].
    + unfold valid_date, valid_ymd, MINYEAR, MAXYEAR; simpl.
      repeat (apply andb_true_intro; split); try reflexivity;
        apply Z.leb_le; lia.
    + assert (B1 : 0 <= n1 <= 3) by lia.
      assert (B100 : 0 <= n100 <= 3) by lia.
      assert (B4 : 0 <= n4 <= 24) by lia.
      set (leap := ((n1 =? 3) && (negb (n4 =? 24) || (n100 =? 3)))%bool).
      assert (M := month_day_ok_all leap r Hr).
      unfold month_day_ok in M. cbv zeta in M.
      destruct (month_day leap r) as [m d]. simpl fst in *; simpl snd in *.
      apply andb_prop in M as [M _].
      apply andb_prop in M as [M Md2].
      apply andb_prop in M as [M Md1].
      apply andb_prop in M as [Mm1 Mm2].
      unfold valid_date, valid_ymd, MINYEAR, MAXYEAR; simpl year; simpl month; simpl day.
      rewrite Mm1, Mm2, Md1. simpl andb.
      assert (Y : 1 <= n400 * 400 + 1 + n100 * 100 + n4 * 4 + n1 <= 9999) by lia.
      replace (1 <=? n400 * 400 + 1 + n100 * 100 + n4 * 4 + n1) with true
        by (symmetry; apply Z.leb_le; lia).
      replace (n400 * 400 + 1 + n100 * 100 + n4 * 4 + n1 <=? 9999) with true
        by (symmetry; apply Z.leb_le; lia).
      simpl andb.
      unfold days_in_month. rewrite is_leap_parts by lia. fold leap.
      apply Z.leb_le. apply Z.leb_le in Md2.
      destruct (Z.eqb_spec m 2) as [->|]; destruct leap; simpl in *; lia.
Qed.

(** ** Date arithmetic *)

Lemma valid_date_fields (d : date) :
  valid_date d = true ->
  1 <= year d <= 9999 /\ 1 <= month d <= 12
  /\ 1 <= day d <= days_in_month (year d) (month d).
Proof.
  unfold valid_date, valid_ymd, MINYEAR, MAXYEAR. intros H.
  repeat (apply andb_prop in H; destruct H as [H ?]).
  repeat match goal with
         | X : (_ <=? _) = true |- _ => apply Z.leb_le in X
         end.
  lia.
Qed.

Lemma is_leap_true (y : Z) : is_leap y = true -> y mod 4 = 0.
Proof.
  unfold is_leap. intros H. apply andb_prop in H as [H _].
  apply Z.eqb_eq in H. exact H.
Qed.

(** The ordinal of a valid date lies between those of [date.min] and
    [date.max]. *)
Lemma toordinal_range (d : date) :
  valid_date d = true -> 1 <= toordinal d <= MAXORDINAL.
Proof.
  intros H. apply valid_date_fields in H. destruct d as [y m dd].
  simpl in H. destruct H as (Hy & Hm & Hd).
  unfold toordinal, ymd2ord, days_before_month, days_in_month, MAXORDINAL in *.
  simpl year; simpl month; simpl day.
  assert (Hdby : 0 <= days_before_year y
                 /\ (days_before_year y <= 3651694)
                 /\ (y mod 4 = 0 -> days_before_year y <= 3650599)).
  { unfold days_before_year. Z.div_mod_to_equations. lia. }
  destruct Hdby as (D0 & D1 & D2).
  assert (Hl : is_leap y = true -> y mod 4 = 0) by apply is_leap_true.
  assert (M : m = 1 \/ m = 2 \/ m = 3 \/ m = 4 \/ m = 5 \/ m = 6 \/ m = 7
              \/ m = 8 \/ m = 9 \/ m = 10 \/ m = 11 \/ m = 12) by lia.
  destruct (is_leap y);
    [specialize (D2 (Hl eq_refl))|];
    repeat (destruct M as [->|M]; [simpl in *; lia|]); subst m; simpl in *; lia.
Qed.

Lemma minus_days_in_range (d : date) (n : Z) :
  valid_date d = true -> 0 <= n -> n < toordinal d ->
  minus_days d n = Ok (fromordinal (toordinal d - n)).
Proof.
  intros V H0 H1. pose proof (toordinal_range d V) as R.
  unfold MAXORDINAL in R.
  unfold minus_days, timedelta.
  replace ((-999999999 <=? n) && (n <=? 999999999))%bool with true
    by (symmetry; apply andb_true_intro; split; apply Z.leb_le; lia).
  simpl. unfold date_sub, date_add, MAXORDINAL.
  replace (toordinal d + - n) with (toordinal d - n) by lia.
  replace ((0 <? toordinal d - n) && (toordinal d - n <=? 3652059))%bool with true
    by (symmetry; apply andb_true_intro; split;
        [apply Z.ltb_lt | apply Z.leb_le]; lia).
  reflexivity.
Qed.

Lemma plus_days_in_range (d : date) (n : Z) :
  valid_date d = true -> 0 <= n -> toordinal d + n <= MAXORDINAL ->
  plus_days d n = Ok (fromordinal (toordinal d + n)).
Proof.
  intros V H0 H1. pose proof (toordinal_range d V) as R.
  unfold MAXORDINAL in *.
  unfold plus_days, timedelta.
  replace ((-999999999 <=? n) && (n <=? 999999999))%bool with true
    by (symmetry; apply andb_true_intro; split; apply Z.leb_le; lia).
  simpl. unfold date_add, MAXORDINAL.
  replace ((0 <? toordinal d + n) && (toordinal d + n <=? 3652059))%bool with true
    by (symmetry; apply andb_true_intro; split;
        [apply Z.ltb_lt | apply Z.leb_le]; lia).
  reflexivity.
Qed.

Lemma minus_days_overflow (d : date) (n : Z) :
  valid_date d = true -> toordinal d <= n ->
  minus_days d n = Raise OverflowError.
Proof.
  intros V H. unfold minus_days, timedelta.
  destruct ((-999999999 <=? n) && (n <=? 999999999))%bool; [|reflexivity].
  simpl. unfold date_sub, date_add.
  replace (0 <? toordinal d + - n) with false
    by (symmetry; apply Z.ltb_ge; lia).
  reflexivity.
Qed.

Lemma plus_days_overflow (d : date) (n : Z) :
  MAXORDINAL < toordinal d + n -> plus_days d n = Raise OverflowError.
Proof.
  intros H. unfold plus_days, timedelta.
  destruct ((-999999999 <=? n) && (n <=? 999999999))%bool; [|reflexivity].
  simpl. unfold date_add.
  replace (toordinal d + n <=? MAXORDINAL) with false
    by (symmetry; apply Z.leb_gt; lia).
  rewrite andb_false_r. reflexivity.
Qed.

(** Date arithmetic fails in one way only. *)
Lemma date_add_raise (d : date) (n : Z) (e : exn) :
  date_add d n = Raise e -> e = OverflowError.
Proof.
  unfold date_add.
  destruct ((0 <? toordinal d + n) && (toordinal d + n <=? MAXORDINAL))%bool;
    congruence.
Qed.

Lemma minus_days_raise (d : date) (n : Z) (e : exn) :
  minus_days d n = Raise e -> e = OverflowError.
Proof.
  unfold minus_days, timedelta.
  destruct ((-999999999 <=? n) && (n <=? 999999999))%bool; simpl;
    [apply date_add_raise | congruence].
Qed.

Lemma plus_days_raise (d : date) (n : Z) (e : exn) :
  plus_days d n = Raise e -> e = OverflowError.
Proof.
  unfold plus_days, timedelta.
  destruct ((-999999999 <=? n) && (n <=? 999999999))%bool; simpl;
    [apply date_add_raise | congruence].
Qed.

Lemma compute_display_window_raise (r : RetailPromoRow) (x y z : Z) (e : exn) :
  compute_display_window r x y z = Raise e -> e = OverflowError.
Proof.
  unfold compute_display_window.
  destruct (String.eqb (normalize (entry_type r)) "sale").
  - destruct (minus_days (start_date r) x) eqn:E; simpl; [discriminate|].
    intros [= <-]. eapply minus_days_raise, E.
  - destruct (String.eqb (normalize (entry_type r)) "price increase");
      [|discriminate].
    destruct (end_date r) as [en|]; simpl.
    + destruct (minus_days (start_date r) y) eqn:E; simpl; [discriminate|].
      intros [= <-]. eapply minus_days_raise, E.
    + destruct (plus_days (start_date r) z) eqn:E1; simpl.
      * destruct (minus_days (start_date r) y) eqn:E; simpl; [discriminate|].
        intros [= <-]. eapply minus_days_raise, E.
      * intros [= <-]. eapply plus_days_raise, E1.
Qed.

(** ** Strings: white space and case *)

Lemma is_space_lower_char (c : ascii) : is_space (lower_char c) = is_space c.
Proof. destruct c as [[] [] [] [] [] [] [] []]; reflexivity. Qed.

Lemma starts_space_lower (s : string) : starts_space (lower s) = starts_space s.
Proof. destruct s; simpl; [reflexivity | apply is_space_lower_char]. Qed.

Lemma split_ws_lower (s : string) : split_ws (lower s) = map lower (split_ws s).
Proof.
  induction s as [|c s IH]; simpl; [reflexivity|].
  fold (lower s). rewrite is_space_lower_char, starts_space_lower, IH.
  destruct (is_space c); [reflexivity|].
  destruct (starts_space s); [reflexivity|].
  destruct (split_ws s); reflexivity.
Qed.

Lemma split_ws_lstrip (s : string) : split_ws (lstrip_by is_space s) = split_ws s.
Proof.
  induction s as [|c s IH]; simpl; [reflexivity|].
  destruct (is_space c) eqn:E; [exact IH|]. simpl. rewrite E. reflexivity.
Qed.

Lemma starts_space_rstrip (s : string) :
  starts_space (rstrip_by is_space s) = starts_space s.
Proof.
  destruct s as [|c s]; simpl; [reflexivity|].
  destruct (is_space c) eqn:E; simpl.
  - destruct (is_empty (rstrip_by is_space s)); simpl; [reflexivity | exact E].
  - exact E.
Qed.

Lemma split_ws_rstrip (s : string) : split_ws (rstrip_by is_space s) = split_ws s.
Proof.
  induction s as [|c s IH]; simpl; [reflexivity|].
  destruct (is_space c) eqn:E; simpl.
  - destruct (rstrip_by is_space s) eqn:R; simpl.
    + rewrite <- IH. reflexivity.
    + rewrite E. exact IH.
  - rewrite E, starts_space_rstrip, IH. reflexivity.
Qed.

Lemma split_ws_strip (s : string) : split_ws (strip s) = split_ws s.
Proof.
  unfold strip, strip_by. rewrite split_ws_rstrip. apply split_ws_lstrip.
Qed.

Lemma split_ws_all_space (w : string) : all_space w = true -> split_ws w = [].
Proof.
  induction w as [|c w IH]; simpl; [reflexivity|].
  intros H. apply andb_prop in H as [-> H]. auto.
Qed.

Lemma split_ws_app_space_l (w s : string) :
  all_space w = true -> split_ws (w ++ s) = split_ws s.
Proof.
  induction w as [|c w IH]; simpl; [reflexivity|].
  intros H. apply andb_prop in H as [-> H]. auto.
Qed.

Lemma starts_space_app_space (s w : string) :
  all_space w = true -> starts_space (s ++ w) = starts_space s.
Proof.
  destruct s; simpl; [|reflexivity].
  destruct w; simpl; [reflexivity|].
  intros H. apply andb_prop in H as [-> _]. reflexivity.
Qed.

Lemma split_ws_app_space_r (s w : string) :
  all_space w = true -> split_ws (s ++ w) = split_ws s.
Proof.
  intros H. induction s as [|c s IH]; simpl.
  - apply split_ws_all_space, H.
  - rewrite IH, (starts_space_app_space s w H). reflexivity.
Qed.

(** [normalize] sees a string only through its lower-cased words. *)
Lemma normalize_words (s : string) :
  normalize s = join " " (map lower (split_ws s)).
Proof.
  unfold normalize. rewrite split_ws_lower, split_ws_strip. reflexivity.
Qed.

Lemma normalize_pad (w1 w2 s : string) :
  all_space w1 = true -> all_space w2 = true ->
  normalize (w1 ++ s ++ w2) = normalize s.
Proof.
  intros H1 H2.
  rewrite !normalize_words, split_ws_app_space_l, split_ws_app_space_r by assumption.
  reflexivity.
Qed.

Lemma normalize_case (s s' : string) :
  lower s = lower s' -> normalize s = normalize s'.
Proof.
  intros H. rewrite !normalize_words, <- !split_ws_lower, H. reflexivity.
Qed.

(** Any run of white space between two words counts as one blank. *)
Lemma split_ws_app_gap (a w b : string) :
  all_space w = true -> is_empty w = false ->
  split_ws (a ++ w ++ b) = split_ws (a ++ " " ++ b).
Proof.
  intros Hw Hne. induction a as [|c a IH]; simpl.
  - rewrite split_ws_app_space_l by assumption. reflexivity.
  - rewrite IH.
    assert (S : starts_space (a ++ w ++ b) = starts_space (a ++ " " ++ b)).
    { destruct a; simpl; [|reflexivity].
      destruct w as [|c' w]; [discriminate|]. simpl in *.
      apply andb_prop in Hw as [-> _]. reflexivity. }
    rewrite S. reflexivity.
Qed.

Lemma normalize_gap (a w b : string) :
  all_space w = true -> is_empty w = false ->
  normalize (a ++ w ++ b) = normalize (a ++ " " ++ b).
Proof.
  intros Hw Hne. rewrite !normalize_words, (split_ws_app_gap a w b Hw Hne).
  reflexivity.
Qed.

(** ** The dict *)

Lemma dict_get_set_eq {V} (k : string) (w : V) (d : dict V) :
  dict_get k (dict_set k w d) = Some w.
Proof.
  induction d as [|[k' w'] d IH]; simpl.
  - rewrite String.eqb_refl. reflexivity.
  - destruct (String.eqb k' k) eqn:E; simpl; rewrite E; [reflexivity | exact IH].
Qed.

Lemma dict_get_set_neq {V} (k k' : string) (w : V) (d : dict V) :
  k' <> k -> dict_get k (dict_set k' w d) = dict_get k d.
Proof.
  intros N. induction d as [|[k0 w0] d IH]; simpl.
  - apply String.eqb_neq in N. rewrite N. reflexivity.
  - destruct (String.eqb k0 k') eqn:E; simpl.
    + apply String.eqb_eq in E. subst k0.
      apply String.eqb_neq in N. rewrite N. reflexivity.
    + rewrite IH. reflexivity.
Qed.

Lemma dict_get_set {V} (k k' : string) (w : V) (d : dict V) :
  dict_get k (dict_set k' w d)
  = if String.eqb k' k then Some w else dict_get k d.
Proof.
  destruct (String.eqb k' k) eqn:E.
  - apply String.eqb_eq in E. subst. apply dict_get_set_eq.
  - apply String.eqb_neq in E. apply dict_get_set_neq, E.
Qed.

Lemma dict_get_In {V} (k : string) (w : V) (d : dict V) :
  dict_get k d = Some w -> In (k, w) d.
Proof.
  induction d as [|[k' w'] d IH]; simpl; [discriminate|].
  destruct (String.eqb k' k) eqn:E.
  - apply String.eqb_eq in E. intros [= ->]. left. congruence.
  - intros H. right. auto.
Qed.

Lemma dict_set_Forall {V} (P : string * V -> Prop) (k : string) (w : V) (d : dict V) :
  P (k, w) -> Forall P d -> Forall P (dict_set k w d).
Proof.
  intros Pw. induction 1 as [|[k' w'] d Hx Hd IH]; simpl.
  - constructor; [exact Pw | constructor].
  - destruct (String.eqb k' k) eqn:E.
    + apply String.eqb_eq in E. subst. constructor; assumption.
    + constructor; assumption.
Qed.

Lemma dict_equiv_refl (d : plans) : dict_equiv d d.
Proof. intros k. reflexivity. Qed.

Lemma dict_equiv_sym (d d' : plans) : dict_equiv d d' -> dict_equiv d' d.
Proof. intros H k. symmetry. apply H. Qed.

Lemma dict_equiv_trans (a b c : plans) :
  dict_equiv a b -> dict_equiv b c -> dict_equiv a c.
Proof. intros H1 H2 k. rewrite H1. apply H2. Qed.

Lemma dict_equiv_set (d d' : plans) (k : string) (w : VendorPlan) :
  dict_equiv d d' -> dict_equiv (dict_set k w d) (dict_set k w d').
Proof. intros H k'. rewrite !dict_get_set, H. reflexivity. Qed.

Lemma dict_equiv_current (d d' : plans) (v : string) :
  dict_equiv d d' -> current d v = current d' v.
Proof. intros H. unfold current. rewrite H. reflexivity. Qed.

Lemma res_equiv_refl (r : result plans) : res_equiv r r.
Proof. destruct r; simpl; [apply dict_equiv_refl | reflexivity]. Qed.

Lemma res_equiv_sym (r r' : result plans) : res_equiv r r' -> res_equiv r' r.
Proof.
  destruct r, r'; simpl; auto using dict_equiv_sym.
Qed.

Lemma res_equiv_trans (a b c : result plans) :
  res_equiv a b -> res_equiv b c -> res_equiv a c.
Proof.
  destruct a, b, c; simpl; try tauto; try congruence.
  all: try apply dict_equiv_trans.
Qed.

(** A keyed dict and the list of its plans answer alike. *)
Lemma plan_of_keyed (d : plans) (v : string) :
  keyed d -> plan_of v (map snd d) = dict_get v d.
Proof.
  unfold keyed, plan_of. induction 1 as [|[k w] d Hk Hd IH]; simpl; [reflexivity|].
  simpl in Hk. rewrite Hk. destruct (String.eqb k v); [reflexivity | exact IH].
Qed.

Lemma keyed_set (d : plans) (k : string) (w : VendorPlan) :
  plan_vendor w = k -> keyed d -> keyed (dict_set k w d).
Proof. intros H. apply dict_set_Forall. exact H. Qed.

Lemma keyed_current (d : plans) (v : string) :
  keyed d -> plan_vendor (current d v) = v.
Proof.
  intros K. unfold current. destruct (dict_get v d) as [w|] eqn:E; [|reflexivity].
  apply dict_get_In in E. unfold keyed in K. rewrite Forall_forall in K.
  apply (K _ E).
Qed.

(** ** The fold of [aggregate_by_vendor] *)

Lemma agg_step_unfold (x y z : Z) (d : plans) (r : RetailPromoRow) :
  agg_step x y z d r
  = (win <- compute_display_window r x y z ;;
     Ok (dict_set (vendor r) (apply_row (current d (vendor r)) r win) d)).
Proof. reflexivity. Qed.

Lemma plan_vendor_apply_row (w : VendorPlan) (r : RetailPromoRow) (win : date * date) :
  plan_vendor (apply_row w r win) = plan_vendor w.
Proof.
  unfold apply_row.
  destruct (String.eqb (normalize (entry_type r)) "sale"); [reflexivity|].
  destruct (String.eqb (normalize (entry_type r)) "price increase"); reflexivity.
Qed.

(** Two rows of one vendor may be merged in either order. *)
Lemma apply_row_swap (w : VendorPlan) (r1 r2 : RetailPromoRow) (w1 w2 : date * date) :
  apply_row (apply_row w r1 w1) r2 w2 = apply_row (apply_row w r2 w2) r1 w1.
Proof.
  unfold apply_row.
  destruct (String.eqb (normalize (entry_type r1)) "sale");
    destruct (String.eqb (normalize (entry_type r2)) "sale");
    destruct (String.eqb (normalize (entry_type r1)) "price increase");
    destruct (String.eqb (normalize (entry_type r2)) "price increase");
    try reflexivity;
    unfold merge_sale, merge_pi; simpl;
    try (f_equal; apply keep_min_swap || apply keep_max_swap).
  all: destruct (end_date r1), (end_date r2); f_equal;
    try apply keep_min_swap; try apply keep_max_swap; reflexivity.
Qed.

Lemma agg_step_equiv (x y z : Z) (d d' : plans) (r : RetailPromoRow) :
  dict_equiv d d' -> res_equiv (agg_step x y z d r) (agg_step x y z d' r).
Proof.
  intros H. rewrite !agg_step_unfold.
  destruct (compute_display_window r x y z) as [win|e]; simpl; [|reflexivity].
  rewrite (dict_equiv_current d d' _ H). apply dict_equiv_set, H.
Qed.

Lemma agg_loop_equiv (x y z : Z) (rows : list RetailPromoRow) (d d' : plans) :
  dict_equiv d d' -> res_equiv (agg_loop x y z rows d) (agg_loop x y z rows d').
Proof.
  revert d d'. induction rows as [|r rows IH]; intros d d' H; simpl; [exact H|].
  pose proof (agg_step_equiv x y z d d' r H) as S.
  destruct (agg_step x y z d r), (agg_step x y z d' r); simpl in *;
    try contradiction; auto.
Qed.

Lemma current_set (d : plans) (k v : string) (w : VendorPlan) :
  current (dict_set k w d) v = if String.eqb k v then w else current d v.
Proof.
  unfold current. rewrite dict_get_set. destruct (String.eqb k v); reflexivity.
Qed.

(** Two iterations may be exchanged. *)
Lemma agg_step_swap (x y z : Z) (d : plans) (r1 r2 : RetailPromoRow) :
  res_equiv (d1 <- agg_step x y z d r1 ;; agg_step x y z d1 r2)
            (d2 <- agg_step x y z d r2 ;; agg_step x y z d2 r1).
Proof.
  rewrite !agg_step_unfold.
  destruct (compute_display_window r1 x y z) as [w1|e1] eqn:E1;
    destruct (compute_display_window r2 x y z) as [w2|e2] eqn:E2;
    simpl; rewrite ?agg_step_unfold, ?E1, ?E2; simpl; try reflexivity.
  - intros k. rewrite !dict_get_set, !current_set.
    destruct (String.eqb (vendor r1) (vendor r2)) eqn:V.
    + apply String.eqb_eq in V. rewrite V, String.eqb_refl.
      destruct (String.eqb (vendor r2) k); [|reflexivity].
      f_equal. apply apply_row_swap.
    + assert (V' : String.eqb (vendor r2) (vendor r1) = false).
      { rewrite String.eqb_sym. exact V. }
      rewrite V'.
      destruct (String.eqb (vendor r2) k) eqn:K2;
        destruct (String.eqb (vendor r1) k) eqn:K1; try reflexivity.
      apply String.eqb_eq in K1, K2. apply String.eqb_neq in V. congruence.
  - apply compute_display_window_raise in E1, E2. congruence.
Qed.

Lemma bind_agg_loop_equiv (x y z : Z) (rows : list RetailPromoRow)
  (r r' : result plans) :
  res_equiv r r' ->
  res_equiv (d <- r ;; agg_loop x y z rows d) (d <- r' ;; agg_loop x y z rows d).
Proof.
  destruct r, r'; simpl; try contradiction; auto using agg_loop_equiv.
Qed.

Lemma bind_assoc_step (x y z : Z) (rows : list RetailPromoRow)
  (d : plans) (r1 r2 : RetailPromoRow) :
  agg_loop x y z (r1 :: r2 :: rows) d
  = (d2 <- (d1 <- agg_step x y z d r1 ;; agg_step x y z d1 r2) ;;
     agg_loop x y z rows d2).
Proof.
  simpl. destruct (agg_step x y z d r1); reflexivity.
Qed.

(** The loop does not depend on the order of the rows. *)
Lemma agg_loop_perm (x y z : Z) (l l' : list RetailPromoRow) :
  Permutation l l' ->
  forall d d', dict_equiv d d' ->
               res_equiv (agg_loop x y z l d) (agg_loop x y z l' d').
Proof.
  induction 1 as [|r l l' P IH|r1 r2 l|l1 l2 l3 P1 IH1 P2 IH2]; intros d d' H.
  - exact H.
  - simpl. pose proof (agg_step_equiv x y z d d' r H) as S.
    destruct (agg_step x y z d r), (agg_step x y z d' r); simpl in *;
      try contradiction; auto.
  - rewrite !bind_assoc_step.
    eapply res_equiv_trans.
    + apply bind_agg_loop_equiv, agg_step_swap.
    + rewrite <- !bind_assoc_step. apply agg_loop_equiv, H.
  - eapply res_equiv_trans; [apply IH1, dict_equiv_refl | apply IH2, H].
Qed.

(** The loop keeps every entry under its own vendor name. *)
Lemma agg_step_keyed (x y z : Z) (d d' : plans) (r : RetailPromoRow) :
  keyed d -> agg_step x y z d r = Ok d' -> keyed d'.
Proof.
  intros K. rewrite agg_step_unfold.
  destruct (compute_display_window r x y z) as [win|]; simpl; [|discriminate].
  intros [= <-]. apply keyed_set; [|exact K].
  rewrite plan_vendor_apply_row. apply keyed_current, K.
Qed.

Lemma agg_loop_keyed (x y z : Z) (rows : list RetailPromoRow) (d d' : plans) :
  keyed d -> agg_loop x y z rows d = Ok d' -> keyed d'.
Proof.
  revert d. induction rows as [|r rows IH]; intros d K; simpl.
  - intros [= <-]. exact K.
  - destruct (agg_step x y z d r) as [d1|] eqn:E; simpl; [|discriminate].
    apply IH. eapply agg_step_keyed; eauto.
Qed.

Lemma keyed_nil : keyed [].
Proof. constructor. Qed.

(** The plan of a vendor in the result is the entry of the final dict. *)
Lemma aggregate_plan_of (rows : list RetailPromoRow) (x y z : Z)
  (ps : list VendorPlan) :
  aggregate_by_vendor rows x y z = Ok ps ->
  exists d, agg_loop x y z rows [] = Ok d /\ ps = map snd d /\ keyed d
            /\ forall v, plan_of v ps = dict_get v d.
Proof.
  unfold aggregate_by_vendor.
  destruct (agg_loop x y z rows []) as [d|] eqn:E; simpl; [|discriminate].
  intros [= <-]. exists d.
  assert (K : keyed d) by (eapply agg_loop_keyed; [apply keyed_nil | exact E]).
  repeat split; auto. intros v. apply plan_of_keyed, K.
Qed.

(** ** What the fold leaves in each field *)

Lemma agg_step_current (x y z : Z) (d d' : plans) (r : RetailPromoRow) :
  agg_step x y z d r = Ok d' ->
  exists win,
    compute_display_window r x y z = Ok win
    /\ (forall v, dict_get v d'
                  = if String.eqb (vendor r) v
                    then Some (apply_row (current d v) r win)
                    else dict_get v d)
    /\ (forall v, current d' v
                  = if String.eqb (vendor r) v
                    then apply_row (current d v) r win
                    else current d v).
Proof.
  rewrite agg_step_unfold.
  destruct (compute_display_window r x y z) as [win|]; simpl; [|discriminate].
  intros [= <-]. exists win. split; [reflexivity|]. split; intros v.
  - rewrite dict_get_set. destruct (String.eqb (vendor r) v) eqn:E; [|reflexivity].
    apply String.eqb_eq in E. subst v. reflexivity.
  - rewrite current_set. destruct (String.eqb (vendor r) v) eqn:E; [|reflexivity].
    apply String.eqb_eq in E. subst v. reflexivity.
Qed.

Lemma is_pi_true (r : RetailPromoRow) :
  is_pi r = true
  <-> String.eqb (normalize (entry_type r)) "sale" = false
      /\ String.eqb (normalize (entry_type r)) "price increase" = true.
Proof.
  unfold is_pi, is_sale.
  destruct (String.eqb (normalize (entry_type r)) "sale"),
    (String.eqb (normalize (entry_type r)) "price increase"); simpl;
    split; try tauto; try discriminate; intros [? ?]; discriminate.
Qed.

Lemma apply_row_sale (w : VendorPlan) (r : RetailPromoRow) (win : date * date) :
  is_sale r = true -> apply_row w r win = merge_sale w r (fst win) (snd win).
Proof. unfold is_sale, apply_row. intros ->. reflexivity. Qed.

Lemma apply_row_pi (w : VendorPlan) (r : RetailPromoRow) (win : date * date) :
  is_pi r = true -> apply_row w r win = merge_pi w r (fst win) (snd win).
Proof. intros H. apply is_pi_true in H as [H1 H2]. unfold apply_row. rewrite H1, H2. reflexivity. Qed.

Lemma apply_row_other (w : VendorPlan) (r : RetailPromoRow) (win : date * date) :
  is_sale r = false -> is_pi r = false -> apply_row w r win = w.
Proof.
  unfold is_pi, is_sale, apply_row.
  destruct (String.eqb (normalize (entry_type r)) "sale"); [discriminate|].
  destruct (String.eqb (normalize (entry_type r)) "price increase");
    [discriminate | reflexivity].
Qed.

Lemma pi_real_end_apply_row (w : VendorPlan) (r : RetailPromoRow) (win : date * date) :
  pi_real_end (apply_row w r win)
  = match is_pi r, end_date r with
    | true, Some e => keep_max (pi_real_end w) e
    | _, _ => pi_real_end w
    end.
Proof.
  destruct (is_pi r) eqn:P.
  - rewrite apply_row_pi by assumption. simpl. destruct (end_date r); reflexivity.
  - destruct (is_sale r) eqn:S.
    + rewrite apply_row_sale by assumption. reflexivity.
    + rewrite apply_row_other by assumption. reflexivity.
Qed.

Lemma sale_real_end_apply_row (w : VendorPlan) (r : RetailPromoRow) (win : date * date) :
  sale_real_end (apply_row w r win)
  = if is_sale r
    then keep_max (sale_real_end w)
                  (match end_date r with Some e => e | None => start_date r end)
    else sale_real_end w.
Proof.
  destruct (is_sale r) eqn:S.
  - rewrite apply_row_sale by assumption. reflexivity.
  - destruct (is_pi r) eqn:P.
    + rewrite apply_row_pi by assumption. reflexivity.
    + rewrite apply_row_other by assumption. reflexivity.
Qed.

Lemma agg_loop_pi_real_end (x y z : Z) (rows : list RetailPromoRow)
  (d d' : plans) (v : string) :
  agg_loop x y z rows d = Ok d' ->
  pi_real_end (current d' v)
  = fold_left keep_max (pi_ends v rows) (pi_real_end (current d v)).
Proof.
  revert d. induction rows as [|r rows IH]; intros d; simpl.
  - intros [= <-]. reflexivity.
  - destruct (agg_step x y z d r) as [d1|] eqn:E; simpl; [|discriminate].
    intros H. rewrite (IH _ H).
    destruct (agg_step_current _ _ _ _ _ _ E) as (win & _ & _ & C).
    rewrite C. destruct (String.eqb (vendor r) v); [|reflexivity].
    rewrite pi_real_end_apply_row.
    destruct (is_pi r); [|reflexivity].
    destruct (end_date r); reflexivity.
Qed.

Lemma agg_loop_sale_real_end (x y z : Z) (rows : list RetailPromoRow)
  (d d' : plans) (v : string) :
  agg_loop x y z rows d = Ok d' ->
  sale_real_end (current d' v)
  = fold_left keep_max (sale_ends v rows) (sale_real_end (current d v)).
Proof.
  revert d. induction rows as [|r rows IH]; intros d; simpl.
  - intros [= <-]. reflexivity.
  - destruct (agg_step x y z d r) as [d1|] eqn:E; simpl; [|discriminate].
    intros H. rewrite (IH _ H).
    destruct (agg_step_current _ _ _ _ _ _ E) as (win & _ & _ & C).
    rewrite C. destruct (String.eqb (vendor r) v); [|reflexivity].
    rewrite sale_real_end_apply_row.
    destruct (is_sale r); reflexivity.
Qed.

(** A vendor seen once stays in the dict. *)
Lemma agg_loop_present (x y z : Z) (rows : list RetailPromoRow)
  (d d' : plans) (v : string) :
  agg_loop x y z rows d = Ok d' ->
  dict_get v d <> None \/ (exists r, In r rows /\ vendor r = v) ->
  dict_get v d' <> None.
Proof.
  revert d. induction rows as [|r rows IH]; intros d; simpl.
  - intros [= <-] [H|(r & [] & _)]. exact H.
  - destruct (agg_step x y z d r) as [d1|] eqn:E; simpl; [|discriminate].
    intros H Hv. apply (IH _ H).
    destruct (agg_step_current _ _ _ _ _ _ E) as (win & _ & G & _).
    rewrite G.
    destruct (String.eqb (vendor r) v) eqn:V; [left; discriminate|].
    destruct Hv as [Hv|(r' & [->|Hin] & Hr')].
    + left. exact Hv.
    + apply String.eqb_neq in V. contradiction.
    + right. eauto.
Qed.

(** The accumulator of a [max] fold *)
Lemma fold_keep_max_some (l : list date) (acc : option date) :
  (acc <> None \/ l <> []) -> fold_left keep_max l acc <> None.
Proof.
  revert acc. induction l as [|a l IH]; intros acc; simpl.
  - intros [H|H]; [exact H | contradiction].
  - intros _. apply IH. left. apply keep_max_some.
Qed.

Lemma fold_keep_max_none (l : list date) (acc : option date) :
  fold_left keep_max l acc = None <-> acc = None /\ l = [].
Proof.
  split.
  - destruct l as [|a l]; simpl; [auto|].
    intros H. exfalso. revert H. apply fold_keep_max_some. left. apply keep_max_some.
  - intros [-> ->]. reflexivity.
Qed.

Lemma py_max_cases (a b : date) : py_max a b = a \/ py_max a b = b.
Proof. unfold py_max. destruct (date_ltb a b); auto. Qed.

Lemma fold_keep_max_in (l : list date) (acc : option date) (e : date) :
  fold_left keep_max l acc = Some e -> acc = Some e \/ In e l.
Proof.
  revert acc. induction l as [|a l IH]; intros acc; simpl; [auto|].
  intros H. apply IH in H. destruct H as [H|H]; [|auto].
  destruct acc as [c|]; simpl in H.
  - injection H as H. destruct (py_max_cases c a) as [E|E]; rewrite E in H; subst; auto.
  - injection H as H. auto.
Qed.

Lemma pi_ends_In (v : string) (rows : list RetailPromoRow) (e : date) :
  In e (pi_ends v rows)
  <-> exists r, In r rows /\ vendor r = v /\ is_pi r = true /\ end_date r = Some e.
Proof.
  induction rows as [|r rows IH]; simpl.
  - split; [contradiction | intros (? & [] & _)].
  - destruct (String.eqb (vendor r) v) eqn:V.
    + apply String.eqb_eq in V.
      destruct (is_pi r) eqn:P.
      * destruct (end_date r) as [e'|] eqn:En; simpl; rewrite IH; split.
        -- intros [->|(r' & ? & ?)]; [exists r; auto | exists r'; tauto].
        -- intros (r' & [->|Hin] & Hv & Hp & He); [left; congruence | right; eauto].
        -- intros (r' & ? & ?). exists r'. tauto.
        -- intros (r' & [->|Hin] & Hv & Hp & He); [congruence | eauto].
      * rewrite IH. split.
        -- intros (r' & ? & ?). exists r'. tauto.
        -- intros (r' & [->|Hin] & Hv & Hp & He); [congruence | eauto].
    + rewrite IH. split.
      * intros (r' & ? & ?). exists r'. tauto.
      * intros (r' & [->|Hin] & Hv & Hp & He); [|eauto].
        apply String.eqb_neq in V. contradiction.
Qed.

Lemma sale_ends_nonempty (v : string) (rows : list RetailPromoRow) :
  (exists r, In r rows /\ vendor r = v /\ is_sale r = true) ->
  sale_ends v rows <> [].
Proof.
  induction rows as [|r rows IH]; simpl.
  - intros (? & [] & _).
  - intros (r' & [->|Hin] & Hv & Hs).
    + subst v. rewrite String.eqb_refl, Hs. discriminate.
    + destruct (String.eqb (vendor r) v && is_sale r)%bool; [discriminate|].
      apply IH. eauto.
Qed.

(** A property of plans that the loop body keeps holds of every plan the
    loop returns. *)
Lemma agg_loop_invariant (P : VendorPlan -> Prop) (x y z : Z) :
  (forall v, P (new_plan v)) ->
  (forall w r win, P w -> P (apply_row w r win)) ->
  forall rows d d',
    Forall (fun kw : string * VendorPlan => P (snd kw)) d ->
    agg_loop x y z rows d = Ok d' ->
    Forall (fun kw : string * VendorPlan => P (snd kw)) d'.
Proof.
  intros Hnew Hstep. induction rows as [|r rows IH]; intros d d' F; simpl.
  - intros [= <-]. exact F.
  - destruct (agg_step x y z d r) as [d1|] eqn:E; simpl; [|discriminate].
    apply IH. revert E. rewrite agg_step_unfold.
    destruct (compute_display_window r x y z) as [win|]; simpl; [|discriminate].
    intros [= <-]. apply dict_set_Forall; [|exact F].
    simpl. apply Hstep. unfold current.
    destruct (dict_get (vendor r) d) as [w|] eqn:G; [|apply Hnew].
    apply dict_get_In in G. rewrite Forall_forall in F. apply (F _ G).
Qed.

(** The dict holds one entry per vendor. *)
Lemma dict_set_keys {V} (k : string) (w : V) (d : dict V) :
  In k (map fst d) -> map fst (dict_set k w d) = map fst d.
Proof.
  induction d as [|[k' w'] d IH]; simpl; [contradiction|].
  destruct (String.eqb k' k) eqn:E; simpl; [reflexivity|].
  intros [H|H]; [apply String.eqb_neq in E; contradiction|].
  rewrite IH by exact H. reflexivity.
Qed.

Lemma dict_set_keys_new {V} (k : string) (w : V) (d : dict V) :
  ~ In k (map fst d) -> map fst (dict_set k w d) = (map fst d ++ [k])%list.
Proof.
  induction d as [|[k' w'] d IH]; simpl; [reflexivity|].
  intros H. destruct (String.eqb k' k) eqn:E.
  - apply String.eqb_eq in E. exfalso. apply H. auto.
  - simpl. rewrite IH; [reflexivity|]. intros H'. apply H. auto.
Qed.

Lemma dict_set_nodup {V} (k : string) (w : V) (d : dict V) :
  NoDup (map fst d) -> NoDup (map fst (dict_set k w d)).
Proof.
  intros N. destruct (in_dec string_dec k (map fst d)) as [I|I].
  - rewrite dict_set_keys by exact I. exact N.
  - rewrite dict_set_keys_new by exact I.
    apply NoDup_app; [exact N | constructor; [intros [] | constructor] |].
    intros a Ha [<-|[]]. contradiction.
Qed.

Lemma agg_loop_nodup (x y z : Z) (rows : list RetailPromoRow) (d d' : plans) :
  NoDup (map fst d) -> agg_loop x y z rows d = Ok d' -> NoDup (map fst d').
Proof.
  revert d. induction rows as [|r rows IH]; intros d N; simpl.
  - intros [= <-]. exact N.
  - destruct (agg_step x y z d r) as [d1|] eqn:E; simpl; [|discriminate].
    apply IH. revert E. rewrite agg_step_unfold.
    destruct (compute_display_window r x y z); simpl; [|discriminate].
    intros [= <-]. apply dict_set_nodup, N.
Qed.

Lemma dict_get_of_In {V} (k : string) (w : V) (d : dict V) :
  NoDup (map fst d) -> In (k, w) d -> dict_get k d = Some w.
Proof.
  induction d as [|[k' w'] d IH]; simpl; [contradiction|].
  intros N. inversion N as [|? ? Hk Nd]; subst.
  intros [H|H].
  - injection H as -> ->. rewrite String.eqb_refl. reflexivity.
  - destruct (String.eqb k' k) eqn:E; [|auto].
    apply String.eqb_eq in E. subst k'. exfalso. apply Hk.
    apply in_map_iff. exists (k, w). auto.
Qed.

(** Every plan of the result is the plan of its own vendor. *)
Lemma aggregate_In_plan_of (rows : list RetailPromoRow) (x y z : Z)
  (ps : list VendorPlan) (w : VendorPlan) :
  aggregate_by_vendor rows x y z = Ok ps -> In w ps ->
  plan_of (plan_vendor w) ps = Some w.
Proof.
  intros A Hin. destruct (aggregate_plan_of _ _ _ _ _ A) as (d & L & -> & K & G).
  rewrite G. apply in_map_iff in Hin as ([k w'] & <- & Hin). simpl.
  assert (N : NoDup (map fst d))
    by (apply (agg_loop_nodup x y z rows [] d (NoDup_nil _) L)).
  unfold keyed in K. rewrite Forall_forall in K.
  pose proof (K _ Hin) as E. simpl in E. rewrite E.
  apply dict_get_of_In; assumption.
Qed.

(** The loop returns as soon as every row has a window. *)
Lemma agg_loop_returns (x y z : Z) (rows : list RetailPromoRow) (d : plans) :
  (forall r, In r rows -> returns (compute_display_window r x y z)) <->
  returns (agg_loop x y z rows d).
Proof.
  revert d. induction rows as [|r rows IH]; intros d; simpl.
  - split; [intros _; eexists; reflexivity | intros _ r []].
  - rewrite agg_step_unfold.
    destruct (compute_display_window r x y z) as [win|e] eqn:E; simpl.
    + rewrite <- IH. split.
      * intros H r' Hr'. apply H. auto.
      * intros H r' [<-|Hr']; [rewrite E; eexists; reflexivity | auto].
    + split.
      * intros H. destruct (H r (or_introl eq_refl)) as (a0 & Ha). congruence.
      * intros (a0 & Ha). discriminate.
Qed.

Lemma aggregate_returns (rows : list RetailPromoRow) (x y z : Z) :
  (forall r, In r rows -> returns (compute_display_window r x y z)) <->
  returns (aggregate_by_vendor rows x y z).
Proof.
  rewrite (agg_loop_returns x y z rows []). unfold aggregate_by_vendor.
  destruct (agg_loop x y z rows []); simpl; split; intros (a0 & H);
    try discriminate; eexists; reflexivity.
Qed.

(* ===================================================================== *)
(** * The Window Calculator *)
(* ===================================================================== *)

Lemma window_sale (r : RetailPromoRow) (x y z : Z) :
  normalize (entry_type r) = "sale" ->
  compute_display_window r x y z
  = (ds <- minus_days (start_date r) x ;; Ok (ds, end_or_start r)).
Proof.
  intros H. unfold compute_display_window. rewrite H. reflexivity.
Qed.

Lemma window_pi (r : RetailPromoRow) (x y z : Z) :
  normalize (entry_type r) = "price increase" ->
  compute_display_window r x y z
  = (end_display <- match end_date r with
                    | Some e => Ok e
                    | None => plus_days (start_date r) z
                    end ;;
     ds <- minus_days (start_date r) y ;;
     Ok (ds, end_display)).
Proof.
  intros H. unfold compute_display_window. rewrite H. reflexivity.
Qed.

Lemma window_other (r : RetailPromoRow) (x y z : Z) :
  normalize (entry_type r) <> "sale" ->
  normalize (entry_type r) <> "price increase" ->
  compute_display_window r x y z = Ok (start_date r, start_date r).
Proof.
  intros H1 H2. unfold compute_display_window.
  apply String.eqb_neq in H1, H2. rewrite H1, H2. reflexivity.
Qed.

(** C1, the claim as written fails: a Sale row that starts on 0001-01-01
    with X = 1 has no display start, the subtraction leaves the range of
    [date] and the calculator raises OverflowError. *)
Lemma window_sale_before_date_min :
  valid_date (mkdate 1 1 1) = true
  /\ 0 <= 1
  /\ normalize "Sale" = "sale"
  /\ compute_display_window (mkRow 1 "Acme" "Sale" (mkdate 1 1 1) None) 1 0 0
     = Raise OverflowError.
Proof. repeat split; try reflexivity. lia. Qed.

(** C1 (amended): for a row with a valid start date and non-negative
    offsets X, Y, Z.  A Sale row whose start is more than X days after
    0001-01-01 gets displayStart = startDate minus X days and displayEnd =
    endDate if present, else startDate.  A Price Increase row whose start is
    more than Y days after 0001-01-01 gets displayStart = startDate minus Y
    days and displayEnd = endDate if present, else startDate plus Z days
    provided that day is not after 9999-12-31.  Dates are compared through
    their ordinals, and the computed dates are valid.  When a shifted date
    is not representable the calculator raises OverflowError. *)
Theorem window_rule_table (r : RetailPromoRow) (x y z : Z) :
  valid_date (start_date r) = true -> 0 <= x -> 0 <= y -> 0 <= z ->
  (normalize (entry_type r) = "sale" ->
   (x < toordinal (start_date r) ->
    exists ds,
      compute_display_window r x y z = Ok (ds, end_or_start r)
      /\ toordinal ds = toordinal (start_date r) - x
      /\ valid_date ds = true)
   /\ (toordinal (start_date r) <= x ->
       compute_display_window r x y z = Raise OverflowError))
  /\
  (normalize (entry_type r) = "price increase" ->
   (y < toordinal (start_date r) ->
    match end_date r with
    | Some e =>
        exists ds,
          compute_display_window r x y z = Ok (ds, e)
          /\ toordinal ds = toordinal (start_date r) - y
          /\ valid_date ds = true
    | None =>
        (toordinal (start_date r) + z <= MAXORDINAL ->
         exists ds de,
           compute_display_window r x y z = Ok (ds, de)
           /\ toordinal ds = toordinal (start_date r) - y
           /\ toordinal de = toordinal (start_date r) + z
           /\ valid_date ds = true /\ valid_date de = true)
        /\ (MAXORDINAL < toordinal (start_date r) + z ->
            compute_display_window r x y z = Raise OverflowError)
    end)
   /\ (toordinal (start_date r) <= y ->
       compute_display_window r x y z = Raise OverflowError)).
Proof.
  intros V Hx Hy Hz. pose proof (toordinal_range _ V) as R.
  split; intros T.
  - rewrite (window_sale r x y z T). split; intros H.
    + rewrite minus_days_in_range by assumption. simpl.
      eexists. split; [reflexivity|]. split.
      * apply toordinal_fromordinal. lia.
      * apply fromordinal_valid. lia.
    + rewrite minus_days_overflow by assumption. reflexivity.
  - rewrite (window_pi r x y z T). split; intros H.
    + destruct (end_date r) as [e|]; simpl.
      * rewrite minus_days_in_range by assumption. simpl.
        eexists. split; [reflexivity|]. split.
        -- apply toordinal_fromordinal. lia.
        -- apply fromordinal_valid. lia.
      * split; intros Hz'.
        -- rewrite plus_days_in_range by assumption. simpl.
           rewrite minus_days_in_range by assumption. simpl.
           do 2 eexists. split; [reflexivity|].
           repeat split.
           ++ apply toordinal_fromordinal. lia.
           ++ apply toordinal_fromordinal. lia.
           ++ apply fromordinal_valid. lia.
           ++ apply fromordinal_valid. lia.
        -- rewrite plus_days_overflow by assumption. reflexivity.
    + rewrite minus_days_overflow by assumption.
      destruct (end_date r) as [e|]; simpl; [reflexivity|].
      destruct (plus_days (start_date r) z) eqn:E; simpl; [reflexivity|].
      f_equal. eapply plus_days_raise, E.
Qed.

(** Scenario A of the specification: a Sale from 2024-02-07 to 2024-02-17
    with X = 3 is displayed from 2024-02-04. *)
Lemma window_rule_table_witness :
  exists ds,
    compute_display_window
      (mkRow 1 "Acme" "Sale" (mkdate 2024 2 7) (Some (mkdate 2024 2 17))) 3 2 10
    = Ok (ds, mkdate 2024 2 17)
    /\ toordinal ds = toordinal (mkdate 2024 2 7) - 3
    /\ valid_date ds = true.
Proof.
  refine (proj1 (proj1 (window_rule_table
            (mkRow 1 "Acme" "Sale" (mkdate 2024 2 7) (Some (mkdate 2024 2 17)))
            3 2 10 eq_refl _ _ _) eq_refl) eq_refl); lia.
Defined.

(** C9: the Window Calculator is total on entry types.  A row whose
    normalised entry type is neither "sale" nor "price increase" gets the
    degenerate window (startDate, startDate) and no error, whatever the
    offsets.  The calculator and the loop body of the aggregator do not
    change when the entry type is re-spelled in another case, padded with
    white space, or written with a longer run of white space between its
    words. *)
Theorem window_total_and_spelling_insensitive :
  (forall (r : RetailPromoRow) (x y z : Z),
      normalize (entry_type r) <> "sale" ->
      normalize (entry_type r) <> "price increase" ->
      compute_display_window r x y z = Ok (start_date r, start_date r))
  /\
  (forall (r : RetailPromoRow) (t w1 w2 : string) (x y z : Z) (d : plans),
      lower t = lower (entry_type r) ->
      all_space w1 = true -> all_space w2 = true ->
      compute_display_window (with_entry_type r (w1 ++ t ++ w2)) x y z
      = compute_display_window r x y z
      /\ agg_step x y z d (with_entry_type r (w1 ++ t ++ w2))
         = agg_step x y z d r)
  /\
  (forall (r : RetailPromoRow) (a b w : string) (x y z : Z) (d : plans),
      entry_type r = a ++ " " ++ b ->
      all_space w = true -> is_empty w = false ->
      compute_display_window (with_entry_type r (a ++ w ++ b)) x y z
      = compute_display_window r x y z
      /\ agg_step x y z d (with_entry_type r (a ++ w ++ b))
         = agg_step x y z d r).
Proof.
  split; [exact window_other|]. split.
  - intros r t w1 w2 x y z d L S1 S2.
    assert (N : normalize (w1 ++ t ++ w2) = normalize (entry_type r)).
    { rewrite normalize_pad by assumption. apply normalize_case, L. }
    unfold agg_step, compute_display_window, with_entry_type; simpl.
    rewrite N. split; reflexivity.
  - intros r a b w x y z d E S Ne.
    assert (N : normalize (a ++ w ++ b) = normalize (entry_type r)).
    { rewrite E. apply normalize_gap; assumption. }
    unfold agg_step, compute_display_window, with_entry_type; simpl.
    rewrite N. split; reflexivity.
Qed.

(** A row typed "  PRICE INCREASE " is a Price Increase row, and one typed
    "clearance" gets the degenerate window. *)
Lemma window_total_and_spelling_insensitive_witness :
  compute_display_window
    (with_entry_type (mkRow 2 "Acme" "price increase" (mkdate 2024 2 4) None)
                     ("  " ++ "PRICE INCREASE" ++ " ")) 3 2 10
  = compute_display_window
      (mkRow 2 "Acme" "price increase" (mkdate 2024 2 4) None) 3 2 10
  /\ compute_display_window
       (mkRow 3 "Acme" "clearance" (mkdate 2024 2 4) None) 3 2 10
     = Ok (mkdate 2024 2 4, mkdate 2024 2 4).
Proof.
  split.
  - exact (proj1 (proj1 (proj2 window_total_and_spelling_insensitive)
             (mkRow 2 "Acme" "price increase" (mkdate 2024 2 4) None)
             "PRICE INCREASE" "  " " " 3 2 10 [] eq_refl eq_refl eq_refl)).
  - apply (proj1 window_total_and_spelling_insensitive); discriminate.
Defined.

(* ===================================================================== *)
(** * The Vendor Aggregator *)
(* ===================================================================== *)

Lemma aggregate_current (rows : list RetailPromoRow) (x y z : Z)
  (ps : list VendorPlan) (v : string) (w : VendorPlan) :
  aggregate_by_vendor rows x y z = Ok ps -> plan_of v ps = Some w ->
  exists d, agg_loop x y z rows [] = Ok d /\ current d v = w.
Proof.
  intros A P. destruct (aggregate_plan_of _ _ _ _ _ A) as (d & L & _ & _ & G).
  exists d. split; [exact L|]. unfold current. rewrite <- G, P. reflexivity.
Qed.

Lemma nonempty_In {A} (l : list A) : l <> [] <-> exists a, In a l.
Proof.
  destruct l as [|a l]; split.
  - congruence.
  - intros (a & []).
  - intros _. exists a. left. reflexivity.
  - discriminate.
Qed.

(** C2: in every plan [aggregate_by_vendor] returns, [pi_real_end] is the
    largest source end date among the Price Increase rows of that vendor
    that carry one.  It is present only when such a row exists, its value is
    the end date of one of these rows (so it never comes from the Z-day
    display fallback), and merging a Price Increase row without an end date
    leaves it as it was. *)
Theorem pi_real_end_from_source_only (rows : list RetailPromoRow) (x y z : Z)
  (ps : list VendorPlan) (w : VendorPlan) :
  aggregate_by_vendor rows x y z = Ok ps ->
  In w ps ->
  pi_real_end w = max_date (pi_ends (plan_vendor w) rows)
  /\ (pi_real_end w <> None
      <-> exists r, In r rows /\ vendor r = plan_vendor w /\ is_pi r = true
                    /\ end_date r <> None)
  /\ (forall e, pi_real_end w = Some e ->
                exists r, In r rows /\ vendor r = plan_vendor w /\ is_pi r = true
                          /\ end_date r = Some e)
  /\ (forall (w0 : VendorPlan) (r : RetailPromoRow) (ds de : date),
         end_date r = None ->
         pi_real_end (merge_pi w0 r ds de) = pi_real_end w0).
Proof.
  intros A Hin. pose proof (aggregate_In_plan_of _ _ _ _ _ _ A Hin) as P.
  set (v := plan_vendor w) in *.
  destruct (aggregate_current _ _ _ _ _ _ _ A P) as (d & L & C).
  assert (E : pi_real_end w = max_date (pi_ends v rows)).
  { rewrite <- C, (agg_loop_pi_real_end _ _ _ _ _ _ v L). reflexivity. }
  split; [exact E|]. split; [|split].
  - rewrite E. unfold max_date. split.
    + intros H.
      assert (N : pi_ends v rows <> []).
      { intros N. apply H. apply fold_keep_max_none. auto. }
      apply nonempty_In in N as (e & He). apply pi_ends_In in He.
      destruct He as (r & ? & ? & ? & He). exists r.
      repeat split; try assumption. congruence.
    + intros (r & Hr & Hv & Hp & He) H.
      apply fold_keep_max_none in H as [_ H].
      destruct (end_date r) as [e|] eqn:En; [|congruence].
      assert (I : In e (pi_ends v rows)) by (apply pi_ends_In; eauto).
      rewrite H in I. exact I.
  - intros e He. rewrite E in He. apply fold_keep_max_in in He.
    destruct He as [He|He]; [discriminate|]. apply pi_ends_In, He.
  - intros w0 r ds de En. unfold merge_pi; simpl. rewrite En. reflexivity.
Qed.

(** One vendor with an open-ended Price Increase and one that ends on
    2024-03-01: the plan carries 2024-03-01, not the Z-day fallback. *)
Lemma pi_real_end_from_source_only_witness :
  pi_real_end
    (mkPlan "Acme" None None
            (Some (mkdate 2024 2 2)) (Some (mkdate 2024 3 1))
            None None (Some (mkdate 2024 2 4)) (Some (mkdate 2024 3 1)))
  = max_date
      (pi_ends "Acme"
         [mkRow 1 "Acme" "Price Increase" (mkdate 2024 2 4) None;
          mkRow 2 "Acme" "Price Increase" (mkdate 2024 2 10)
                (Some (mkdate 2024 3 1))]).
Proof.
  exact (proj1 (pi_real_end_from_source_only
                  [mkRow 1 "Acme" "Price Increase" (mkdate 2024 2 4) None;
                   mkRow 2 "Acme" "Price Increase" (mkdate 2024 2 10)
                         (Some (mkdate 2024 3 1))]
                  0 2 10 _ _ eq_refl (or_introl eq_refl))).
Defined.

(** C3: aggregation does not depend on the order of the rows.  For a
    permutation of the row list, either both calls raise the same exception
    or both return, and then every vendor has the same plan in both results
    (display windows and real dates of both promotion types). *)
Theorem aggregate_order_independent (rows rows' : list RetailPromoRow) (x y z : Z) :
  Permutation rows rows' ->
  same_outcome (aggregate_by_vendor rows x y z) (aggregate_by_vendor rows' x y z).
Proof.
  intros P.
  pose proof (agg_loop_perm x y z rows rows' P [] [] (dict_equiv_refl [])) as R.
  unfold aggregate_by_vendor.
  destruct (agg_loop x y z rows []) as [d|e] eqn:E;
    destruct (agg_loop x y z rows' []) as [d'|e'] eqn:E';
    simpl in *; try contradiction; [|exact R].
  intros v.
  rewrite !plan_of_keyed
    by (eapply agg_loop_keyed; [apply keyed_nil | eassumption]).
  apply R.
Qed.

(** Two vendors, three rows, read in two orders. *)
Lemma aggregate_order_independent_witness :
  same_outcome
    (aggregate_by_vendor
       [mkRow 1 "Acme" "Sale" (mkdate 2024 2 1) (Some (mkdate 2024 2 10));
        mkRow 2 "Bolt" "Price Increase" (mkdate 2024 2 4) None;
        mkRow 3 "Acme" "Sale" (mkdate 2024 2 5) (Some (mkdate 2024 2 20))]
       3 2 10)
    (aggregate_by_vendor
       [mkRow 2 "Bolt" "Price Increase" (mkdate 2024 2 4) None;
        mkRow 3 "Acme" "Sale" (mkdate 2024 2 5) (Some (mkdate 2024 2 20));
        mkRow 1 "Acme" "Sale" (mkdate 2024 2 1) (Some (mkdate 2024 2 10))]
       3 2 10).
Proof.
  apply aggregate_order_independent.
  apply Permutation_cons_append
    with (l := [mkRow 2 "Bolt" "Price Increase" (mkdate 2024 2 4) None;
                mkRow 3 "Acme" "Sale" (mkdate 2024 2 5) (Some (mkdate 2024 2 20))]).
Defined.

(** C10: a vendor with at least one Sale row has a plan, and its
    [sale_real_end] is populated: it is the largest of what the Sale rows of
    the vendor offer, where a row offers its end date, or its start date when
    the end is absent.  A Sale row without an end date therefore contributes
    its start date as display end and as real end, while a Price Increase
    row without an end date leaves [pi_real_end] untouched. *)
Theorem sale_real_end_populated (rows : list RetailPromoRow) (x y z : Z)
  (ps : list VendorPlan) (v : string) :
  aggregate_by_vendor rows x y z = Ok ps ->
  (exists r, In r rows /\ vendor r = v /\ is_sale r = true) ->
  (exists w e, plan_of v ps = Some w
               /\ sale_real_end w = Some e
               /\ max_date (sale_ends v rows) = Some e)
  /\ (forall (r : RetailPromoRow) (x' y' z' : Z) (win : date * date),
         is_sale r = true -> end_date r = None ->
         compute_display_window r x' y' z' = Ok win ->
         snd win = start_date r)
  /\ (forall (w0 : VendorPlan) (r : RetailPromoRow) (ds de : date),
         end_date r = None ->
         sale_display_end (merge_sale w0 r ds de)
         = keep_max (sale_display_end w0) de
         /\ sale_real_end (merge_sale w0 r ds de)
            = keep_max (sale_real_end w0) (start_date r))
  /\ (forall (w0 : VendorPlan) (r : RetailPromoRow) (ds de : date),
         end_date r = None ->
         pi_real_end (merge_pi w0 r ds de) = pi_real_end w0).
Proof.
  intros A Hs. split; [|split; [|split]].
  - destruct (aggregate_plan_of _ _ _ _ _ A) as (d & L & _ & _ & G).
    assert (Pr : dict_get v d <> None).
    { apply (agg_loop_present _ _ _ _ _ _ v L). right.
      destruct Hs as (r & ? & ? & _). eauto. }
    destruct (dict_get v d) as [w|] eqn:Gv; [|congruence].
    assert (C : current d v = w) by (unfold current; rewrite Gv; reflexivity).
    pose proof (agg_loop_sale_real_end _ _ _ _ _ _ v L) as F.
    rewrite C in F. simpl in F. fold (max_date (sale_ends v rows)) in F.
    destruct (max_date (sale_ends v rows)) as [e|] eqn:M.
    + exists w, e. rewrite G. auto.
    + exfalso. unfold max_date in M. apply fold_keep_max_none in M as [_ M].
      exact (sale_ends_nonempty v rows Hs M).
  - intros r x' y' z' win S En. unfold is_sale in S. apply String.eqb_eq in S.
    rewrite (window_sale r x' y' z' S). unfold end_or_start. rewrite En.
    destruct (minus_days (start_date r) x'); simpl; [|discriminate].
    intros [= <-]. reflexivity.
  - intros w0 r ds de En. unfold merge_sale; simpl. rewrite En. auto.
  - intros w0 r ds de En. unfold merge_pi; simpl. rewrite En. reflexivity.
Qed.

(** A Sale row without an end date next to one that ends on 2024-02-17. *)
Lemma sale_real_end_populated_witness :
  exists w e,
    plan_of "Acme"
      [mkPlan "Acme" (Some (mkdate 2024 2 4)) (Some (mkdate 2024 2 20))
              None None (Some (mkdate 2024 2 7)) (Some (mkdate 2024 2 20))
              None None] = Some w
    /\ sale_real_end w = Some e
    /\ max_date
         (sale_ends "Acme"
            [mkRow 1 "Acme" "Sale" (mkdate 2024 2 7) (Some (mkdate 2024 2 17));
             mkRow 2 "Acme" "sale" (mkdate 2024 2 20) None]) = Some e.
Proof.
  refine (proj1 (sale_real_end_populated
                   [mkRow 1 "Acme" "Sale" (mkdate 2024 2 7) (Some (mkdate 2024 2 17));
                    mkRow 2 "Acme" "sale" (mkdate 2024 2 20) None]
                   3 2 10 _ "Acme" eq_refl _)).
  exists (mkRow 2 "Acme" "sale" (mkdate 2024 2 20) None).
  split; [right; left; reflexivity | split; reflexivity].
Defined.

(** Scenario D of the specification: two Sale rows of one vendor with the
    windows 02-01..02-10 and 02-05..02-20 merge into 02-01..02-20. *)
Example merged_sale_window :
  aggregate_by_vendor
    [mkRow 1 "Acme" "Sale" (mkdate 2024 2 1) (Some (mkdate 2024 2 10));
     mkRow 2 "Acme" "Sale" (mkdate 2024 2 5) (Some (mkdate 2024 2 20))] 0 0 0
  = Ok [mkPlan "Acme" (Some (mkdate 2024 2 1)) (Some (mkdate 2024 2 20)) None None
               (Some (mkdate 2024 2 1)) (Some (mkdate 2024 2 20)) None None].
Proof. reflexivity. Qed.

(* ===================================================================== *)
(** * The Sync Driver *)
(* ===================================================================== *)

Lemma should_exist_spec (ds de : option date) (today : date) :
  should_exist ds de today = true
  <-> exists s e, ds = Some s /\ de = Some e
                  /\ date_leb s today = true /\ date_leb today e = true.
Proof.
  unfold should_exist. split.
  - destruct ds as [s|], de as [e|]; try discriminate.
    intros H. apply andb_prop in H as [H1 H2]. exists s, e. auto.
  - intros (s & e & -> & -> & H1 & H2). rewrite H1, H2. reflexivity.
Qed.

Lemma sale_payload_keys (pid : string) (w : VendorPlan) (today : date)
  (m : Metafield) :
  In m (sale_payload pid w today) ->
  sale_should_exist w today = true
  /\ (key m = MF_SALE_START \/ key m = MF_SALE_END).
Proof.
  unfold sale_payload.
  destruct (sale_should_exist w today); [|contradiction].
  destruct (sale_real_start w) as [rs|]; [|contradiction].
  destruct (sale_real_end w) as [re|]; [|contradiction].
  intros [<-|[<-|[]]]; simpl; auto.
Qed.

Lemma pi_payload_keys (pid : string) (w : VendorPlan) (today : date)
  (m : Metafield) :
  In m (pi_payload pid w today) ->
  pi_should_exist w today = true
  /\ (key m = MF_PI_START \/ key m = MF_PI_END).
Proof.
  unfold pi_payload.
  destruct (pi_should_exist w today); [|contradiction].
  destruct (pi_real_start w) as [rs|]; [|contradiction].
  intros [<-|Hm]; [simpl; auto|].
  destruct (pi_real_end w) as [re|]; [|contradiction].
  destruct Hm as [<-|[]]. simpl. auto.
Qed.

(** C4: for each promotion type, [shouldExist] holds exactly when both
    display dates are present and displayStart <= today <= displayEnd.
    The statements that follow are about [build_payload], the list [main]
    hands to [metafields_set].  When [shouldExist] holds for Sale and both
    real dates are present, the payload starts with the real start and the
    real end of the Sale, and what follows are Price Increase entries.  When
    it holds for Price Increase and the real start is present, the payload
    ends with the real start of the Price Increase, followed by its real end
    if present, and what comes before are Sale entries.  Every value of the
    payload is the ISO form of one of the plan's real dates, so the display
    dates are not written; and the payload holds no entry of a promotion
    type for which [shouldExist] does not hold. *)
Theorem should_exist_and_real_dates (w : VendorPlan) (today : date) (pid : string) :
  (sale_should_exist w today = true
   <-> exists s e, sale_display_start w = Some s /\ sale_display_end w = Some e
                   /\ date_leb s today = true /\ date_leb today e = true)
  /\ (pi_should_exist w today = true
      <-> exists s e, pi_display_start w = Some s /\ pi_display_end w = Some e
                      /\ date_leb s today = true /\ date_leb today e = true)
  /\ (forall rs re,
         sale_should_exist w today = true ->
         sale_real_start w = Some rs -> sale_real_end w = Some re ->
         exists rest,
           build_payload pid w today
           = (mkMf pid MF_NAMESPACE MF_SALE_START "date" (isoformat rs)
              :: mkMf pid MF_NAMESPACE MF_SALE_END "date" (isoformat re)
              :: rest)
           /\ forall m, In m rest -> key m = MF_PI_START \/ key m = MF_PI_END)
  /\ (forall rs,
         pi_should_exist w today = true -> pi_real_start w = Some rs ->
         exists front,
           build_payload pid w today
           = (front
              ++ mkMf pid MF_NAMESPACE MF_PI_START "date" (isoformat rs)
                 :: match pi_real_end w with
                    | Some re => [mkMf pid MF_NAMESPACE MF_PI_END "date" (isoformat re)]
                    | None => []
                    end)%list
           /\ forall m, In m front -> key m = MF_SALE_START \/ key m = MF_SALE_END)
  /\ (forall m, In m (build_payload pid w today) ->
                exists d, value m = isoformat d
                          /\ (sale_real_start w = Some d \/ sale_real_end w = Some d
                              \/ pi_real_start w = Some d \/ pi_real_end w = Some d))
  /\ (forall m, In m (build_payload pid w today) ->
                (sale_should_exist w today = false ->
                 key m <> MF_SALE_START /\ key m <> MF_SALE_END)
                /\ (pi_should_exist w today = false ->
                    key m <> MF_PI_START /\ key m <> MF_PI_END)).
Proof.
  split; [apply should_exist_spec|]. split; [apply should_exist_spec|].
  split; [|split; [|split]].
  - intros rs re H S E. exists (pi_payload pid w today).
    unfold build_payload. split.
    + unfold sale_payload. rewrite H, S, E. reflexivity.
    + intros m Hm. apply (pi_payload_keys pid w today m Hm).
  - intros rs H S. exists (sale_payload pid w today).
    unfold build_payload. split.
    + unfold pi_payload. rewrite H, S. reflexivity.
    + intros m Hm. apply (sale_payload_keys pid w today m Hm).
  - intros m Hm. unfold build_payload in Hm. apply in_app_or in Hm.
    destruct Hm as [Hm|Hm].
    + unfold sale_payload in Hm.
      destruct (sale_should_exist w today); [|contradiction].
      destruct (sale_real_start w) as [rs|]; [|contradiction].
      destruct (sale_real_end w) as [re|]; [|contradiction].
      destruct Hm as [<-|[<-|[]]]; eexists; split; try reflexivity; auto.
    + unfold pi_payload in Hm.
      destruct (pi_should_exist w today); [|contradiction].
      destruct (pi_real_start w) as [rs|]; [|contradiction].
      destruct Hm as [<-|Hm]; [eexists; split; [reflexivity | auto]|].
      destruct (pi_real_end w) as [re|]; [|contradiction].
      destruct Hm as [<-|[]]. eexists; split; [reflexivity | auto].
  - intros m Hm. unfold build_payload in Hm. apply in_app_or in Hm.
    destruct Hm as [Hm|Hm].
    + apply sale_payload_keys in Hm as [S K]. split.
      * intros F. congruence.
      * intros _. destruct K as [-> | ->]; split; discriminate.
    + apply pi_payload_keys in Hm as [S K]. split.
      * intros _. destruct K as [-> | ->]; split; discriminate.
      * intros F. congruence.
Qed.

(** Scenario A of the specification: on 2024-02-05 the Sale of 2024-02-07
    to 2024-02-17, displayed from 2024-02-04, is written with its real
    dates, and nothing else is written. *)
Lemma should_exist_and_real_dates_witness :
  exists rest,
    build_payload "gid://shopify/Product/1"
      (mkPlan "Acme" (Some (mkdate 2024 2 4)) (Some (mkdate 2024 2 17)) None None
              (Some (mkdate 2024 2 7)) (Some (mkdate 2024 2 17)) None None)
      (mkdate 2024 2 5)
    = (mkMf "gid://shopify/Product/1" "custom" "promo_sale_start_date" "date"
            "2024-02-07"
       :: mkMf "gid://shopify/Product/1" "custom" "promo_sale_end_date" "date"
               "2024-02-17"
       :: rest)
    /\ forall m, In m rest -> key m = MF_PI_START \/ key m = MF_PI_END.
Proof.
  exact (proj1 (proj2 (proj2 (should_exist_and_real_dates
           (mkPlan "Acme" (Some (mkdate 2024 2 4)) (Some (mkdate 2024 2 17))
                   None None
                   (Some (mkdate 2024 2 7)) (Some (mkdate 2024 2 17)) None None)
           (mkdate 2024 2 5) "gid://shopify/Product/1")))
         (mkdate 2024 2 7) (mkdate 2024 2 17) eq_refl eq_refl eq_refl).
Defined.

(** In every plan the loop returns, a Price Increase display start comes
    with a real start. *)
Lemma aggregate_pi_start_paired (rows : list RetailPromoRow) (x y z : Z)
  (ps : list VendorPlan) (w : VendorPlan) :
  aggregate_by_vendor rows x y z = Ok ps -> In w ps ->
  pi_display_start w <> None -> pi_real_start w <> None.
Proof.
  intros A Hin. destruct (aggregate_plan_of _ _ _ _ _ A) as (d & L & -> & _ & _).
  apply in_map_iff in Hin as ([k w'] & <- & Hin). simpl.
  pose proof (agg_loop_invariant
                (fun w => pi_display_start w <> None -> pi_real_start w <> None)
                x y z) as Inv.
  assert (F : Forall (fun kw : string * VendorPlan =>
                        pi_display_start (snd kw) <> None ->
                        pi_real_start (snd kw) <> None) d).
  { apply (Inv ltac:(intros v0 H; exact H)
               ltac:(intros w0 r win H;
                     unfold apply_row;
                     destruct (String.eqb (normalize (entry_type r)) "sale");
                     [exact H|];
                     destruct (String.eqb (normalize (entry_type r)) "price increase");
                     [intros _; apply keep_min_some | exact H])
               rows [] d (Forall_nil _) L). }
  rewrite Forall_forall in F. apply (F _ Hin).
Qed.

(** C5: for a plan returned by the aggregator and a day on which the Price
    Increase window applies, the payload holds the Price Increase start
    field, and the end field exactly when [pi_real_end] is present.  When the
    input is a single Price Increase row without an end date the whole
    payload is the start field alone. *)
Theorem pi_payload_start_always_end_if_known (rows : list RetailPromoRow)
  (x y z : Z) (ps : list VendorPlan) (w : VendorPlan) (today : date)
  (pid : string) :
  aggregate_by_vendor rows x y z = Ok ps ->
  In w ps ->
  pi_should_exist w today = true ->
  (exists rs,
      pi_real_start w = Some rs
      /\ pi_payload pid w today
         = build_date_metafield pid MF_NAMESPACE MF_PI_START rs
           :: match pi_real_end w with
              | Some re => [build_date_metafield pid MF_NAMESPACE MF_PI_END re]
              | None => []
              end)
  /\ (exists m, In m (build_payload pid w today) /\ key m = MF_PI_START)
  /\ ((exists m, In m (build_payload pid w today) /\ key m = MF_PI_END)
      <-> pi_real_end w <> None)
  /\ (forall r, rows = [r] -> is_pi r = true -> end_date r = None ->
                build_payload pid w today
                = [build_date_metafield pid MF_NAMESPACE MF_PI_START (start_date r)]).
Proof.
  intros A Hin S.
  assert (D : pi_display_start w <> None).
  { apply should_exist_spec in S as (s & e & -> & _). discriminate. }
  pose proof (aggregate_pi_start_paired _ _ _ _ _ _ A Hin D) as R.
  destruct (pi_real_start w) as [rs|] eqn:Rs; [clear R|congruence].
  assert (P : pi_payload pid w today
              = build_date_metafield pid MF_NAMESPACE MF_PI_START rs
                :: match pi_real_end w with
                   | Some re => [build_date_metafield pid MF_NAMESPACE MF_PI_END re]
                   | None => []
                   end).
  { unfold pi_payload. rewrite S, Rs. reflexivity. }
  split; [exists rs; auto|]. split; [|split].
  - exists (build_date_metafield pid MF_NAMESPACE MF_PI_START rs). split; [|reflexivity].
    unfold build_payload. apply in_or_app. right. rewrite P. left. reflexivity.
  - unfold build_payload. rewrite P. split.
    + intros (m & Hm & Hk). apply in_app_or in Hm. destruct Hm as [Hm|Hm].
      * unfold sale_payload in Hm.
        destruct (sale_should_exist w today); [|contradiction].
        destruct (sale_real_start w); [|contradiction].
        destruct (sale_real_end w); [|contradiction].
        destruct Hm as [<-|[<-|[]]]; discriminate.
      * destruct Hm as [<-|Hm]; [discriminate|].
        destruct (pi_real_end w); [discriminate | contradiction].
    + intros H. destruct (pi_real_end w) as [re|]; [|congruence].
      exists (build_date_metafield pid MF_NAMESPACE MF_PI_END re).
      split; [|reflexivity]. apply in_or_app. right. right. left. reflexivity.
  - intros r -> Pi En. revert A. unfold aggregate_by_vendor. simpl.
    rewrite agg_step_unfold.
    destruct (compute_display_window r x y z) as [win|]; simpl; [|discriminate].
    intros [= <-]. destruct Hin as [<-|[]].
    rewrite apply_row_pi in * by assumption.
    unfold build_payload, sale_payload, pi_payload. rewrite S.
    unfold sale_should_exist; simpl. rewrite En. reflexivity.
Qed.

(** Scenario B of the specification: a Price Increase that starts on
    2024-02-04 without an end, Y = 2 and Z = 10, seen on 2024-02-10. *)
Lemma pi_payload_start_always_end_if_known_witness :
  build_payload "gid://shopify/Product/1"
    (mkPlan "Acme" None None (Some (mkdate 2024 2 2)) (Some (mkdate 2024 2 14))
            None None (Some (mkdate 2024 2 4)) None)
    (mkdate 2024 2 10)
  = [mkMf "gid://shopify/Product/1" "custom" "promo_pi_start_date" "date"
          "2024-02-04"].
Proof.
  exact (proj2 (proj2 (proj2 (pi_payload_start_always_end_if_known
           [mkRow 1 "Acme" "Price Increase" (mkdate 2024 2 4) None] 3 2 10
           _ _ (mkdate 2024 2 10) "gid://shopify/Product/1"
           eq_refl (or_introl eq_refl) eq_refl)))
         (mkRow 1 "Acme" "Price Increase" (mkdate 2024 2 4) None)
         eq_refl eq_refl eq_refl).
Defined.

(** ** Deleting fields *)

Lemma truthy_id_set_neq (out : dict (option string)) (k k' : string)
  (v : option string) :
  k' <> k -> truthy_id (dict_set k' v out) k = truthy_id out k.
Proof. intros N. unfold truthy_id. rewrite dict_get_set_neq by exact N. reflexivity. Qed.

Lemma truthy_id_set_none (out : dict (option string)) (k k' : string) :
  truthy_id out k = None -> truthy_id (dict_set k' None out) k = None.
Proof.
  intros H. unfold truthy_id in *. rewrite dict_get_set.
  destruct (String.eqb k' k); [reflexivity | exact H].
Qed.

Lemma none_for_missing (keys : list string) (k : string) :
  truthy_id (none_for keys) k = None.
Proof.
  unfold none_for.
  assert (G : forall out, truthy_id out k = None ->
                          truthy_id (fold_left (fun o k0 => dict_set k0 None o) keys out) k
                          = None).
  { induction keys as [|k0 keys IH]; intros out H; simpl; [exact H|].
    apply IH, truthy_id_set_none, H. }
  apply G. reflexivity.
Qed.

Lemma fill_ids_missing (keys : list string) (mfs : list (option MfNode))
  (out : dict (option string)) :
  absent_on_target keys mfs -> all_missing out keys ->
  all_missing (fill_ids mfs out) keys.
Proof.
  unfold fill_ids. revert out.
  induction mfs as [|mf mfs IH]; intros out A M; simpl; [exact M|].
  apply IH.
  - intros n Hn. apply A. right. exact Hn.
  - destruct mf as [n|]; [|exact M].
    destruct (dict_get (mf_key n) out); [|exact M].
    intros k Hk. rewrite truthy_id_set_neq; [apply M, Hk|].
    intros E. apply (A n (or_introl eq_refl)). rewrite E. exact Hk.
Qed.

Section Deletion.

Variable world : Type.
Variable gql_product_metafields :
  string -> list (string * string) -> world -> result (list (option MfNode)).
Variable gql_metafield_delete :
  string -> world -> world * result (list string).

(** The loop sends no delete for a key that is looked up as missing. *)
Lemma delete_loop_missing (id_map : dict (option string)) (keys : list string)
  (s : world) (n : nat) :
  all_missing id_map keys ->
  delete_loop world gql_metafield_delete id_map keys s n = (s, n, Ok tt).
Proof.
  induction keys as [|k keys IH]; intros M; simpl; [reflexivity|].
  rewrite (M k (or_introl eq_refl)). apply IH.
  intros k' Hk'. apply M. right. exact Hk'.
Qed.

(** C6: when [shouldExist] does not hold for a promotion type, both its
    fields are in the list of keys to delete; the list is computed from the
    plan and the day alone, not from the state of the target.  When the
    target answers that none of these fields exists, the delete phase sends
    no delete call: the store, the counters and the error log are left as
    they were, whatever a delete call would have answered. *)
Theorem out_of_window_fields_deleted (w : VendorPlan) (today : date) :
  (sale_should_exist w today = false ->
   In MF_SALE_START (keys_to_delete w today)
   /\ In MF_SALE_END (keys_to_delete w today))
  /\ (pi_should_exist w today = false ->
      In MF_PI_START (keys_to_delete w today)
      /\ In MF_PI_END (keys_to_delete w today))
  /\ (forall (pid : string) (st : RunState world) (mfs : list (option MfNode)),
         gql_product_metafields pid
           (map (fun k => (MF_NAMESPACE, k)) (keys_to_delete w today)) (shop st)
         = Ok mfs ->
         absent_on_target (keys_to_delete w today) mfs ->
         delete_phase world gql_product_metafields gql_metafield_delete
                      pid (keys_to_delete w today) st
         = st).
Proof.
  split; [|split].
  - intros H. unfold keys_to_delete, sale_keys_to_delete. rewrite H. simpl. auto.
  - intros H. unfold keys_to_delete, pi_keys_to_delete. rewrite H. simpl.
    split; apply in_or_app; right; simpl; auto.
  - intros pid st mfs Q A. unfold delete_phase.
    destruct (keys_to_delete w today) as [|k keys] eqn:K; [reflexivity|].
    unfold get_metafield_ids. rewrite Q. simpl Py.bind. cbv iota beta.
    rewrite delete_loop_missing.
    + destruct st; reflexivity.
    + apply fill_ids_missing; [exact A|].
      intros k' _. apply none_for_missing.
Qed.

End Deletion.

(** Scenario C of the specification: on 2024-02-18 the Sale displayed from
    2024-02-04 to 2024-02-17 is over.  Both Sale fields (and both Price
    Increase fields) are queued, and on a product that never had them the
    delete phase changes nothing, although every delete call would fail. *)
Lemma out_of_window_fields_deleted_witness :
  (In MF_SALE_START
      (keys_to_delete
         (mkPlan "Acme" (Some (mkdate 2024 2 4)) (Some (mkdate 2024 2 17)) None None
                 (Some (mkdate 2024 2 7)) (Some (mkdate 2024 2 17)) None None)
         (mkdate 2024 2 18))
   /\ In MF_SALE_END
         (keys_to_delete
            (mkPlan "Acme" (Some (mkdate 2024 2 4)) (Some (mkdate 2024 2 17)) None None
                    (Some (mkdate 2024 2 7)) (Some (mkdate 2024 2 17)) None None)
            (mkdate 2024 2 18)))
  /\ delete_phase (list MfNode)
       (fun _ idents _ => Ok (map (fun _ => None) idents))
       (fun _ s => (s, Raise RuntimeError))
       "gid://shopify/Product/1"
       (keys_to_delete
          (mkPlan "Acme" (Some (mkdate 2024 2 4)) (Some (mkdate 2024 2 17)) None None
                  (Some (mkdate 2024 2 7)) (Some (mkdate 2024 2 17)) None None)
          (mkdate 2024 2 18))
       (mkState [] 0%nat 0%nat [])
     = mkState [] 0%nat 0%nat [].
Proof.
  pose proof (out_of_window_fields_deleted (list MfNode)
                (fun _ idents _ => Ok (map (fun _ => None) idents))
                (fun _ s => (s, Raise RuntimeError))
                (mkPlan "Acme" (Some (mkdate 2024 2 4)) (Some (mkdate 2024 2 17))
                        None None
                        (Some (mkdate 2024 2 7)) (Some (mkdate 2024 2 17)) None None)
                (mkdate 2024 2 18)) as (S & _ & D).
  split; [exact (S eq_refl)|].
  apply (D "gid://shopify/Product/1" (mkState [] 0%nat 0%nat []) _ eq_refl).
  intros n Hn. simpl in Hn.
  repeat (destruct Hn as [Hn|Hn]; [discriminate|]). contradiction.
Defined.

(* ===================================================================== *)
(** * Reading the rows *)
(* ===================================================================== *)

(** C8, the claim as written fails: the first fetched row carries the
    start date "not a date", which no format accepts; the reader raises
    nothing, drops that row and returns the row that follows.  The same
    happens for a start date cell that holds an integer. *)
Lemma unparseable_start_is_not_fatal :
  to_date_only rejecting_strptime rejecting_fromisoformat (VStr "not a date") = None
  /\ read_rows rejecting_strptime rejecting_fromisoformat
       [mkRaw (VInt 1) (VStr "Acme") (VStr "Sale") (VStr "not a date") VNone;
        mkRaw (VInt 2) (VStr "Bolt") (VStr "Sale")
              (VDate (mkdate 2024 2 7)) (VDate (mkdate 2024 2 17))]
     = Ok [mkRow 2 "Bolt" "Sale" (mkdate 2024 2 7) (Some (mkdate 2024 2 17))]
  /\ read_rows rejecting_strptime rejecting_fromisoformat
       [mkRaw (VInt 1) (VStr "Acme") (VStr "Sale") (VInt 20240207) VNone;
        mkRaw (VInt 2) (VStr "Bolt") (VStr "Sale")
              (VDate (mkdate 2024 2 7)) (VDate (mkdate 2024 2 17))]
     = Ok [mkRow 2 "Bolt" "Sale" (mkdate 2024 2 7) (Some (mkdate 2024 2 17))].
Proof. repeat split. Qed.

Section ReaderFacts.

Variable strptime : string -> string -> option date.
Variable fromisoformat : string -> option date.

Local Abbreviation to_date := (to_date_only strptime fromisoformat).
Local Abbreviation read1 := (read_row strptime fromisoformat).
Local Abbreviation readN := (read_rows strptime fromisoformat).

Lemma text_cell_typed (v : dbvalue) :
  text_or_null v = true -> exists s, text_cell v = Ok s.
Proof. destruct v; simpl; try discriminate; eauto. Qed.

Lemma read_row_typed (r : RawRow) :
  typed_row r = true -> exists o, read1 r = Ok o.
Proof.
  unfold typed_row. intros H.
  apply andb_prop in H as [H Hi]. apply andb_prop in H as [Hv Ht].
  unfold read_row.
  destruct (text_cell_typed _ Hv) as (v & ->).
  destruct (text_cell_typed _ Ht) as (t & ->). simpl.
  destruct (is_empty v || is_empty t)%bool; [eauto|].
  destruct (to_date (raw_Date_of_Start r)); [|eauto].
  destruct (raw_ID r); try discriminate. simpl. eauto.
Qed.

Lemma read_row_no_start (r : RawRow) :
  typed_row r = true -> to_date (raw_Date_of_Start r) = None ->
  read1 r = Ok None.
Proof.
  unfold typed_row. intros H N.
  apply andb_prop in H as [H Hi]. apply andb_prop in H as [Hv Ht].
  unfold read_row.
  destruct (text_cell_typed _ Hv) as (v & ->).
  destruct (text_cell_typed _ Ht) as (t & ->). simpl.
  rewrite N. destruct (is_empty v || is_empty t)%bool; reflexivity.
Qed.

Lemma to_date_unparseable (text : string) :
  (forall fmt, strptime (strip text) fmt = None) ->
  fromisoformat (remove_char "Z" (strip text)) = None ->
  to_date (VStr text) = None.
Proof.
  intros F I. simpl. unfold date_formats. simpl. rewrite !F. exact I.
Qed.

Lemma read_row_kept (r : RawRow) (v t : string) (s : date) (i : Z) :
  text_cell (raw_Vendor r) = Ok v -> is_empty v = false ->
  text_cell (raw_EntryType r) = Ok t -> is_empty t = false ->
  to_date (raw_Date_of_Start r) = Some s ->
  int_cell (raw_ID r) = Ok i ->
  read1 r = Ok (Some (mkRow i v t s (to_date (raw_Date_of_End r)))).
Proof.
  intros Hv Ev Ht Et Hs Hi. unfold read_row.
  rewrite Hv, Ht. simpl. rewrite Ev, Et, Hs. simpl. rewrite Hi. reflexivity.
Qed.

(** C8 (amended): a date value that cannot be parsed is not fatal.  On
    rows whose text columns hold text or NULL and whose ID is an integer,
    reading returns a list of rows and raises nothing, whatever the date
    cells hold.
    - A text that none of the three formats accepts and that
      [fromisoformat] refuses is read as no date; nothing is raised.
    - A row whose start date cannot be parsed is skipped, and the rows after
      it are read as if it were not there.
    - A row with a vendor, an entry type and a start date whose end date
      cannot be parsed is kept: it is returned, with its end date absent, in
      front of the rows read after it.
    - In any row that is kept, the dates are what [to_date_only] makes of the
      two date cells. *)
Theorem unparseable_dates_are_skipped (raw : list RawRow) :
  Forall (fun r => typed_row r = true) raw ->
  (exists rows, readN raw = Ok rows)
  /\ (forall text,
         (forall fmt, strptime (strip text) fmt = None) ->
         fromisoformat (remove_char "Z" (strip text)) = None ->
         to_date (VStr text) = None)
  /\ (forall r rest,
         typed_row r = true -> to_date (raw_Date_of_Start r) = None ->
         readN (r :: rest) = readN rest)
  /\ (forall r rest v t s i,
         text_cell (raw_Vendor r) = Ok v -> is_empty v = false ->
         text_cell (raw_EntryType r) = Ok t -> is_empty t = false ->
         to_date (raw_Date_of_Start r) = Some s ->
         int_cell (raw_ID r) = Ok i ->
         to_date (raw_Date_of_End r) = None ->
         read1 r = Ok (Some (mkRow i v t s None))
         /\ readN (r :: rest)
            = (rows <- readN rest ;; Ok (mkRow i v t s None :: rows)))
  /\ (forall r row,
         read1 r = Ok (Some row) ->
         to_date (raw_Date_of_Start r) = Some (start_date row)
         /\ end_date row = to_date (raw_Date_of_End r)).
Proof.
  intros F. split; [|split; [|split; [|split]]].
  - induction F as [|r raw Hr F IH]; simpl; [eauto|].
    destruct (read_row_typed r Hr) as (o & ->). simpl.
    destruct IH as (rows & ->). simpl. eauto.
  - apply to_date_unparseable.
  - intros r rest T N. simpl. rewrite (read_row_no_start r T N). simpl.
    destruct (readN rest); reflexivity.
  - intros r rest v t s i Hv Ev Ht Et Hs Hi He.
    pose proof (read_row_kept r v t s i Hv Ev Ht Et Hs Hi) as K.
    rewrite He in K. split; [exact K|].
    simpl. rewrite K. reflexivity.
  - intros r row. unfold read_row.
    destruct (text_cell (raw_Vendor r)) as [v|]; simpl; [|discriminate].
    destruct (text_cell (raw_EntryType r)) as [t|]; simpl; [|discriminate].
    destruct (is_empty v || is_empty t)%bool; [discriminate|].
    destruct (to_date (raw_Date_of_Start r)) as [s|]; [|discriminate].
    destruct (int_cell (raw_ID r)); simpl; [|discriminate].
    intros [= <-]. simpl. auto.
Qed.

End ReaderFacts.

(** Three fetched rows: one whose start date cannot be parsed, one whose
    end date cannot be parsed, one that is fine.  The first is skipped, the
    second is returned without an end date. *)
Lemma unparseable_dates_are_skipped_witness :
  read_rows rejecting_strptime rejecting_fromisoformat
    [mkRaw (VInt 1) (VStr "Acme") (VStr "Sale") (VStr "not a date") VNone;
     mkRaw (VInt 2) (VStr "Bolt") (VStr "Price Increase")
           (VDate (mkdate 2024 2 4)) (VStr "soon");
     mkRaw (VInt 3) (VStr "Core") (VStr "Sale")
           (VDate (mkdate 2024 2 7)) (VDate (mkdate 2024 2 17))]
  = Ok [mkRow 2 "Bolt" "Price Increase" (mkdate 2024 2 4) None;
        mkRow 3 "Core" "Sale" (mkdate 2024 2 7) (Some (mkdate 2024 2 17))].
Proof.
  pose proof (unparseable_dates_are_skipped
                rejecting_strptime rejecting_fromisoformat
                [mkRaw (VInt 1) (VStr "Acme") (VStr "Sale") (VStr "not a date") VNone;
                 mkRaw (VInt 2) (VStr "Bolt") (VStr "Price Increase")
                       (VDate (mkdate 2024 2 4)) (VStr "soon");
                 mkRaw (VInt 3) (VStr "Core") (VStr "Sale")
                       (VDate (mkdate 2024 2 7)) (VDate (mkdate 2024 2 17))]
                ltac:(repeat constructor)) as (_ & _ & Skip & Keep & _).
  exact (eq_trans
           (Skip (mkRaw (VInt 1) (VStr "Acme") (VStr "Sale") (VStr "not a date") VNone)
                 _ eq_refl eq_refl)
           (proj2 (Keep (mkRaw (VInt 2) (VStr "Bolt") (VStr "Price Increase")
                               (VDate (mkdate 2024 2 4)) (VStr "soon"))
                        [mkRaw (VInt 3) (VStr "Core") (VStr "Sale")
                               (VDate (mkdate 2024 2 7)) (VDate (mkdate 2024 2 17))]
                        "Bolt" "Price Increase" (mkdate 2024 2 4) 2
                        eq_refl eq_refl eq_refl eq_refl eq_refl eq_refl eq_refl))).
Defined.

(* ===================================================================== *)
(** * The Date Normalizer *)
(* ===================================================================== *)

Lemma contains_app (c sep : ascii) (a b : string) :
  contains c (a ++ String sep b)
  = (contains c a || Ascii.eqb sep c || contains c b)%bool.
Proof.
  induction a as [|x a IH]; simpl; [reflexivity|].
  rewrite IH. rewrite !orb_assoc. reflexivity.
Qed.

Lemma split_on_nonempty (sep : ascii) (s : string) : split_on sep s <> [].
Proof.
  destruct s as [|c s]; simpl; [discriminate|].
  destruct (Ascii.eqb c sep); [discriminate|].
  destruct (split_on sep s); discriminate.
Qed.

Lemma split_on_one (sep : ascii) (s p : string) :
  split_on sep s = [p] -> s = p /\ contains sep s = false.
Proof.
  revert p. induction s as [|c s IH]; intros p; simpl.
  - intros [= <-]. auto.
  - destruct (Ascii.eqb c sep) eqn:E.
    + intros H. injection H as _ H. exfalso. exact (split_on_nonempty _ _ H).
    + destruct (split_on sep s) as [|w ws] eqn:S.
      * exfalso. exact (split_on_nonempty _ _ S).
      * intros H. injection H as <- ->.
        destruct (IH w eq_refl) as [-> C]. rewrite C. auto.
Qed.

(** A text that splits in two is its two parts around the separator. *)
Lemma split_on_two (sep : ascii) (s p0 p1 : string) :
  split_on sep s = [p0; p1] ->
  s = (p0 ++ String sep p1)%string
  /\ contains sep p0 = false /\ contains sep p1 = false
  /\ contains sep s = true.
Proof.
  revert p0. induction s as [|c s IH]; intros p0; simpl; [discriminate|].
  destruct (Ascii.eqb c sep) eqn:E.
  - intros H. injection H as <- H. apply split_on_one in H as [-> C].
    apply Ascii.eqb_eq in E. subst c. simpl. auto.
  - destruct (split_on sep s) as [|w ws] eqn:S.
    + intros H. discriminate.
    + intros H. injection H as <- ->.
      destruct (IH w eq_refl) as (-> & C0 & C1 & C).
      simpl. rewrite E, C0, C. auto.
Qed.

(** *** What [int()] accepts *)

Lemma all_chars_lstrip (p q : ascii -> bool) (s : string) :
  (forall c, p c = true -> q c = true) ->
  all_chars q (lstrip_by p s) = true -> all_chars q s = true.
Proof.
  intros PQ. induction s as [|c s IH]; simpl; [auto|].
  destruct (p c) eqn:E; [|auto].
  intros H. rewrite (PQ c E), (IH H). reflexivity.
Qed.

Lemma all_chars_rstrip (p q : ascii -> bool) (s : string) :
  (forall c, p c = true -> q c = true) ->
  all_chars q (rstrip_by p s) = true -> all_chars q s = true.
Proof.
  intros PQ. induction s as [|c s IH]; simpl; [auto|].
  destruct (p c) eqn:E; simpl.
  - destruct (is_empty (rstrip_by p s)) eqn:Em.
    + intros _. rewrite (PQ c E). simpl. apply IH.
      destruct (rstrip_by p s); [reflexivity | discriminate].
    + simpl. intros H. apply andb_prop in H as [-> H]. auto.
  - intros H. apply andb_prop in H as [-> H]. auto.
Qed.

Lemma int_digits_chars (s : string) (acc : Z) (b : bool) (z : Z) :
  int_digits s acc b = Some z -> all_chars int_char s = true.
Proof.
  revert acc b. induction s as [|c s IH]; intros acc b; simpl; [reflexivity|].
  unfold int_char at 1.
  destruct (is_digit c) eqn:D.
  - intros H. rewrite (IH _ _ H), orb_true_r. reflexivity.
  - destruct (Ascii.eqb c "_") eqn:U; [|discriminate].
    destruct b; [|discriminate].
    intros H. rewrite (IH _ _ H). rewrite !orb_true_r. reflexivity.
Qed.

(** A text [int()] accepts is a literal, whatever its length. *)
Lemma int_of_str_literal (s : string) (z : Z) :
  int_of_str s = Ok z ->
  match match strip_by is_int_space s with
        | String "-" r => option_map Z.opp (int_digits r 0 false)
        | String "+" r => int_digits r 0 false
        | _ => int_digits (strip_by is_int_space s) 0 false
        end with
  | Some z0 => Ok z0
  | None => Raise ValueError
  end = Ok z
  /\ count_digits (strip_by is_int_space s) <= MAX_STR_DIGITS.
Proof.
  unfold int_of_str. cbv zeta.
  match goal with
  | |- context [match ?x with Some _ => _ | None => _ end] => destruct x as [z0|]
  end; [|discriminate].
  destruct (Z.ltb_spec MAX_STR_DIGITS (count_digits (strip_by is_int_space s)))
    as [L|L]; [discriminate|].
  intros E. split; [exact E | exact L].
Qed.

Lemma int_of_str_chars (s : string) (z : Z) :
  int_of_str s = Ok z -> all_chars int_char s = true.
Proof.
  intros H0. apply int_of_str_literal in H0 as [H0 _]. revert H0.
  unfold strip_by. intros H.
  assert (PQ : forall c, is_int_space c = true -> int_char c = true).
  { intros c E. unfold int_char. rewrite E. reflexivity. }
  apply (all_chars_lstrip is_int_space int_char s PQ).
  apply (all_chars_rstrip is_int_space int_char _ PQ).
  destruct (rstrip_by is_int_space (lstrip_by is_int_space s)) as [|c body] eqn:B.
  - reflexivity.
  - assert (G : forall r acc b, (exists z', int_digits r acc b = Some z') ->
                                 all_chars int_char r = true).
    { intros r acc b (z' & Hz). eapply int_digits_chars, Hz. }
    assert (Sign : Ascii.eqb c "-" = true \/ Ascii.eqb c "+" = true ->
                   (exists z', int_digits body 0 false = Some z') ->
                   all_chars int_char (String c body) = true).
    { intros Hc Hb. simpl. rewrite (G _ _ _ Hb). unfold int_char.
      destruct Hc as [-> | ->]; rewrite ?orb_true_r; reflexivity. }
    destruct (Ascii.eqb c "-") eqn:Em.
    + apply Ascii.eqb_eq in Em. subst c. apply Sign; [auto|].
      destruct (int_digits body 0 false); [eauto | discriminate].
    + destruct (Ascii.eqb c "+") eqn:Ep.
      * apply Ascii.eqb_eq in Ep. subst c. apply Sign; [auto|].
        destruct (int_digits body 0 false); [eauto | discriminate].
      * assert (R : match int_digits (String c body) 0 false with
                    | Some z0 => Ok z0
                    | None => Raise ValueError
                    end = Ok z).
        { revert H. destruct c as [[] [] [] [] [] [] [] []];
            try discriminate; auto. }
        destruct (int_digits (String c body) 0 false) eqn:I; [|discriminate].
        eapply int_digits_chars, I.
Qed.

Lemma all_chars_contains (q : ascii -> bool) (c : ascii) (s : string) :
  q c = false -> all_chars q s = true -> contains c s = false.
Proof.
  intros Q. induction s as [|x s IH]; simpl; [reflexivity|].
  intros H. apply andb_prop in H as [Hx H]. rewrite (IH H), orb_false_r.
  apply Ascii.eqb_neq. intros ->. congruence.
Qed.

(** A text accepted by [int()] holds no dot and no slash. *)
Lemma int_of_str_no_dot_slash (s : string) (z : Z) :
  int_of_str s = Ok z -> contains "." s = false /\ contains "/" s = false.
Proof.
  intros H. apply int_of_str_chars in H.
  split; apply (all_chars_contains int_char); auto.
Qed.

(** *** The loop over the separators *)

Lemma try_separators_split (year : Z) (s : string) (seps : list ascii) :
  try_separators year s seps
  = (md <- split_md s seps ;;
     dt <- date_new year (fst md) (snd md) ;;
     Ok (isoformat dt)).
Proof.
  induction seps as [|sep seps IH]; simpl; [reflexivity|].
  destruct (contains sep s); [|exact IH].
  destruct (split_on sep s) as [|p0 [|p1 [|p2 l]]]; try exact IH.
  destruct (int_of_str p0) as [m|]; simpl; [|reflexivity].
  destruct (int_of_str p1) as [d|]; simpl; reflexivity.
Qed.

Lemma days_in_month_le (y m : Z) : days_in_month y m <= 31.
Proof.
  unfold days_in_month.
  destruct ((m =? 2) && is_leap y)%bool; [lia|].
  destruct m as [|p|p]; simpl; try lia.
  do 4 (destruct p as [p|p|]; simpl; try lia).
Qed.

Lemma date_new_valid (y m d : Z) :
  valid_ymd y m d = true -> date_new y m d = Ok (mkdate y m d).
Proof.
  intros V. unfold date_new. rewrite V.
  pose proof (valid_date_fields (mkdate y m d) V) as (Hy & Hm & Hd).
  simpl in *. pose proof (days_in_month_le y m) as L.
  unfold fits_c_int.
  replace ((-2147483648 <=? y) && (y <=? 2147483647))%bool with true
    by (symmetry; apply andb_true_intro; split; apply Z.leb_le; lia).
  replace ((-2147483648 <=? m) && (m <=? 2147483647))%bool with true
    by (symmetry; apply andb_true_intro; split; apply Z.leb_le; lia).
  replace ((-2147483648 <=? d) && (d <=? 2147483647))%bool with true
    by (symmetry; apply andb_true_intro; split; apply Z.leb_le; lia).
  reflexivity.
Qed.

Lemma date_new_ok (y m d : Z) (dt : date) :
  date_new y m d = Ok dt -> valid_ymd y m d = true /\ dt = mkdate y m d.
Proof.
  unfold date_new.
  destruct (negb (fits_c_int y && fits_c_int m && fits_c_int d)); [discriminate|].
  destruct (valid_ymd y m d); [|discriminate].
  intros [= <-]. auto.
Qed.

(** The loop reads a month and a day only where the text splits in two
    integer parts on a recognised separator. *)
Lemma split_md_ok (t : string) (seps : list ascii) (m d : Z) :
  split_md t seps = Ok (m, d) ->
  exists sep p0 p1,
    In sep seps /\ split_on sep t = [p0; p1]
    /\ int_of_str p0 = Ok m /\ int_of_str p1 = Ok d.
Proof.
  induction seps as [|sep seps IH]; simpl; [discriminate|].
  assert (Rest : split_md t seps = Ok (m, d) ->
                 exists sep0 p0 p1,
                   (sep = sep0 \/ In sep0 seps) /\ split_on sep0 t = [p0; p1]
                   /\ int_of_str p0 = Ok m /\ int_of_str p1 = Ok d).
  { intros H. destruct (IH H) as (s0 & p0 & p1 & ? & ?). exists s0, p0, p1. auto. }
  destruct (contains sep t); [|exact Rest].
  destruct (split_on sep t) as [|p0 [|p1 [|p2 l]]] eqn:S; try exact Rest.
  destruct (int_of_str p0) as [m'|] eqn:I0; simpl; [|discriminate].
  destruct (int_of_str p1) as [d'|] eqn:I1; simpl; [|discriminate].
  intros [= <- <-]. exists sep, p0, p1. auto.
Qed.

(** Conversely, two integer parts around a recognised separator are what the
    loop reads: a separator tried earlier cannot occur in them. *)
Lemma split_md_complete (t : string) (sep : ascii) (p0 p1 : string) (m d : Z) :
  In sep separators -> split_on sep t = [p0; p1] ->
  int_of_str p0 = Ok m -> int_of_str p1 = Ok d ->
  split_md t separators = Ok (m, d).
Proof.
  intros Hin S I0 I1.
  destruct (split_on_two _ _ _ _ S) as (E & _ & _ & C).
  destruct (int_of_str_no_dot_slash _ _ I0) as (D0 & S0).
  destruct (int_of_str_no_dot_slash _ _ I1) as (D1 & S1).
  unfold separators in *. simpl in Hin.
  destruct Hin as [<-|[<-|[<-|[]]]]; simpl.
  - rewrite C, S, I0, I1. reflexivity.
  - assert (Cd : contains "." t = false).
    { rewrite E, contains_app, D0, D1. reflexivity. }
    rewrite Cd, C, S, I0, I1. reflexivity.
  - assert (Cd : contains "." t = false).
    { rewrite E, contains_app, D0, D1. reflexivity. }
    assert (Cs : contains "/" t = false).
    { rewrite E, contains_app, S0, S1. reflexivity. }
    rewrite Cd, Cs, C, S, I0, I1. reflexivity.
Qed.

Lemma parse_mm_dd_unfold (ny : Z) (s : option string) (dy : option Z) :
  parse_mm_dd ny s dy
  = let t := strip (match s with Some s => s | None => EmptyString end) in
    if is_empty t then Raise ValueError
    else if already_iso t then Ok t
    else md <- split_md t separators ;;
         dt <- date_new (pick_year ny dy) (fst md) (snd md) ;;
         Ok (isoformat dt).
Proof.
  unfold parse_mm_dd. cbv zeta.
  rewrite try_separators_split. reflexivity.
Qed.

Lemma parse_mm_dd_well_formed (ny : Z) (s : option string) (dy : option Z) :
  let t := strip (match s with Some s => s | None => EmptyString end) in
  is_empty t = false -> already_iso t = false ->
  (well_formed_md (pick_year ny dy) t <-> returns (parse_mm_dd ny s dy)).
Proof.
  intros t Ne Ni. rewrite parse_mm_dd_unfold. fold t. cbv zeta.
  rewrite Ne, Ni. split.
  - intros (sep & p0 & p1 & m & d & Hin & S & I0 & I1 & V).
    rewrite (split_md_complete t sep p0 p1 m d Hin S I0 I1). simpl.
    rewrite (date_new_valid _ _ _ V). simpl. eexists. reflexivity.
  - intros (out & H).
    destruct (split_md t separators) as [[m d]|] eqn:M; simpl in H; [|discriminate].
    destruct (date_new (pick_year ny dy) m d) as [dt|] eqn:D; simpl in H;
      [|discriminate].
    apply date_new_ok in D as [V _].
    destruct (split_md_ok _ _ _ _ M) as (sep & p0 & p1 & Hin & S & I0 & I1).
    exists sep, p0, p1, m, d. auto.
Qed.

Lemma raises_not_returns {A} (r : result A) : raises r <-> ~ returns r.
Proof.
  unfold raises, returns. destruct r; split.
  - intros (e & H). discriminate.
  - intros H. exfalso. apply H. eauto.
  - intros _ (a & H). discriminate.
  - intros _. eauto.
Qed.

Lemma is_empty_eq (s : string) : is_empty s = true <-> s = EmptyString.
Proof. destruct s; simpl; split; congruence. Qed.

(** *** Texts in ISO form *)

Lemma digit_not_space (c : ascii) : is_digit c = true -> is_space c = false.
Proof. destruct c as [[] [] [] [] [] [] [] []]; vm_compute; congruence. Qed.

Lemma iso_pattern_facts (s : string) :
  iso_pattern s = true ->
  strip s = s /\ is_empty s = false /\ already_iso s = true.
Proof.
  unfold iso_pattern.
  destruct s as [|y1 [|y2 [|y3 [|y4 [|h1 [|m1 [|m2 [|h2 [|d1 [|d2 [|x s]]]]]]]]]]];
    try discriminate.
  intros H.
  do 9 (apply andb_prop in H; destruct H as [H ?]).
  repeat match goal with
         | X : Ascii.eqb _ _ = true |- _ => apply Ascii.eqb_eq in X; subst
         end.
  repeat match goal with
         | X : is_digit _ = true |- _ => apply digit_not_space in X
         end.
  split; [|split; reflexivity].
  unfold strip, strip_by. simpl lstrip_by. rewrite H. simpl rstrip_by.
  repeat match goal with
         | X : is_space _ = false |- _ => rewrite X; clear X
         end.
  reflexivity.
Qed.

Lemma iso_pattern_parts (y m d : string) :
  digits_n 4 y = true -> digits_n 2 m = true -> digits_n 2 d = true ->
  iso_pattern (y ++ "-" ++ m ++ "-" ++ d) = true.
Proof.
  unfold digits_n. intros Hy Hm Hd.
  apply andb_prop in Hy as [Ly Dy].
  apply andb_prop in Hm as [Lm Dm].
  apply andb_prop in Hd as [Ld Dd].
  destruct y as [|y1 [|y2 [|y3 [|y4 [|x y]]]]]; try discriminate.
  destruct m as [|m1 [|m2 [|x m]]]; try discriminate.
  destruct d as [|d1 [|d2 [|x d]]]; try discriminate.
  simpl in *.
  do 4 (apply andb_prop in Dy; destruct Dy as [? Dy]).
  do 2 (apply andb_prop in Dm; destruct Dm as [? Dm]).
  do 2 (apply andb_prop in Dd; destruct Dd as [? Dd]).
  repeat match goal with
         | X : is_digit _ = true |- _ => rewrite X; clear X
         end.
  reflexivity.
Qed.

Lemma zfill4_digits (y : Z) : 1 <= y <= 9999 -> digits_n 4 (zfill 4 y) = true.
Proof.
  intros H.
  assert (A : forallb (fun y => digits_n 4 (zfill 4 y))
                       (Z_range 1 (Z.to_nat 9999)) = true)
    by (vm_compute; reflexivity).
  apply (forallb_range _ 1 (Z.to_nat 9999) A). rewrite Z2Nat.id; lia.
Qed.

Lemma zfill2_digits (n : Z) : 1 <= n <= 31 -> digits_n 2 (zfill 2 n) = true.
Proof.
  intros H.
  assert (A : forallb (fun n => digits_n 2 (zfill 2 n)) (Z_range 1 31) = true)
    by (vm_compute; reflexivity).
  apply (forallb_range _ 1 31 A). lia.
Qed.

Lemma isoformat_iso_pattern (y m d : Z) :
  valid_ymd y m d = true -> iso_pattern (isoformat (mkdate y m d)) = true.
Proof.
  intros V. pose proof (valid_date_fields (mkdate y m d) V) as (Hy & Hm & Hd).
  simpl in *. pose proof (days_in_month_le y m) as L.
  unfold isoformat; simpl year; simpl month; simpl day.
  apply iso_pattern_parts;
    [apply zfill4_digits | apply zfill2_digits | apply zfill2_digits]; lia.
Qed.

(** *** Month and day texts are read back *)

Lemma md_text_ok_all (sep : ascii) (m d : Z) :
  In sep separators -> 1 <= m <= 12 -> 1 <= d <= 31 ->
  md_text_ok str_of_Z sep m d = true /\ md_text_ok (zfill 2) sep m d = true.
Proof.
  intros Hs Hm Hd.
  assert (A : forall render,
             render = str_of_Z \/ render = zfill 2 ->
             forallb (fun sep =>
                        forallb (fun m =>
                                   forallb (fun d => md_text_ok render sep m d)
                                           (Z_range 1 31))
                                (Z_range 1 12))
                     separators = true)
    by (intros render [-> | ->]; vm_compute; reflexivity).
  split.
  - pose proof (A str_of_Z (or_introl eq_refl)) as B.
    rewrite forallb_forall in B. specialize (B sep Hs).
    pose proof (forallb_range _ 1 12 B m ltac:(lia)) as C.
    apply (forallb_range _ 1 31 C d). lia.
  - pose proof (A (zfill 2) (or_intror eq_refl)) as B.
    rewrite forallb_forall in B. specialize (B sep Hs).
    pose proof (forallb_range _ 1 12 B m ltac:(lia)) as C.
    apply (forallb_range _ 1 31 C d). lia.
Qed.

Lemma parse_md_text (ny : Z) (dy : option Z) (render : Z -> string)
  (sep : ascii) (m d : Z) :
  md_text_ok render sep m d = true ->
  valid_ymd (pick_year ny dy) m d = true ->
  parse_mm_dd ny (Some (render m ++ String sep (render d))%string) dy
  = Ok (isoformat (mkdate (pick_year ny dy) m d)).
Proof.
  unfold md_text_ok. cbv zeta. intros H V.
  apply andb_prop in H as [H Hmd]. apply andb_prop in H as [H Hi].
  apply andb_prop in H as [Hs He].
  apply String.eqb_eq in Hs. apply negb_true_iff in He, Hi.
  rewrite parse_mm_dd_unfold. cbv zeta. rewrite Hs, He, Hi.
  destruct (split_md _ separators) as [[m' d']|]; [|discriminate].
  apply andb_prop in Hmd as [Em Ed].
  apply Z.eqb_eq in Em, Ed. subst m' d'. simpl.
  rewrite (date_new_valid _ _ _ V). reflexivity.
Qed.

Lemma parse_iso_pattern (ny : Z) (dy : option Z) (s : string) :
  iso_pattern s = true -> parse_mm_dd ny (Some s) dy = Ok s.
Proof.
  intros H. destruct (iso_pattern_facts s H) as (S & E & I).
  rewrite parse_mm_dd_unfold. cbv zeta. rewrite S, E, I. reflexivity.
Qed.

Lemma normalizer_facts (ny : Z) (dy : option Z) :
  (forall s, iso_pattern s = true -> parse_mm_dd ny (Some s) dy = Ok s)
  /\ (forall s, is_empty (strip s) = false -> already_iso (strip s) = true ->
                parse_mm_dd ny (Some s) dy = Ok (strip s))
  /\ (forall (m d : Z) (sep : ascii),
         valid_ymd (pick_year ny dy) m d = true -> In sep separators ->
         parse_mm_dd ny (Some (str_of_Z m ++ String sep (str_of_Z d))%string) dy
         = Ok (isoformat (mkdate (pick_year ny dy) m d))
         /\ parse_mm_dd ny (Some (zfill 2 m ++ String sep (zfill 2 d))%string) dy
            = Ok (isoformat (mkdate (pick_year ny dy) m d))
         /\ iso_pattern (isoformat (mkdate (pick_year ny dy) m d)) = true
         /\ parse_mm_dd ny (Some (isoformat (mkdate (pick_year ny dy) m d))) dy
            = Ok (isoformat (mkdate (pick_year ny dy) m d)))
  /\ (forall s : option string,
         raises (parse_mm_dd ny s dy)
         <-> let t := strip (match s with Some s => s | None => EmptyString end) in
             t = EmptyString
             \/ (already_iso t = false /\ ~ well_formed_md (pick_year ny dy) t))
  /\ raises (parse_mm_dd ny (Some "2.30") dy).
Proof.
  split; [intros s; apply parse_iso_pattern|].
  split.
  { intros s E I. rewrite parse_mm_dd_unfold. cbv zeta. rewrite E, I. reflexivity. }
  split.
  { intros m d sep V Hs.
    pose proof (valid_date_fields (mkdate _ m d) V) as (Hy & Hm & Hd).
    simpl in Hy, Hm, Hd. pose proof (days_in_month_le (pick_year ny dy) m) as L.
    destruct (md_text_ok_all sep m d Hs ltac:(lia) ltac:(lia)) as (T1 & T2).
    pose proof (isoformat_iso_pattern _ _ _ V) as P.
    repeat split.
    - apply parse_md_text; assumption.
    - apply (parse_md_text ny dy (zfill 2)); assumption.
    - exact P.
    - apply parse_iso_pattern, P. }
  assert (Char : forall s : option string,
             raises (parse_mm_dd ny s dy)
             <-> let t := strip (match s with Some s => s | None => EmptyString end) in
                 t = EmptyString
                 \/ (already_iso t = false
                     /\ ~ well_formed_md (pick_year ny dy) t)).
  { intros s. cbv zeta.
    set (t := strip (match s with Some s0 => s0 | None => EmptyString end)).
    destruct (is_empty t) eqn:E.
    - (* empty *)
      split; [intros _; left; apply is_empty_eq, E|].
      intros _. rewrite parse_mm_dd_unfold. fold t. cbv zeta. rewrite E.
      exists ValueError. reflexivity.
    - destruct (already_iso t) eqn:I.
      + (* passes the ISO test *)
        split.
        * rewrite parse_mm_dd_unfold. fold t. cbv zeta. rewrite E, I.
          intros (e & H). discriminate.
        * intros [H|[H _]]; [|discriminate].
          apply is_empty_eq in H. congruence.
      + rewrite raises_not_returns.
        rewrite <- (parse_mm_dd_well_formed ny s dy E I). fold t.
        split; [intros H; right; auto|].
        intros [H|[_ H]]; [|exact H].
        apply is_empty_eq in H. congruence. }
  split; [exact Char|].
  apply Char. cbv zeta. right. split; [reflexivity|].
  intros (sep & p0 & p1 & m & d & Hin & S & I0 & I1 & V).
  assert (M : split_md (strip "2.30") separators = Ok (m, d))
    by (eapply split_md_complete; eauto).
  vm_compute in M. injection M as <- <-.
  pose proof (valid_date_fields (mkdate _ 2 30) V) as (_ & _ & Hd).
  simpl in Hd. unfold days_in_month in Hd.
  destruct ((2 =? 2) && is_leap (pick_year ny dy))%bool; simpl in Hd; lia.
Qed.

(** C7, the claim as written fails.  The test the code makes for a text
    "already in ISO form" looks at the length and at the two hyphens only:
    "abcd-ef-gh" passes it and is returned unchanged, although it is no
    calendar date and splits on "-" into three parts.  And a month.day text
    whose parts are a month and a day of the calendar still raises when one
    part has more than 4300 digits: [int()] refuses it. *)
Lemma loose_iso_test_returns_non_date :
  parse_mm_dd 2026 (Some "abcd-ef-gh") None = Ok "abcd-ef-gh"
  /\ iso_pattern "abcd-ef-gh" = false
  /\ split_on "-" "abcd-ef-gh" = ["abcd"; "ef"; "gh"]
  /\ contains "." "abcd-ef-gh" = false /\ contains "/" "abcd-ef-gh" = false
  /\ parse_mm_dd 2026 (Some ("2." ++ zeros 4300 ++ "5")) None = Raise ValueError
  /\ split_on "." ("2." ++ zeros 4300 ++ "5") = ["2"; zeros 4300 ++ "5"]
  /\ int_digits (zeros 4300 ++ "5") 0 false = Some 5
  /\ valid_ymd 2026 2 5 = true.
Proof. vm_compute. repeat split. Qed.

(** C7 (amended): the Date Normalizer.  [ny] is the year of the clock and
    [dy] the optional default year; the year used is the default year when
    one is given and is not 0, and the year of the clock otherwise.
    - A text in ISO form (YYYY-MM-DD, digits around two hyphens) is returned
      unchanged; more generally the test of the code is made on the text
      without its surrounding white space, it asks for ten characters with a
      hyphen at index 4 and at index 7, and a text that passes it is returned
      as it is.
    - For a month and a day that form a calendar date of the year used,
      written in decimal (plain or with two digits) around one of the
      separators ".", "/", "-", the result is the ISO form of that date; this
      result is itself in ISO form, so normalising it again returns the same
      text.
    - An exception is raised exactly when the text is empty once stripped,
      or it does not pass the test above and does not split on a recognised
      separator into exactly two parts that [int()] accepts (a decimal
      literal of at most 4300 digits) and that form a calendar date of the
      year used.  "2.30" raises for every year. *)
Theorem date_normalizer (ny : Z) (dy : option Z) :
  let year := match dy with
              | Some y => if y =? 0 then ny else y
              | None => ny
              end in
  (forall s, iso_pattern s = true -> parse_mm_dd ny (Some s) dy = Ok s)
  /\ (forall s, is_empty (strip s) = false -> already_iso (strip s) = true ->
                parse_mm_dd ny (Some s) dy = Ok (strip s))
  /\ (forall (m d : Z) (sep : ascii),
         valid_ymd year m d = true -> In sep separators ->
         parse_mm_dd ny (Some (str_of_Z m ++ String sep (str_of_Z d))%string) dy
         = Ok (isoformat (mkdate year m d))
         /\ parse_mm_dd ny (Some (zfill 2 m ++ String sep (zfill 2 d))%string) dy
            = Ok (isoformat (mkdate year m d))
         /\ iso_pattern (isoformat (mkdate year m d)) = true
         /\ parse_mm_dd ny (Some (isoformat (mkdate year m d))) dy
            = Ok (isoformat (mkdate year m d)))
  /\ (forall s : option string,
         raises (parse_mm_dd ny s dy)
         <-> let t := strip (match s with Some s => s | None => EmptyString end) in
             t = EmptyString
             \/ (already_iso t = false
                 /\ ~ exists sep p0 p1 m d,
                       In sep separators
                       /\ split_on sep t = [p0; p1]
                       /\ int_of_str p0 = Ok m /\ int_of_str p1 = Ok d
                       /\ valid_ymd year m d = true))
  /\ (forall p z, int_of_str p = Ok z ->
                  count_digits (strip_by is_int_space p) <= 4300)
  /\ raises (parse_mm_dd ny (Some "2.30") dy).
Proof.
  cbv zeta.
  destruct (normalizer_facts ny dy) as (A & B & C & D & E).
  split; [exact A|]. split; [exact B|]. split; [exact C|]. split; [exact D|].
  split; [|exact E].
  intros p z H. apply (int_of_str_literal p z H).
Qed.

(** The examples of the docstring of [parse_mm_dd], read in 2026 *)
Lemma date_normalizer_witness :
  parse_mm_dd 2026 (Some "2026-02-05") None = Ok "2026-02-05"
  /\ parse_mm_dd 2026 (Some "2.5") None = Ok "2026-02-05"
  /\ parse_mm_dd 2026 (Some "02-05") None = Ok "2026-02-05".
Proof.
  pose proof (date_normalizer 2026 None) as (A & _ & B & _).
  split; [exact (A "2026-02-05" eq_refl)|].
  split.
  - exact (proj1 (B 2 5 "."%char eq_refl (or_introl eq_refl))).
  - exact (proj1 (proj2 (B 2 5 "-"%char eq_refl
                           (or_intror (or_intror (or_introl eq_refl)))))).
Defined.

(* ===================================================================== *)
(** * Further properties of the code *)
(* ===================================================================== *)

(** ** The order of dates is the order of their ordinals *)

Lemma days_before_year_step (y : Z) :
  days_before_year (y + 1)
  = days_before_year y + 365 + (if is_leap y then 1 else 0).
Proof.
  unfold days_before_year, is_leap.
  replace (y + 1 - 1) with y by lia.
  destruct (Z.eqb_spec (y mod 4) 0), (Z.eqb_spec (y mod 100) 0),
    (Z.eqb_spec (y mod 400) 0); simpl;
    Z.div_mod_to_equations; lia.
Qed.

Lemma days_before_year_mono (y1 y2 : Z) :
  y1 <= y2 -> days_before_year y1 <= days_before_year y2.
Proof.
  intros H. unfold days_before_year. Z.div_mod_to_equations. lia.
Qed.

(** Evaluates the month tables at a month that is known. *)
Ltac month_calc :=
  cbv beta iota delta [days_before_month_table days_in_month_table Z.ltb Z.eqb
                       Z.compare Pos.compare Pos.compare_cont Pos.eqb andb] in *.

(** Within a year: the days before a month, counted with the table. *)
Lemma month_table_step (leap : bool) (m1 m2 : Z) :
  1 <= m1 -> m1 < m2 -> m2 <= 12 ->
  days_before_month_table m1 + (if ((2 <? m1) && leap)%bool then 1 else 0)
  + (if ((m1 =? 2) && leap)%bool then 29 else days_in_month_table m1)
  <= days_before_month_table m2 + (if ((2 <? m2) && leap)%bool then 1 else 0).
Proof.
  intros H1 H2 H3.
  assert (M1 : m1 = 1 \/ m1 = 2 \/ m1 = 3 \/ m1 = 4 \/ m1 = 5 \/ m1 = 6 \/ m1 = 7
               \/ m1 = 8 \/ m1 = 9 \/ m1 = 10 \/ m1 = 11) by lia.
  assert (M2 : m2 = 2 \/ m2 = 3 \/ m2 = 4 \/ m2 = 5 \/ m2 = 6 \/ m2 = 7
               \/ m2 = 8 \/ m2 = 9 \/ m2 = 10 \/ m2 = 11 \/ m2 = 12) by lia.
  destruct leap;
    repeat (destruct M1 as [->|M1]); subst;
    repeat (destruct M2 as [->|M2]); subst; month_calc; lia.
Qed.

Lemma year_length (y m d : Z) :
  valid_ymd y m d = true ->
  days_before_month y m + d <= 365 + (if is_leap y then 1 else 0).
Proof.
  intros V. pose proof (valid_date_fields (mkdate y m d) V) as (_ & Hm & Hd).
  simpl in Hm, Hd. unfold days_before_month, days_in_month in *.
  assert (M : m = 1 \/ m = 2 \/ m = 3 \/ m = 4 \/ m = 5 \/ m = 6 \/ m = 7
              \/ m = 8 \/ m = 9 \/ m = 10 \/ m = 11 \/ m = 12) by lia.
  clear V. destruct (is_leap y);
    repeat (destruct M as [->|M]; [month_calc; lia|]); subst m; month_calc; lia.
Qed.

Lemma days_before_month_nonneg (y m : Z) :
  1 <= m <= 12 -> 0 <= days_before_month y m.
Proof.
  intros Hm. unfold days_before_month.
  assert (M : m = 1 \/ m = 2 \/ m = 3 \/ m = 4 \/ m = 5 \/ m = 6 \/ m = 7
              \/ m = 8 \/ m = 9 \/ m = 10 \/ m = 11 \/ m = 12) by lia.
  destruct (is_leap y);
    repeat (destruct M as [->|M]; [month_calc; lia|]); subst m; month_calc; lia.
Qed.

Lemma toordinal_lt (a b : date) :
  valid_date a = true -> valid_date b = true ->
  lex_lt a b -> toordinal a < toordinal b.
Proof.
  intros Va Vb L.
  pose proof (valid_date_fields a Va) as (Hya & Hma & Hda).
  pose proof (valid_date_fields b Vb) as (Hyb & Hmb & Hdb).
  destruct a as [ya ma da], b as [yb mb db]. unfold lex_lt in L.
  simpl in *. unfold toordinal, ymd2ord. simpl year; simpl month; simpl day.
  destruct L as [L|[-> [L|[-> L]]]].
  - pose proof (year_length ya ma da Va) as Ya.
    pose proof (days_before_year_step ya) as S.
    pose proof (days_before_year_mono (ya + 1) yb ltac:(lia)) as M.
    pose proof (days_before_month_nonneg yb mb Hmb). lia.
  - pose proof (month_table_step (is_leap yb) ma mb ltac:(lia) L ltac:(lia)) as T.
    unfold days_before_month, days_in_month in *.
    destruct ((ma =? 2) && is_leap yb)%bool; lia.
  - lia.
Qed.

Lemma date_leb_ordinal (a b : date) :
  valid_date a = true -> valid_date b = true ->
  (date_leb a b = true <-> toordinal a <= toordinal b).
Proof.
  intros Va Vb. rewrite date_leb_ltb, negb_true_iff, date_ltb_false. split.
  - intros N.
    destruct (Z.lt_trichotomy (year a) (year b)) as [H|[H|H]];
      [apply Z.lt_le_incl, toordinal_lt; unfold lex_lt; auto| |
        exfalso; apply N; unfold lex_lt; auto].
    destruct (Z.lt_trichotomy (month a) (month b)) as [H'|[H'|H']];
      [apply Z.lt_le_incl, toordinal_lt; unfold lex_lt; auto| |
        exfalso; apply N; unfold lex_lt; auto].
    destruct (Z.lt_trichotomy (day a) (day b)) as [H''|[H''|H'']];
      [apply Z.lt_le_incl, toordinal_lt; unfold lex_lt; auto| |
        exfalso; apply N; unfold lex_lt; auto].
    rewrite (date_eq_fields a b H H' H''). lia.
  - intros H L. pose proof (toordinal_lt b a Vb Va L). lia.
Qed.

Lemma date_leb_refl (a : date) : date_leb a a = true.
Proof.
  rewrite date_leb_ltb, negb_true_iff, date_ltb_false. unfold lex_lt. lia.
Qed.

Lemma date_leb_trans (a b c : date) :
  date_leb a b = true -> date_leb b c = true -> date_leb a c = true.
Proof.
  rewrite !date_leb_ltb, !negb_true_iff, !date_ltb_false. unfold lex_lt. lia.
Qed.

Lemma py_min_le_l (a b : date) : date_leb (py_min a b) a = true.
Proof.
  unfold py_min. destruct (date_ltb b a) eqn:E; [|apply date_leb_refl].
  rewrite date_leb_ltb, negb_true_iff, date_ltb_false.
  apply date_ltb_spec in E. unfold lex_lt in *. lia.
Qed.

Lemma py_min_le_r (a b : date) : date_leb (py_min a b) b = true.
Proof.
  unfold py_min. destruct (date_ltb b a) eqn:E; [apply date_leb_refl|].
  rewrite date_leb_ltb, negb_true_iff. exact E.
Qed.

Lemma py_max_ge_l (a b : date) : date_leb a (py_max a b) = true.
Proof.
  unfold py_max. destruct (date_ltb a b) eqn:E; [|apply date_leb_refl].
  rewrite date_leb_ltb, negb_true_iff, date_ltb_false.
  apply date_ltb_spec in E. unfold lex_lt in *. lia.
Qed.

Lemma py_max_ge_r (a b : date) : date_leb b (py_max a b) = true.
Proof.
  unfold py_max. destruct (date_ltb a b) eqn:E; [apply date_leb_refl|].
  rewrite date_leb_ltb, negb_true_iff. exact E.
Qed.

(** ** The window and the real start date *)

Lemma date_add_ok (d : date) (n : Z) (r : date) :
  date_add d n = Ok r ->
  r = fromordinal (toordinal d + n) /\ 1 <= toordinal d + n <= MAXORDINAL.
Proof.
  unfold date_add.
  destruct ((0 <? toordinal d + n) && (toordinal d + n <=? MAXORDINAL))%bool eqn:E;
    [|discriminate].
  intros [= <-]. apply andb_prop in E as [E1 E2].
  apply Z.ltb_lt in E1. apply Z.leb_le in E2. split; [reflexivity | lia].
Qed.

Lemma minus_days_ok (d : date) (n : Z) (r : date) :
  minus_days d n = Ok r ->
  r = fromordinal (toordinal d - n) /\ 1 <= toordinal d - n <= MAXORDINAL.
Proof.
  unfold minus_days, timedelta.
  destruct ((-999999999 <=? n) && (n <=? 999999999))%bool; simpl; [|discriminate].
  unfold date_sub. intros H. apply date_add_ok in H.
  replace (toordinal d + - n) with (toordinal d - n) in H by lia. exact H.
Qed.

Lemma plus_days_ok (d : date) (n : Z) (r : date) :
  plus_days d n = Ok r ->
  r = fromordinal (toordinal d + n) /\ 1 <= toordinal d + n <= MAXORDINAL.
Proof.
  unfold plus_days, timedelta.
  destruct ((-999999999 <=? n) && (n <=? 999999999))%bool; simpl; [|discriminate].
  apply date_add_ok.
Qed.

Lemma minus_days_le (d : date) (n : Z) (r : date) :
  valid_date d = true -> 0 <= n -> minus_days d n = Ok r ->
  valid_date r = true /\ date_leb r d = true.
Proof.
  intros V Hn H. apply minus_days_ok in H as [-> R].
  assert (Vr : valid_date (fromordinal (toordinal d - n)) = true)
    by (apply fromordinal_valid; exact R).
  split; [exact Vr|].
  apply date_leb_ordinal; [exact Vr | exact V |].
  rewrite toordinal_fromordinal by lia. lia.
Qed.

Lemma plus_days_ge (d : date) (n : Z) (r : date) :
  valid_date d = true -> 0 <= n -> plus_days d n = Ok r ->
  valid_date r = true /\ date_leb d r = true.
Proof.
  intros V Hn H. apply plus_days_ok in H as [-> R].
  assert (Vr : valid_date (fromordinal (toordinal d + n)) = true)
    by (apply fromordinal_valid; exact R).
  split; [exact Vr|].
  apply date_leb_ordinal; [exact V | exact Vr |].
  rewrite toordinal_fromordinal by lia. lia.
Qed.

Lemma window_bounds (r : RetailPromoRow) (x y z : Z) (ds de : date) :
  valid_date (start_date r) = true -> 0 <= x -> 0 <= y -> 0 <= z ->
  compute_display_window r x y z = Ok (ds, de) ->
  date_leb ds (start_date r) = true
  /\ (end_date r = Some de \/ date_leb (start_date r) de = true).
Proof.
  intros V Hx Hy Hz. unfold compute_display_window.
  destruct (String.eqb (normalize (entry_type r)) "sale").
  - destruct (minus_days (start_date r) x) as [a|] eqn:M; simpl; [|discriminate].
    intros [= <- <-]. split; [apply (minus_days_le _ x _ V Hx M)|].
    destruct (end_date r); [left; reflexivity | right; apply date_leb_refl].
  - destruct (String.eqb (normalize (entry_type r)) "price increase").
    + destruct (end_date r) as [e|]; simpl.
      * destruct (minus_days (start_date r) y) as [a|] eqn:M; simpl; [|discriminate].
        intros [= <- <-]. split; [apply (minus_days_le _ y _ V Hy M) | left; reflexivity].
      * destruct (plus_days (start_date r) z) as [b|] eqn:P; simpl; [|discriminate].
        destruct (minus_days (start_date r) y) as [a|] eqn:M; simpl; [|discriminate].
        intros [= <- <-]. split; [apply (minus_days_le _ y _ V Hy M)|].
        right. apply (plus_days_ge _ z _ V Hz P).
    + intros [= <- <-]. split; [apply date_leb_refl | right; apply date_leb_refl].
Qed.

(** X1: With non-negative offsets the display window never starts after the
    real start date, and its end is the end date of the row or a day that is
    not before the real start.  So a returned window contains the real start
    date unless the row ends before it starts. *)
Theorem window_contains_real_start (r : RetailPromoRow) (x y z : Z)
  (ds de : date) :
  valid_date (start_date r) = true -> 0 <= x -> 0 <= y -> 0 <= z ->
  compute_display_window r x y z = Ok (ds, de) ->
  date_leb ds (start_date r) = true
  /\ (end_date r = Some de \/ date_leb (start_date r) de = true).
Proof.
  exact (window_bounds r x y z ds de).
Qed.

(** An open-ended Price Increase from 2024-02-04 with Y = 2 and Z = 10 *)
Lemma window_contains_real_start_witness :
  date_leb (mkdate 2024 2 2) (mkdate 2024 2 4) = true
  /\ (None = Some (mkdate 2024 2 14)
      \/ date_leb (mkdate 2024 2 4) (mkdate 2024 2 14) = true).
Proof.
  refine (window_contains_real_start
            (mkRow 1 "Acme" "Price Increase" (mkdate 2024 2 4) None) 3 2 10
            (mkdate 2024 2 2) (mkdate 2024 2 14) eq_refl _ _ _ eq_refl); lia.
Defined.

(** ** One plan per vendor *)

Lemma existsb_eqb_In (v : string) (l : list string) :
  existsb (String.eqb v) l = true <-> In v l.
Proof.
  rewrite existsb_exists. split.
  - intros (u & Hu & E). apply String.eqb_eq in E. subst. exact Hu.
  - intros H. exists v. split; [exact H | apply String.eqb_refl].
Qed.

Lemma dict_set_keys_cases {V} (k : string) (w : V) (d : dict V) :
  map fst (dict_set k w d)
  = if existsb (String.eqb k) (map fst d) then map fst d
    else (map fst d ++ [k])%list.
Proof.
  destruct (existsb (String.eqb k) (map fst d)) eqn:E.
  - apply dict_set_keys, existsb_eqb_In, E.
  - apply dict_set_keys_new. intros H. apply existsb_eqb_In in H. congruence.
Qed.

Lemma agg_loop_keys (x y z : Z) (rows : list RetailPromoRow) (d d' : plans) :
  agg_loop x y z rows d = Ok d' ->
  map fst d'
  = fold_left (fun acc v => if existsb (String.eqb v) acc then acc
                            else (acc ++ [v])%list)
              (map vendor rows) (map fst d).
Proof.
  revert d. induction rows as [|r rows IH]; intros d; simpl.
  - intros [= <-]. reflexivity.
  - destruct (agg_step x y z d r) as [d1|] eqn:E; simpl; [|discriminate].
    intros H. rewrite (IH _ H). f_equal.
    revert E. rewrite agg_step_unfold.
    destruct (compute_display_window r x y z); simpl; [|discriminate].
    intros [= <-]. apply dict_set_keys_cases.
Qed.

Lemma keyed_vendors (d : plans) :
  keyed d -> map plan_vendor (map snd d) = map fst d.
Proof.
  unfold keyed. induction 1 as [|[k w] d Hk Hd IH]; simpl; [reflexivity|].
  simpl in Hk. rewrite Hk, IH. reflexivity.
Qed.

Lemma first_seen_from_In (l acc : list string) (v : string) :
  In v (fold_left (fun acc v => if existsb (String.eqb v) acc then acc
                                else (acc ++ [v])%list) l acc)
  <-> In v acc \/ In v l.
Proof.
  revert acc. induction l as [|u l IH]; intros acc; simpl; [tauto|].
  rewrite IH. destruct (existsb (String.eqb u) acc) eqn:E.
  - apply existsb_eqb_In in E. split; [tauto|].
    intros [H|[<-|H]]; auto.
  - rewrite in_app_iff. simpl. tauto.
Qed.

(** X2: [aggregate_by_vendor] returns one plan for each distinct vendor string of
    the rows, in the order in which the vendors first appear. *)
Theorem aggregate_one_plan_per_vendor (rows : list RetailPromoRow) (x y z : Z)
  (ps : list VendorPlan) :
  aggregate_by_vendor rows x y z = Ok ps ->
  map plan_vendor ps = first_seen (map vendor rows)
  /\ NoDup (map plan_vendor ps)
  /\ (forall v, In v (map plan_vendor ps) <-> exists r, In r rows /\ vendor r = v).
Proof.
  intros A. destruct (aggregate_plan_of _ _ _ _ _ A) as (d & L & -> & K & _).
  rewrite (keyed_vendors d K).
  assert (E : map fst d = first_seen (map vendor rows))
    by (rewrite (agg_loop_keys _ _ _ _ _ _ L); reflexivity).
  split; [exact E|]. split.
  - apply (agg_loop_nodup x y z rows [] d (NoDup_nil _) L).
  - intros v. rewrite E. unfold first_seen. rewrite first_seen_from_In.
    rewrite in_map_iff. simpl. split.
    + intros [[]|(r & Hv & Hr)]. eauto.
    + intros (r & Hr & Hv). right. eauto.
Qed.

(** Rows of two vendors, one of them spelled in two ways *)
Lemma aggregate_one_plan_per_vendor_witness :
  map plan_vendor
    [mkPlan "Bolt" None None (Some (mkdate 2024 2 2)) (Some (mkdate 2024 2 14))
            None None (Some (mkdate 2024 2 4)) None;
     mkPlan "Acme" (Some (mkdate 2024 2 1)) (Some (mkdate 2024 2 20)) None None
            (Some (mkdate 2024 2 1)) (Some (mkdate 2024 2 20)) None None;
     mkPlan "ACME" (Some (mkdate 2024 3 1)) (Some (mkdate 2024 3 2)) None None
            (Some (mkdate 2024 3 1)) (Some (mkdate 2024 3 2)) None None]
  = first_seen
      (map vendor
         [mkRow 1 "Bolt" "Price Increase" (mkdate 2024 2 4) None;
          mkRow 2 "Acme" "Sale" (mkdate 2024 2 1) (Some (mkdate 2024 2 10));
          mkRow 3 "ACME" "Sale" (mkdate 2024 3 1) (Some (mkdate 2024 3 2));
          mkRow 4 "Acme" "Sale" (mkdate 2024 2 5) (Some (mkdate 2024 2 20))]).
Proof.
  exact (proj1 (aggregate_one_plan_per_vendor
          [mkRow 1 "Bolt" "Price Increase" (mkdate 2024 2 4) None;
           mkRow 2 "Acme" "Sale" (mkdate 2024 2 1) (Some (mkdate 2024 2 10));
           mkRow 3 "ACME" "Sale" (mkdate 2024 3 1) (Some (mkdate 2024 3 2));
           mkRow 4 "Acme" "Sale" (mkdate 2024 2 5) (Some (mkdate 2024 2 20))]
          0 2 10 _ eq_refl)).
Defined.

(** ** When the aggregation fails *)

(** X3: [aggregate_by_vendor] raises exactly when the window of some row cannot
    be computed, and the exception is then OverflowError: one such row makes
    the plans of all vendors unavailable. *)
Theorem aggregate_raises_on_one_bad_row (rows : list RetailPromoRow) (x y z : Z) :
  (raises (aggregate_by_vendor rows x y z)
   <-> exists r, In r rows /\ compute_display_window r x y z = Raise OverflowError)
  /\ (forall e, aggregate_by_vendor rows x y z = Raise e -> e = OverflowError).
Proof.
  assert (Kind : forall rows0 d e, agg_loop x y z rows0 d = Raise e -> e = OverflowError).
  { induction rows0 as [|r rows0 IH]; intros d e; simpl; [discriminate|].
    rewrite agg_step_unfold.
    destruct (compute_display_window r x y z) as [win|e'] eqn:E; simpl.
    - apply IH.
    - intros [= <-]. eapply compute_display_window_raise, E. }
  split.
  - rewrite raises_not_returns, <- aggregate_returns. split.
    + intros N.
      assert (G : forall l : list RetailPromoRow,
                 (forall r, In r l -> returns (compute_display_window r x y z))
                 \/ exists r, In r l /\ compute_display_window r x y z = Raise OverflowError).
      { induction l as [|r l [IH|(r' & Hr' & E')]].
        - left. intros r [].
        - destruct (compute_display_window r x y z) as [win|e] eqn:E.
          + left. intros r' [<-|Hr']; [rewrite E; eexists; reflexivity | auto].
          + right. exists r. split; [left; reflexivity|].
            rewrite E. f_equal. eapply compute_display_window_raise, E.
        - right. exists r'. split; [right; exact Hr' | exact E']. }
      destruct (G rows) as [H|H]; [contradiction | exact H].
    + intros (r & Hr & E) H. destruct (H r Hr) as (a & Ha). congruence.
  - intros e. unfold aggregate_by_vendor.
    destruct (agg_loop x y z rows []) as [d|e'] eqn:L; simpl; [discriminate|].
    intros [= <-]. eapply Kind, L.
Qed.

(** ** The merged windows *)

(** A property of plans that each loop iteration keeps, given the window of
    its row, holds of every plan the loop returns. *)
Lemma agg_loop_invariant_rows (P : VendorPlan -> Prop) (x y z : Z)
  (rows : list RetailPromoRow) :
  (forall v, P (new_plan v)) ->
  (forall w r win, In r rows -> compute_display_window r x y z = Ok win ->
                   P w -> P (apply_row w r win)) ->
  forall d d',
    Forall (fun kw : string * VendorPlan => P (snd kw)) d ->
    agg_loop x y z rows d = Ok d' ->
    Forall (fun kw : string * VendorPlan => P (snd kw)) d'.
Proof.
  intros Hnew. induction rows as [|r rows IH]; intros Hstep d d' F; simpl.
  - intros [= <-]. exact F.
  - destruct (agg_step x y z d r) as [d1|] eqn:E; simpl; [|discriminate].
    apply IH; [intros w r' win Hr'; apply Hstep; right; exact Hr'|].
    revert E. rewrite agg_step_unfold.
    destruct (compute_display_window r x y z) as [win|] eqn:W; simpl; [|discriminate].
    intros [= <-]. apply dict_set_Forall; [|exact F].
    simpl. apply (Hstep _ r win (or_introl eq_refl) W). unfold current.
    destruct (dict_get (vendor r) d) as [w|] eqn:G; [|apply Hnew].
    apply dict_get_In in G. rewrite Forall_forall in F. apply (F _ G).
Qed.

Lemma aggregate_invariant (P : VendorPlan -> Prop) (rows : list RetailPromoRow)
  (x y z : Z) (ps : list VendorPlan) (w : VendorPlan) :
  (forall v, P (new_plan v)) ->
  (forall w r win, In r rows -> compute_display_window r x y z = Ok win ->
                   P w -> P (apply_row w r win)) ->
  aggregate_by_vendor rows x y z = Ok ps -> In w ps -> P w.
Proof.
  intros Hnew Hstep A Hin.
  destruct (aggregate_plan_of _ _ _ _ _ A) as (d & L & -> & _ & _).
  apply in_map_iff in Hin as ([k w'] & <- & Hin). simpl.
  pose proof (agg_loop_invariant_rows P x y z rows Hnew Hstep [] d
                (Forall_nil _) L) as F.
  rewrite Forall_forall in F. apply (F _ Hin).
Qed.

(** *** Folds of [min] and [max] *)

Lemma fold_keep_min_some (l : list date) (acc : option date) :
  (acc <> None \/ l <> []) -> fold_left keep_min l acc <> None.
Proof.
  revert acc. induction l as [|a l IH]; intros acc; simpl.
  - intros [H|H]; [exact H | contradiction].
  - intros _. apply IH. left. apply keep_min_some.
Qed.

Lemma py_min_cases (a b : date) : py_min a b = a \/ py_min a b = b.
Proof. unfold py_min. destruct (date_ltb b a); auto. Qed.

Lemma fold_keep_min_in (l : list date) (acc : option date) (m : date) :
  fold_left keep_min l acc = Some m -> acc = Some m \/ In m l.
Proof.
  revert acc. induction l as [|a l IH]; intros acc; simpl; [auto|].
  intros H. apply IH in H. destruct H as [H|H]; [|auto].
  destruct acc as [c|]; simpl in H; injection H as H.
  - destruct (py_min_cases c a) as [E|E]; rewrite E in H; subst; auto.
  - auto.
Qed.

Lemma fold_keep_min_le (l : list date) (acc : option date) (m : date) :
  fold_left keep_min l acc = Some m ->
  (forall a, In a l -> date_leb m a = true)
  /\ (forall c, acc = Some c -> date_leb m c = true).
Proof.
  revert acc. induction l as [|a l IH]; intros acc; simpl.
  - intros ->. split; [intros a [] | intros c [= <-]; apply date_leb_refl].
  - intros H. destruct (IH _ H) as (Hl & Hacc).
    assert (Ha : date_leb m a = true).
    { destruct acc as [c|]; simpl in Hacc.
      - eapply date_leb_trans; [apply (Hacc _ eq_refl) | apply py_min_le_r].
      - apply (Hacc _ eq_refl). }
    split.
    + intros b [<-|Hb]; [exact Ha | apply Hl, Hb].
    + intros c ->. simpl in Hacc.
      eapply date_leb_trans; [apply (Hacc _ eq_refl) | apply py_min_le_l].
Qed.

Lemma fold_keep_max_ge (l : list date) (acc : option date) (m : date) :
  fold_left keep_max l acc = Some m ->
  (forall a, In a l -> date_leb a m = true)
  /\ (forall c, acc = Some c -> date_leb c m = true).
Proof.
  revert acc. induction l as [|a l IH]; intros acc; simpl.
  - intros ->. split; [intros a [] | intros c [= <-]; apply date_leb_refl].
  - intros H. destruct (IH _ H) as (Hl & Hacc).
    assert (Ha : date_leb a m = true).
    { destruct acc as [c|]; simpl in Hacc.
      - eapply date_leb_trans; [apply py_max_ge_r | apply (Hacc _ eq_refl)].
      - apply (Hacc _ eq_refl). }
    split.
    + intros b [<-|Hb]; [exact Ha | apply Hl, Hb].
    + intros c ->. simpl in Hacc.
      eapply date_leb_trans; [apply py_max_ge_l | apply (Hacc _ eq_refl)].
Qed.

(** *** The display fields as folds over the windows of the vendor *)

Lemma display_apply_row (w : VendorPlan) (r : RetailPromoRow) (win : date * date) :
  sale_display_start (apply_row w r win)
  = (if is_sale r then keep_min (sale_display_start w) (fst win)
     else sale_display_start w)
  /\ sale_display_end (apply_row w r win)
     = (if is_sale r then keep_max (sale_display_end w) (snd win)
        else sale_display_end w)
  /\ pi_display_start (apply_row w r win)
     = (if is_pi r then keep_min (pi_display_start w) (fst win)
        else pi_display_start w)
  /\ pi_display_end (apply_row w r win)
     = (if is_pi r then keep_max (pi_display_end w) (snd win)
        else pi_display_end w).
Proof.
  destruct (is_sale r) eqn:S.
  - assert (Pi : is_pi r = false) by (unfold is_pi; rewrite S; reflexivity).
    rewrite Pi, apply_row_sale by assumption. repeat split.
  - destruct (is_pi r) eqn:Pi.
    + rewrite apply_row_pi by assumption. repeat split.
    + rewrite apply_row_other by assumption. repeat split.
Qed.

Lemma agg_loop_display (x y z : Z) (rows : list RetailPromoRow)
  (d d' : plans) (v : string) :
  agg_loop x y z rows d = Ok d' ->
  sale_display_start (current d' v)
  = fold_left keep_min (map fst (windows_of is_sale x y z v rows))
              (sale_display_start (current d v))
  /\ sale_display_end (current d' v)
     = fold_left keep_max (map snd (windows_of is_sale x y z v rows))
                 (sale_display_end (current d v))
  /\ pi_display_start (current d' v)
     = fold_left keep_min (map fst (windows_of is_pi x y z v rows))
                 (pi_display_start (current d v))
  /\ pi_display_end (current d' v)
     = fold_left keep_max (map snd (windows_of is_pi x y z v rows))
                 (pi_display_end (current d v)).
Proof.
  revert d. induction rows as [|r rows IH]; intros d; simpl.
  - intros [= <-]. repeat split.
  - destruct (agg_step x y z d r) as [d1|] eqn:E; simpl; [|discriminate].
    intros H. destruct (IH _ H) as (I1 & I2 & I3 & I4).
    rewrite I1, I2, I3, I4.
    destruct (agg_step_current _ _ _ _ _ _ E) as (win & W & _ & C).
    rewrite C, W.
    destruct (String.eqb (vendor r) v); simpl; [|repeat split].
    destruct (display_apply_row (current d v) r win) as (A1 & A2 & A3 & A4).
    rewrite A1, A2, A3, A4.
    destruct (is_sale r), (is_pi r); simpl; repeat split.
Qed.

Lemma windows_of_In (sel : RetailPromoRow -> bool) (x y z : Z) (v : string)
  (rows : list RetailPromoRow) (win : date * date) :
  In win (windows_of sel x y z v rows)
  <-> exists r, In r rows /\ vendor r = v /\ sel r = true
                /\ compute_display_window r x y z = Ok win.
Proof.
  induction rows as [|r rows IH]; simpl.
  - split; [contradiction | intros (? & [] & _)].
  - destruct (String.eqb (vendor r) v) eqn:V; simpl.
    + apply String.eqb_eq in V.
      destruct (sel r) eqn:S.
      * destruct (compute_display_window r x y z) as [win'|e] eqn:W; simpl;
          rewrite ?IH; split.
        -- intros [->|(r' & ? & ?)]; [exists r; auto | exists r'; tauto].
        -- intros (r' & [->|Hin] & Hv & Hs & Hw); [left; congruence | right; eauto].
        -- intros (r' & ? & ?). exists r'. tauto.
        -- intros (r' & [->|Hin] & Hv & Hs & Hw); [congruence | eauto].
      * rewrite IH. split.
        -- intros (r' & ? & ?). exists r'. tauto.
        -- intros (r' & [->|Hin] & Hv & Hs & Hw); [congruence | eauto].
    + rewrite IH. split.
      * intros (r' & ? & ?). exists r'. tauto.
      * intros (r' & [->|Hin] & Hv & Hs & Hw); [|eauto].
        apply String.eqb_neq in V. contradiction.
Qed.

Lemma folds_are_hull (wins : list (date * date)) :
  is_hull (fold_left keep_min (map fst wins) None)
          (fold_left keep_max (map snd wins) None) wins.
Proof.
  unfold is_hull. split; [|split].
  - intros ds de Hin.
    destruct (fold_left keep_min (map fst wins) None) as [a|] eqn:A.
    2:{ exfalso. revert A. apply fold_keep_min_some. right.
        destruct wins; [contradiction | discriminate]. }
    destruct (fold_left keep_max (map snd wins) None) as [b|] eqn:B.
    2:{ exfalso. revert B. apply fold_keep_max_some. right.
        destruct wins; [contradiction | discriminate]. }
    exists a, b. repeat split.
    + apply (proj1 (fold_keep_min_le _ _ _ A)).
      apply in_map_iff. exists (ds, de). auto.
    + apply (proj1 (fold_keep_max_ge _ _ _ B)).
      apply in_map_iff. exists (ds, de). auto.
  - intros a A. apply fold_keep_min_in in A as [A|A]; [discriminate|].
    apply in_map_iff in A as ([ds de] & <- & Hin). eauto.
  - intros b B. apply fold_keep_max_in in B as [B|B]; [discriminate|].
    apply in_map_iff in B as ([ds de] & <- & Hin). eauto.
Qed.

Lemma aggregate_display_hull (rows : list RetailPromoRow) (x y z : Z)
  (ps : list VendorPlan) (w : VendorPlan) :
  aggregate_by_vendor rows x y z = Ok ps -> In w ps ->
  is_hull (sale_display_start w) (sale_display_end w)
          (windows_of is_sale x y z (plan_vendor w) rows)
  /\ is_hull (pi_display_start w) (pi_display_end w)
             (windows_of is_pi x y z (plan_vendor w) rows).
Proof.
  intros A Hin. pose proof (aggregate_In_plan_of _ _ _ _ _ _ A Hin) as P.
  destruct (aggregate_current _ _ _ _ _ _ _ A P) as (d & L & C).
  destruct (agg_loop_display _ _ _ _ _ _ (plan_vendor w) L) as (E1 & E2 & E3 & E4).
  rewrite C in E1, E2, E3, E4. simpl in E1, E2, E3, E4.
  rewrite E1, E2, E3, E4. split; apply folds_are_hull.
Qed.

(** X4: For every returned plan and each promotion type, the display window is
    the smallest window that contains the windows of all rows of that vendor
    and type: its start is the earliest display start, its end the latest
    display end, and both are absent only when the vendor has no such row. *)
Theorem merged_window_is_hull (rows : list RetailPromoRow) (x y z : Z)
  (ps : list VendorPlan) (w : VendorPlan) :
  aggregate_by_vendor rows x y z = Ok ps -> In w ps ->
  is_hull (sale_display_start w) (sale_display_end w)
          (windows_of is_sale x y z (plan_vendor w) rows)
  /\ is_hull (pi_display_start w) (pi_display_end w)
             (windows_of is_pi x y z (plan_vendor w) rows).
Proof.
  exact (aggregate_display_hull rows x y z ps w).
Qed.

(** Scenario D of the specification *)
Lemma merged_window_is_hull_witness :
  is_hull (Some (mkdate 2024 2 1)) (Some (mkdate 2024 2 20))
          (windows_of is_sale 0 0 0 "Acme"
             [mkRow 1 "Acme" "Sale" (mkdate 2024 2 1) (Some (mkdate 2024 2 10));
              mkRow 2 "Acme" "Sale" (mkdate 2024 2 5) (Some (mkdate 2024 2 20))]).
Proof.
  exact (proj1 (merged_window_is_hull
          [mkRow 1 "Acme" "Sale" (mkdate 2024 2 1) (Some (mkdate 2024 2 10));
           mkRow 2 "Acme" "Sale" (mkdate 2024 2 5) (Some (mkdate 2024 2 20))]
          0 0 0 _ _ eq_refl (or_introl eq_refl))).
Defined.

(** X5: While the window of one row of a vendor contains today, the fields of
    that promotion type are kept on the vendor's products: [shouldExist]
    holds for the type of the row. *)
Theorem active_row_keeps_fields (rows : list RetailPromoRow) (x y z : Z)
  (ps : list VendorPlan) (w : VendorPlan) (r : RetailPromoRow)
  (ds de today : date) :
  aggregate_by_vendor rows x y z = Ok ps -> In w ps ->
  In r rows -> vendor r = plan_vendor w ->
  compute_display_window r x y z = Ok (ds, de) ->
  date_leb ds today = true -> date_leb today de = true ->
  (is_sale r = true -> sale_should_exist w today = true)
  /\ (is_pi r = true -> pi_should_exist w today = true).
Proof.
  intros A Hin Hr Hv W L1 L2.
  destruct (aggregate_display_hull _ _ _ _ _ _ A Hin) as ((Hs & _) & (Hp & _)).
  split; intros T.
  - destruct (Hs ds de) as (a & b & Ea & Eb & La & Lb).
    { apply windows_of_In. exists r. auto. }
    unfold sale_should_exist, should_exist. rewrite Ea, Eb.
    rewrite (date_leb_trans _ _ _ La L1), (date_leb_trans _ _ _ L2 Lb). reflexivity.
  - destruct (Hp ds de) as (a & b & Ea & Eb & La & Lb).
    { apply windows_of_In. exists r. auto. }
    unfold pi_should_exist, should_exist. rewrite Ea, Eb.
    rewrite (date_leb_trans _ _ _ La L1), (date_leb_trans _ _ _ L2 Lb). reflexivity.
Qed.

(** On 2024-02-08 the second of two Sale rows is displayed. *)
Lemma active_row_keeps_fields_witness :
  sale_should_exist
    (mkPlan "Acme" (Some (mkdate 2024 1 1)) (Some (mkdate 2024 2 20)) None None
            (Some (mkdate 2024 1 1)) (Some (mkdate 2024 2 20)) None None)
    (mkdate 2024 2 8) = true.
Proof.
  refine (proj1 (active_row_keeps_fields
          [mkRow 1 "Acme" "Sale" (mkdate 2024 1 1) (Some (mkdate 2024 1 10));
           mkRow 2 "Acme" "Sale" (mkdate 2024 2 5) (Some (mkdate 2024 2 20))]
          0 0 0 _ _
          (mkRow 2 "Acme" "Sale" (mkdate 2024 2 5) (Some (mkdate 2024 2 20)))
          (mkdate 2024 2 5) (mkdate 2024 2 20) (mkdate 2024 2 8)
          eq_refl (or_introl eq_refl) _ eq_refl eq_refl eq_refl eq_refl) eq_refl).
  right. left. reflexivity.
Defined.

(** ** Real dates and display dates of a returned plan *)

Lemma opt_leb_keep_min (ca cb : option date) (a b : date) :
  (ca <> None <-> cb <> None) -> opt_leb ca cb -> date_leb a b = true ->
  opt_leb (keep_min ca a) (keep_min cb b).
Proof.
  intros P L H. destruct ca as [c|], cb as [c'|]; simpl in *.
  - unfold py_min at 2. destruct (date_ltb b c').
    + eapply date_leb_trans; [apply py_min_le_r | exact H].
    + eapply date_leb_trans; [apply py_min_le_l | exact L].
  - exfalso. apply (proj1 P); congruence.
  - exfalso. apply (proj2 P); congruence.
  - exact H.
Qed.

Lemma opt_leb_keep_max (ca cb : option date) (a b : date) :
  (ca <> None -> cb <> None) -> opt_leb ca cb -> date_leb a b = true ->
  opt_leb (keep_max ca a) (keep_max cb b).
Proof.
  intros P L H. destruct ca as [c|], cb as [c'|]; simpl in *.
  - unfold py_max at 1. destruct (date_ltb c a).
    + eapply date_leb_trans; [exact H | apply py_max_ge_r].
    + eapply date_leb_trans; [exact L | apply py_max_ge_l].
  - exfalso. apply P; congruence.
  - eapply date_leb_trans; [exact H | apply py_max_ge_r].
  - exact H.
Qed.

Lemma opt_leb_keep_max_r (ca cb : option date) (b : date) :
  (ca <> None -> cb <> None) -> opt_leb ca cb -> opt_leb ca (keep_max cb b).
Proof.
  intros P L. destruct ca as [c|], cb as [c'|]; simpl in *; auto.
  - eapply date_leb_trans; [exact L | apply py_max_ge_l].
  - exfalso. apply P; congruence.
Qed.

Lemma some_iff (a b : option date) (x y : date) :
  (keep_min a x <> None <-> keep_max b y <> None)
  /\ (keep_min a x <> None <-> keep_min b y <> None).
Proof.
  split; split; intros _; first [apply keep_min_some | apply keep_max_some].
Qed.

(** In every returned plan the dates of one promotion type are present
    together: the four Sale dates, and the Price Increase display dates with
    the real start; a real Price Increase end comes with them. *)
Lemma aggregate_dates_paired (rows : list RetailPromoRow) (x y z : Z)
  (ps : list VendorPlan) (w : VendorPlan) :
  aggregate_by_vendor rows x y z = Ok ps -> In w ps -> dates_paired w.
Proof.
  apply (aggregate_invariant dates_paired).
  - intros v. unfold dates_paired; simpl. tauto.
  - intros w0 r win _ _ (P1 & P2 & P3 & P4 & P5 & P6).
    unfold dates_paired. destruct (is_sale r) eqn:S.
    + rewrite apply_row_sale by assumption. simpl.
      repeat split; try tauto; intros _;
        first [apply keep_min_some | apply keep_max_some].
    + destruct (is_pi r) eqn:Pi.
      * rewrite apply_row_pi by assumption. simpl.
        repeat split; try tauto; intros _;
          first [apply keep_min_some | apply keep_max_some].
      * rewrite apply_row_other by assumption. tauto.
Qed.

(** X6: In every returned plan, for rows with valid start dates and non-negative
    offsets, the real dates lie inside the display windows: the Sale display
    end is the real end, each display start is not after the real start, and
    the real end of a Price Increase is not after its display end. *)
Theorem real_dates_inside_display_window (rows : list RetailPromoRow) (x y z : Z)
  (ps : list VendorPlan) (w : VendorPlan) :
  (forall r, In r rows -> valid_date (start_date r) = true) ->
  0 <= x -> 0 <= y -> 0 <= z ->
  aggregate_by_vendor rows x y z = Ok ps -> In w ps ->
  real_inside_display w.
Proof.
  intros V Hx Hy Hz A Hin.
  assert (Q : dates_paired w /\ real_inside_display w); [|tauto].
  revert A Hin.
  apply (aggregate_invariant (fun w => dates_paired w /\ real_inside_display w)).
  - intros v. unfold dates_paired, real_inside_display; simpl. tauto.
  - intros w0 r [ds de] Hr W ((P1 & P2 & P3 & P4 & P5 & P6) & (R1 & R2 & R3 & R4)).
    pose proof (window_bounds r x y z ds de (V r Hr) Hx Hy Hz W)
      as (Ls & Le).
    unfold dates_paired, real_inside_display. destruct (is_sale r) eqn:S.
    + rewrite apply_row_sale by assumption. simpl fst; simpl snd.
      assert (De : de = end_or_start r).
      { unfold is_sale in S. apply String.eqb_eq in S.
        rewrite (window_sale r x y z S) in W.
        destruct (minus_days (start_date r) x); simpl in W; [|discriminate].
        congruence. }
      unfold merge_sale; simpl.
      split.
      * repeat split; try tauto; intros _;
          first [apply keep_min_some | apply keep_max_some].
      * repeat split; try assumption.
        -- subst de. unfold end_or_start. rewrite R1. reflexivity.
        -- apply opt_leb_keep_min; assumption.
    + destruct (is_pi r) eqn:Pi.
      * rewrite apply_row_pi by assumption. simpl fst; simpl snd.
        unfold merge_pi; simpl.
        split.
        -- repeat split; try tauto; intros _;
             first [apply keep_min_some | apply keep_max_some].
        -- repeat split; try assumption.
           ++ apply opt_leb_keep_min; assumption.
           ++ assert (Pe : pi_real_end w0 <> None -> pi_display_end w0 <> None)
                by tauto.
              destruct (end_date r) as [e|] eqn:En.
              ** destruct Le as [Le|Le].
                 --- injection Le as <-.
                     apply opt_leb_keep_max; [exact Pe | exact R4 | apply date_leb_refl].
                 --- assert (Ee : de = e).
                     { apply is_pi_true in Pi as [_ Pi]. apply String.eqb_eq in Pi.
                       rewrite (window_pi r x y z Pi), En in W. simpl in W.
                       destruct (minus_days (start_date r) y); simpl in W;
                         [|discriminate]. congruence. }
                     subst e.
                     apply opt_leb_keep_max; [exact Pe | exact R4 | apply date_leb_refl].
              ** apply opt_leb_keep_max_r; assumption.
      * rewrite apply_row_other by assumption.
        split; repeat split; tauto.
Qed.

(** A Sale and an open-ended Price Increase of one vendor *)
Lemma real_dates_inside_display_window_witness :
  real_inside_display
    (mkPlan "Acme" (Some (mkdate 2024 2 4)) (Some (mkdate 2024 2 17))
            (Some (mkdate 2024 2 2)) (Some (mkdate 2024 2 14))
            (Some (mkdate 2024 2 7)) (Some (mkdate 2024 2 17))
            (Some (mkdate 2024 2 4)) None).
Proof.
  refine (real_dates_inside_display_window
            [mkRow 1 "Acme" "Sale" (mkdate 2024 2 7) (Some (mkdate 2024 2 17));
             mkRow 2 "Acme" "Price Increase" (mkdate 2024 2 4) None]
            3 2 10 _ _ _ _ _ _ eq_refl (or_introl eq_refl)); try lia.
  intros r [<-|[<-|[]]]; reflexivity.
Defined.

(** X7: For a plan returned by the aggregator no promotion type is left half
    handled, on any day.  The statement is about the payload [main] sends
    and the keys it queues: either both Sale fields are in the payload, with
    the real dates, and no Sale key is queued for deletion; or the payload
    holds no Sale entry and both Sale keys are queued.  Likewise the Price
    Increase start is in the payload and no Price Increase key is queued, or
    the payload holds no Price Increase entry and both keys are queued. *)
Theorem no_partial_state_for_aggregated_plans (rows : list RetailPromoRow)
  (x y z : Z) (ps : list VendorPlan) (w : VendorPlan) (today : date)
  (pid : string) :
  aggregate_by_vendor rows x y z = Ok ps -> In w ps ->
  ((exists rs re,
       sale_real_start w = Some rs /\ sale_real_end w = Some re
       /\ In (mkMf pid MF_NAMESPACE MF_SALE_START "date" (isoformat rs))
             (build_payload pid w today)
       /\ In (mkMf pid MF_NAMESPACE MF_SALE_END "date" (isoformat re))
             (build_payload pid w today)
       /\ ~ In MF_SALE_START (keys_to_delete w today)
       /\ ~ In MF_SALE_END (keys_to_delete w today))
   \/ ((forall m, In m (build_payload pid w today) ->
                  key m <> MF_SALE_START /\ key m <> MF_SALE_END)
       /\ In MF_SALE_START (keys_to_delete w today)
       /\ In MF_SALE_END (keys_to_delete w today)))
  /\ ((exists rs,
          pi_real_start w = Some rs
          /\ In (mkMf pid MF_NAMESPACE MF_PI_START "date" (isoformat rs))
                (build_payload pid w today)
          /\ ~ In MF_PI_START (keys_to_delete w today)
          /\ ~ In MF_PI_END (keys_to_delete w today))
      \/ ((forall m, In m (build_payload pid w today) ->
                     key m <> MF_PI_START /\ key m <> MF_PI_END)
          /\ In MF_PI_START (keys_to_delete w today)
          /\ In MF_PI_END (keys_to_delete w today))).
Proof.
  intros A Hin.
  destruct (aggregate_dates_paired _ _ _ _ _ _ A Hin) as (P1 & P2 & P3 & P4 & P5 & P6).
  assert (NoKey : forall k, In k (keys_to_delete w today) ->
                            ((k = MF_SALE_START \/ k = MF_SALE_END)
                             /\ sale_should_exist w today = false)
                            \/ ((k = MF_PI_START \/ k = MF_PI_END)
                                /\ pi_should_exist w today = false)).
  { intros k. unfold keys_to_delete, sale_keys_to_delete, pi_keys_to_delete.
    intros H. apply in_app_or in H as [H|H].
    - destruct (sale_should_exist w today); [contradiction|].
      left. destruct H as [<-|[<-|[]]]; auto.
    - destruct (pi_should_exist w today); [contradiction|].
      right. destruct H as [<-|[<-|[]]]; auto. }
  assert (Keys : forall m, In m (build_payload pid w today) ->
                           (sale_should_exist w today = true
                            /\ (key m = MF_SALE_START \/ key m = MF_SALE_END))
                           \/ (pi_should_exist w today = true
                               /\ (key m = MF_PI_START \/ key m = MF_PI_END))).
  { intros m H. unfold build_payload in H. apply in_app_or in H as [H|H].
    - left. apply (sale_payload_keys pid w today m H).
    - right. apply (pi_payload_keys pid w today m H). }
  split.
  - destruct (sale_should_exist w today) eqn:S.
    + left.
      assert (D : sale_display_start w <> None).
      { unfold sale_should_exist in S.
        apply should_exist_spec in S as (s & e & -> & _). discriminate. }
      destruct (sale_real_start w) as [rs|] eqn:Rs; [|exfalso; tauto].
      destruct (sale_real_end w) as [re|] eqn:Re; [|exfalso; tauto].
      exists rs, re. split; [reflexivity|]. split; [reflexivity|].
      assert (E : build_payload pid w today
                  = (mkMf pid MF_NAMESPACE MF_SALE_START "date" (isoformat rs)
                     :: mkMf pid MF_NAMESPACE MF_SALE_END "date" (isoformat re)
                     :: pi_payload pid w today)).
      { unfold build_payload, sale_payload. rewrite S, Rs, Re. reflexivity. }
      rewrite E. split; [left; reflexivity|]. split; [right; left; reflexivity|].
      split; intros F; apply NoKey in F as [[_ F]|[[F|F] _]]; discriminate.
    + right. split.
      * intros m H. apply Keys in H as [[F _]|[_ [-> | ->]]];
          [discriminate | split; discriminate | split; discriminate].
      * unfold keys_to_delete, sale_keys_to_delete. rewrite S. simpl. auto.
  - destruct (pi_should_exist w today) eqn:S.
    + left.
      assert (D : pi_display_start w <> None).
      { unfold pi_should_exist in S.
        apply should_exist_spec in S as (s & e & -> & _). discriminate. }
      destruct (pi_real_start w) as [rs|] eqn:Rs; [|exfalso; tauto].
      exists rs. split; [reflexivity|]. split.
      * unfold build_payload, pi_payload. rewrite S, Rs.
        apply in_or_app. right. left. reflexivity.
      * split; intros F; apply NoKey in F as [[[F|F] _]|[_ F]]; discriminate.
    + right. split.
      * intros m H. apply Keys in H as [[_ [-> | ->]]|[F _]];
          [split; discriminate | split; discriminate | discriminate].
      * unfold keys_to_delete, sale_keys_to_delete, pi_keys_to_delete. rewrite S.
        split; apply in_or_app; right; simpl; auto.
Qed.

(** Scenario A of the specification, on a day inside the Sale window: the
    Price Increase keys are queued and no Price Increase entry is sent. *)
Lemma no_partial_state_for_aggregated_plans_witness :
  (exists rs,
      None = Some rs
      /\ In (mkMf "gid://shopify/Product/1" MF_NAMESPACE MF_PI_START "date"
                  (isoformat rs))
            (build_payload "gid://shopify/Product/1"
               (mkPlan "Acme" (Some (mkdate 2024 2 4)) (Some (mkdate 2024 2 17))
                       None None
                       (Some (mkdate 2024 2 7)) (Some (mkdate 2024 2 17)) None None)
               (mkdate 2024 2 5))
      /\ ~ In MF_PI_START
             (keys_to_delete
                (mkPlan "Acme" (Some (mkdate 2024 2 4)) (Some (mkdate 2024 2 17))
                        None None
                        (Some (mkdate 2024 2 7)) (Some (mkdate 2024 2 17)) None None)
                (mkdate 2024 2 5))
      /\ ~ In MF_PI_END
             (keys_to_delete
                (mkPlan "Acme" (Some (mkdate 2024 2 4)) (Some (mkdate 2024 2 17))
                        None None
                        (Some (mkdate 2024 2 7)) (Some (mkdate 2024 2 17)) None None)
                (mkdate 2024 2 5)))
  \/ ((forall m,
          In m (build_payload "gid://shopify/Product/1"
                  (mkPlan "Acme" (Some (mkdate 2024 2 4)) (Some (mkdate 2024 2 17))
                          None None
                          (Some (mkdate 2024 2 7)) (Some (mkdate 2024 2 17)) None None)
                  (mkdate 2024 2 5)) ->
          key m <> MF_PI_START /\ key m <> MF_PI_END)
      /\ In MF_PI_START
            (keys_to_delete
               (mkPlan "Acme" (Some (mkdate 2024 2 4)) (Some (mkdate 2024 2 17))
                       None None
                       (Some (mkdate 2024 2 7)) (Some (mkdate 2024 2 17)) None None)
               (mkdate 2024 2 5))
      /\ In MF_PI_END
            (keys_to_delete
               (mkPlan "Acme" (Some (mkdate 2024 2 4)) (Some (mkdate 2024 2 17))
                       None None
                       (Some (mkdate 2024 2 7)) (Some (mkdate 2024 2 17)) None None)
               (mkdate 2024 2 5))).
Proof.
  exact (proj2 (no_partial_state_for_aggregated_plans
          [mkRow 1 "Acme" "Sale" (mkdate 2024 2 7) (Some (mkdate 2024 2 17))]
          3 2 10 _ _ (mkdate 2024 2 5) "gid://shopify/Product/1"
          eq_refl (or_introl eq_refl))).
Defined.

(** X8: A vendor whose rows are all of an unknown entry type still gets a plan;
    the plan holds no date, nothing is written for it and all four keys are
    queued for deletion on every product of the vendor. *)
Theorem unknown_types_delete_everything (rows : list RetailPromoRow) (x y z : Z)
  (ps : list VendorPlan) (w : VendorPlan) (today : date) (pid : string) :
  aggregate_by_vendor rows x y z = Ok ps -> In w ps ->
  (forall r, In r rows -> vendor r = plan_vendor w ->
             is_sale r = false /\ is_pi r = false) ->
  w = new_plan (plan_vendor w)
  /\ build_payload pid w today = []
  /\ keys_to_delete w today = all_keys.
Proof.
  intros A Hin U.
  assert (E : w = new_plan (plan_vendor w)).
  { pose proof (aggregate_In_plan_of _ _ _ _ _ _ A Hin) as P.
    destruct (aggregate_current _ _ _ _ _ _ _ A P) as (d & L & C).
    clear A Hin P. set (v := plan_vendor w) in *. rewrite <- C.
    assert (G : forall rows0 d0 d1,
               (forall r, In r rows0 -> vendor r = v ->
                          is_sale r = false /\ is_pi r = false) ->
               agg_loop x y z rows0 d0 = Ok d1 ->
               current d0 v = new_plan v -> current d1 v = new_plan v).
    { induction rows0 as [|r rows0 IH]; intros d0 d1 U0; simpl.
      - intros [= <-]. auto.
      - destruct (agg_step x y z d0 r) as [d2|] eqn:S; simpl; [|discriminate].
        intros H C0. apply (IH d2 d1); [intros r' Hr'; apply U0; right; exact Hr' | exact H |].
        destruct (agg_step_current _ _ _ _ _ _ S) as (win & _ & _ & Cs).
        rewrite Cs. destruct (String.eqb (vendor r) v) eqn:Ev; [|exact C0].
        apply String.eqb_eq in Ev.
        destruct (U0 r (or_introl eq_refl) Ev) as (Hs & Hp).
        rewrite apply_row_other by assumption. exact C0. }
    apply (G rows [] d U L). reflexivity. }
  split; [exact E|]. rewrite E. split; reflexivity.
Qed.

(** A row typed "Clearance" *)
Lemma unknown_types_delete_everything_witness :
  keys_to_delete (mkPlan "Acme" None None None None None None None None)
                 (mkdate 2024 2 5)
  = all_keys.
Proof.
  refine (proj2 (proj2 (unknown_types_delete_everything
            [mkRow 1 "Acme" "Clearance" (mkdate 2024 2 7) None] 3 2 10
            _ _ (mkdate 2024 2 5) "gid://shopify/Product/1"
            eq_refl (or_introl eq_refl) _))).
  intros r [<-|[]] _. split; reflexivity.
Defined.

(** ** What is written and what is deleted *)

(** X9: No key is written and queued for deletion in the same pass: a key of
    the payload is never in the list of keys to delete.  Every entry of the
    payload belongs to the product, to the namespace "custom" and has the
    type "date". *)
Theorem written_keys_are_not_deleted (w : VendorPlan) (today : date)
  (pid : string) (m : Metafield) :
  In m (build_payload pid w today) ->
  ~ In (key m) (keys_to_delete w today)
  /\ ownerId m = pid /\ namespace m = MF_NAMESPACE /\ type_ m = "date".
Proof.
  unfold build_payload, keys_to_delete, sale_payload, pi_payload,
    sale_keys_to_delete, pi_keys_to_delete.
  intros H. apply in_app_or in H.
  destruct (sale_should_exist w today), (pi_should_exist w today);
    destruct (sale_real_start w), (sale_real_end w), (pi_real_start w),
      (pi_real_end w); simpl in H;
    repeat match goal with
           | H : _ \/ _ |- _ => destruct H as [H|H]
           | H : False |- _ => contradiction
           end;
    subst m; simpl; (split; [|auto]);
    intros F; repeat (destruct F as [F|F]; [discriminate|]); exact F.
Qed.

(** Scenario A of the specification: the Sale start is written, not deleted. *)
Lemma written_keys_are_not_deleted_witness :
  ~ In MF_SALE_START
       (keys_to_delete
          (mkPlan "Acme" (Some (mkdate 2024 2 4)) (Some (mkdate 2024 2 17))
                  None None
                  (Some (mkdate 2024 2 7)) (Some (mkdate 2024 2 17)) None None)
          (mkdate 2024 2 5)).
Proof.
  exact (proj1 (written_keys_are_not_deleted
          (mkPlan "Acme" (Some (mkdate 2024 2 4)) (Some (mkdate 2024 2 17))
                  None None
                  (Some (mkdate 2024 2 7)) (Some (mkdate 2024 2 17)) None None)
          (mkdate 2024 2 5) "gid://shopify/Product/1"
          (build_date_metafield "gid://shopify/Product/1" MF_NAMESPACE
                                MF_SALE_START (mkdate 2024 2 7))
          (or_introl eq_refl))).
Defined.

(** X10: While a Price Increase is displayed and its real end is unknown, the
    end field is left alone: it is not in the payload and not in the list of
    keys to delete, so an end date written by an earlier run stays on the
    product. *)
Theorem open_ended_pi_leaves_end_field (w : VendorPlan) (today : date)
  (pid : string) :
  pi_should_exist w today = true -> pi_real_end w = None ->
  (forall m, In m (build_payload pid w today) -> key m <> MF_PI_END)
  /\ ~ In MF_PI_END (keys_to_delete w today).
Proof.
  intros S E. split.
  - intros m H. unfold build_payload, sale_payload, pi_payload in H.
    rewrite S, E in H. apply in_app_or in H.
    destruct (sale_should_exist w today), (sale_real_start w), (sale_real_end w),
      (pi_real_start w); simpl in H;
      repeat match goal with
             | H : _ \/ _ |- _ => destruct H as [H|H]
             | H : False |- _ => contradiction
             end;
      subst m; discriminate.
  - unfold keys_to_delete, sale_keys_to_delete, pi_keys_to_delete. rewrite S.
    destruct (sale_should_exist w today); simpl;
      intros F; repeat (destruct F as [F|F]; [discriminate|]); exact F.
Qed.

(** Scenario B of the specification, seen on 2024-02-10 *)
Lemma open_ended_pi_leaves_end_field_witness :
  ~ In MF_PI_END
       (keys_to_delete
          (mkPlan "Acme" None None (Some (mkdate 2024 2 2)) (Some (mkdate 2024 2 14))
                  None None (Some (mkdate 2024 2 4)) None)
          (mkdate 2024 2 10)).
Proof.
  exact (proj2 (open_ended_pi_leaves_end_field
          (mkPlan "Acme" None None (Some (mkdate 2024 2 2)) (Some (mkdate 2024 2 14))
                  None None (Some (mkdate 2024 2 4)) None)
          (mkdate 2024 2 10) "gid://shopify/Product/1" eq_refl eq_refl)).
Defined.

(** ** The id map of [get_metafield_ids] *)

Lemma none_for_get (keys : list string) (k : string) :
  dict_get k (none_for keys)
  = if existsb (String.eqb k) keys then Some (@None string) else None.
Proof.
  unfold none_for.
  assert (G : forall out,
             dict_get k (fold_left (fun o k0 => dict_set k0 None o) keys out)
             = if existsb (String.eqb k) keys then Some (@None string)
               else dict_get k out).
  { induction keys as [|k0 keys IH]; intros out; simpl; [reflexivity|].
    rewrite IH, dict_get_set. rewrite (String.eqb_sym k k0).
    destruct (String.eqb k0 k); simpl; [|reflexivity].
    destruct (existsb (String.eqb k) keys); reflexivity. }
  rewrite G. reflexivity.
Qed.

Lemma fill_ids_get (mfs : list (option MfNode)) (out : dict (option string))
  (k : string) :
  dict_get k (fill_ids mfs out)
  = match dict_get k out with
    | None => None
    | Some v => Some (match last_id k mfs with Some i => Some i | None => v end)
    end.
Proof.
  unfold fill_ids.
  assert (G : forall l out0,
             dict_get k (fold_left
                           (fun out1 mf =>
                              match mf with
                              | Some n =>
                                  match dict_get (mf_key n) out1 with
                                  | Some _ => dict_set (mf_key n) (Some (mf_id n)) out1
                                  | None => out1
                                  end
                              | None => out1
                              end) (rev l) out0)
             = match dict_get k out0 with
               | None => None
               | Some v => Some (match last_id k (rev l) with
                                 | Some i => Some i
                                 | None => v
                                 end)
               end).
  { clear out. induction l as [|mf l IH]; intros out0; simpl.
    - destruct (dict_get k out0); reflexivity.
    - rewrite fold_left_app. simpl.
      assert (L : last_id k (rev l ++ [mf])
                  = match mf with
                    | Some n => if String.eqb (mf_key n) k then Some (mf_id n)
                                else last_id k (rev l)
                    | None => last_id k (rev l)
                    end).
      { generalize (rev l). clear. intros l'.
        induction l' as [|a l' IH']; simpl.
        - destruct mf as [n|]; [|reflexivity].
          destruct (String.eqb (mf_key n) k); reflexivity.
        - rewrite IH'. destruct mf as [n|].
          + destruct (String.eqb (mf_key n) k); [reflexivity|].
            reflexivity.
          + reflexivity. }
      rewrite L. set (mid := fold_left _ (rev l) out0).
      assert (M : dict_get k mid
                  = match dict_get k out0 with
                    | None => None
                    | Some v => Some (match last_id k (rev l) with
                                      | Some i => Some i
                                      | None => v
                                      end)
                    end) by apply IH.
      destruct mf as [n|]; [|exact M].
      destruct (dict_get (mf_key n) mid) eqn:Gn.
      + rewrite dict_get_set. destruct (String.eqb (mf_key n) k) eqn:E.
        * apply String.eqb_eq in E. rewrite E in Gn. rewrite Gn in M.
          destruct (dict_get k out0); [reflexivity | discriminate].
        * exact M.
      + destruct (String.eqb (mf_key n) k) eqn:E; [|exact M].
        apply String.eqb_eq in E. rewrite E in Gn. rewrite Gn in M.
        destruct (dict_get k out0); [discriminate | exact Gn]. }
  specialize (G (rev mfs) out). rewrite rev_involutive in G. exact G.
Qed.

Section IdMap.

Variable world : Type.
Variable gql_product_metafields :
  string -> list (string * string) -> world -> result (list (option MfNode)).

(** X11: [get_metafield_ids] answers for the requested keys and for nothing
    else: a requested key is mapped to the id of the last answered node filed
    under it, or to None when there is no such node; a key that was not
    requested is not in the map, even if the shop answered a node for it.
    An exception of the query is passed on. *)
Theorem get_metafield_ids_lookup (pid ns : string) (keys : list string)
  (s : world) :
  match gql_product_metafields pid (map (fun k => (ns, k)) keys) s with
  | Ok mfs =>
      exists id_map,
        get_metafield_ids world gql_product_metafields pid ns keys s = Ok id_map
        /\ forall k, dict_get k id_map
                     = if existsb (String.eqb k) keys then Some (last_id k mfs)
                       else None
  | Raise e =>
      get_metafield_ids world gql_product_metafields pid ns keys s = Raise e
  end.
Proof.
  unfold get_metafield_ids.
  destruct (gql_product_metafields pid (map (fun k => (ns, k)) keys) s) as [mfs|e];
    simpl; [|reflexivity].
  eexists. split; [reflexivity|]. intros k.
  rewrite fill_ids_get, none_for_get.
  destruct (existsb (String.eqb k) keys); [|reflexivity].
  destruct (last_id k mfs); reflexivity.
Qed.

End IdMap.

(** ** Strings: [strip] and [normalize] as normal forms *)

Lemma rstrip_by_idem (p : ascii -> bool) (s : string) :
  rstrip_by p (rstrip_by p s) = rstrip_by p s.
Proof.
  induction s as [|c s IH]; simpl; [reflexivity|].
  destruct (p c && is_empty (rstrip_by p s))%bool eqn:E; simpl; [reflexivity|].
  rewrite IH, E. reflexivity.
Qed.

Lemma lstrip_by_head (p : ascii -> bool) (s : string) :
  match lstrip_by p s with
  | EmptyString => True
  | String c _ => p c = false
  end.
Proof.
  induction s as [|c s IH]; simpl; [exact I|].
  destruct (p c) eqn:E; [exact IH | simpl; exact E].
Qed.

Lemma lstrip_by_fixed (p : ascii -> bool) (s : string) :
  match s with EmptyString => True | String c _ => p c = false end ->
  lstrip_by p s = s.
Proof. destruct s as [|c s]; simpl; [reflexivity | intros ->; reflexivity]. Qed.

Lemma strip_by_head (p : ascii -> bool) (s : string) :
  match strip_by p s with
  | EmptyString => True
  | String c _ => p c = false
  end.
Proof.
  unfold strip_by. pose proof (lstrip_by_head p s) as H.
  destruct (lstrip_by p s) as [|c t]; simpl; [exact I|].
  rewrite H. simpl. exact H.
Qed.

Lemma strip_by_idem (p : ascii -> bool) (s : string) :
  strip_by p (strip_by p s) = strip_by p s.
Proof.
  unfold strip_by at 1. rewrite (lstrip_by_fixed p _ (strip_by_head p s)).
  unfold strip_by. apply rstrip_by_idem.
Qed.

Lemma strip_idem (s : string) : strip (strip s) = strip s.
Proof. apply strip_by_idem. Qed.

Lemma lstrip_app_space (w s : string) :
  all_space w = true -> lstrip_by is_space (w ++ s) = lstrip_by is_space s.
Proof.
  induction w as [|c w IH]; simpl; [reflexivity|].
  intros H. apply andb_prop in H as [-> H]. auto.
Qed.

Lemma rstrip_all_space (w : string) :
  all_space w = true -> rstrip_by is_space w = EmptyString.
Proof.
  induction w as [|c w IH]; simpl; [reflexivity|].
  intros H. apply andb_prop in H as [-> H]. rewrite (IH H). reflexivity.
Qed.

Lemma rstrip_app_space (s w : string) :
  all_space w = true -> rstrip_by is_space (s ++ w) = rstrip_by is_space s.
Proof.
  intros H. induction s as [|c s IH]; simpl.
  - apply rstrip_all_space, H.
  - rewrite IH. reflexivity.
Qed.

Lemma lstrip_all_space (w : string) :
  all_space w = true -> lstrip_by is_space w = EmptyString.
Proof.
  induction w as [|c w IH]; simpl; [reflexivity|].
  intros H. apply andb_prop in H as [-> H]. auto.
Qed.

Lemma lstrip_app_r (s w : string) :
  all_space w = true ->
  rstrip_by is_space (lstrip_by is_space (s ++ w))
  = rstrip_by is_space (lstrip_by is_space s).
Proof.
  intros H. induction s as [|c s IH]; simpl.
  - rewrite lstrip_all_space by exact H. reflexivity.
  - destruct (is_space c); [exact IH|].
    change (String c (s ++ w)) with (String c s ++ w).
    apply rstrip_app_space, H.
Qed.

(** White space around a text is invisible to [strip]. *)
Lemma strip_pad (w1 w2 s : string) :
  all_space w1 = true -> all_space w2 = true ->
  strip (w1 ++ s ++ w2) = strip s.
Proof.
  intros H1 H2. unfold strip, strip_by.
  rewrite lstrip_app_space by exact H1. apply lstrip_app_r, H2.
Qed.

(** *** Words *)

Lemma lower_char_idem (c : ascii) : lower_char (lower_char c) = lower_char c.
Proof. destruct c as [[] [] [] [] [] [] [] []]; reflexivity. Qed.

Lemma lower_idem (s : string) : lower (lower s) = lower s.
Proof.
  unfold lower. induction s as [|c s IH]; simpl; [reflexivity|].
  rewrite lower_char_idem, IH. reflexivity.
Qed.

Lemma is_word_cons (c : ascii) (w : string) :
  is_word (String c w) = true ->
  is_space c = false /\ (w = EmptyString \/ is_word w = true).
Proof.
  unfold is_word. simpl. intros H. apply andb_prop in H as [Hc Hw].
  apply negb_true_iff in Hc. split; [exact Hc|].
  destruct w; [left; reflexivity | right; exact Hw].
Qed.

Lemma split_ws_cons (c : ascii) (t : string) :
  is_space c = false ->
  split_ws (String c t)
  = if starts_space t then String c EmptyString :: split_ws t
    else match split_ws t with
         | w :: ws => String c w :: ws
         | [] => [String c EmptyString]
         end.
Proof. intros H. simpl. rewrite H. reflexivity. Qed.

Lemma split_ws_word (w : string) :
  is_word w = true -> split_ws w = [w].
Proof.
  induction w as [|c w IH]; [discriminate|].
  intros H. apply is_word_cons in H as [Hc [->|Hw]].
  - simpl. rewrite Hc. reflexivity.
  - rewrite (split_ws_cons c w Hc), (IH Hw).
    destruct w as [|c' w']; [discriminate|].
    apply is_word_cons in Hw as [Hc' _]. simpl. rewrite Hc'. reflexivity.
Qed.

Lemma split_ws_word_app (w rest : string) :
  is_word w = true ->
  split_ws (w ++ " " ++ rest) = w :: split_ws rest.
Proof.
  induction w as [|c w IH]; [discriminate|].
  intros H. apply is_word_cons in H as [Hc [->|Hw]].
  - simpl. rewrite Hc. reflexivity.
  - change (String c w ++ " " ++ rest) with (String c (w ++ " " ++ rest)).
    rewrite (split_ws_cons c _ Hc), (IH Hw).
    destruct w as [|c' w']; [discriminate|].
    apply is_word_cons in Hw as [Hc' _]. simpl. rewrite Hc'. reflexivity.
Qed.

Lemma split_ws_join (ws : list string) :
  forallb is_word ws = true -> split_ws (join " " ws) = ws.
Proof.
  induction ws as [|w ws IH]; [reflexivity|].
  intros H. apply andb_prop in H as [Hw Hws].
  destruct ws as [|w' ws'].
  - apply split_ws_word, Hw.
  - change (join " " (w :: w' :: ws')) with (w ++ " " ++ join " " (w' :: ws')).
    rewrite (split_ws_word_app w _ Hw), (IH Hws). reflexivity.
Qed.

Lemma split_ws_words (s : string) : forallb is_word (split_ws s) = true.
Proof.
  induction s as [|c s IH]; simpl; [reflexivity|].
  destruct (is_space c) eqn:E; [exact IH|].
  destruct (starts_space s) eqn:S.
  - simpl. unfold is_word at 1. simpl. rewrite E. simpl. exact IH.
  - destruct (split_ws s) as [|w ws] eqn:W.
    + simpl. unfold is_word. simpl. rewrite E. reflexivity.
    + simpl in *. apply andb_prop in IH as [Hw Hws]. rewrite Hws, andb_true_r.
      unfold is_word in *. simpl. rewrite E. simpl.
      destruct w; [discriminate | exact Hw].
Qed.

Lemma is_word_lower (w : string) : is_word (lower w) = is_word w.
Proof.
  unfold is_word. destruct w as [|c w]; [reflexivity|].
  simpl. f_equal.
  - rewrite is_space_lower_char. reflexivity.
  - induction w as [|c' w IH]; simpl; [reflexivity|].
    rewrite is_space_lower_char. f_equal. exact IH.
Qed.

Lemma forallb_word_lower (ws : list string) :
  forallb is_word (map lower ws) = forallb is_word ws.
Proof.
  induction ws as [|w ws IH]; simpl; [reflexivity|].
  rewrite is_word_lower, IH. reflexivity.
Qed.

Lemma normalize_idem (s : string) : normalize (normalize s) = normalize s.
Proof.
  rewrite (normalize_words (normalize s)), (normalize_words s).
  rewrite split_ws_join.
  - rewrite map_map. f_equal. apply map_ext. intros w. apply lower_idem.
  - rewrite forallb_word_lower. apply split_ws_words.
Qed.

(** X12: [normalize] gives a normal form: normalising twice changes nothing, and
    two strings have the same normal form exactly when they consist of the
    same words up to case.  So the comparisons [normalize(a) == normalize(b)]
    of the client match titles and vendors by their lower-cased words. *)
Theorem normalize_normal_form (s s' : string) :
  normalize (normalize s) = normalize s
  /\ (normalize s = normalize s'
      <-> map lower (split_ws s) = map lower (split_ws s')).
Proof.
  split; [apply normalize_idem|].
  rewrite !normalize_words. split; [|intros ->; reflexivity].
  intros H. apply (f_equal split_ws) in H.
  rewrite !split_ws_join in H; [exact H | |];
    rewrite forallb_word_lower; apply split_ws_words.
Qed.

(** ** The rows the reader returns *)

Section ReaderMore.

Variable strptime : string -> string -> option date.
Variable fromisoformat : string -> option date.

Lemma text_cell_stripped (v : dbvalue) (s : string) :
  text_cell v = Ok s -> strip s = s.
Proof.
  destruct v as [|n|t|d|d m]; simpl; try discriminate.
  - intros [= <-]. reflexivity.
  - destruct n; [intros [= <-]; reflexivity | discriminate | discriminate].
  - intros [= <-]. apply strip_idem.
Qed.

Lemma read_row_clean (r : RawRow) (row : RetailPromoRow) :
  read_row strptime fromisoformat r = Ok (Some row) ->
  is_empty (vendor row) = false /\ is_empty (entry_type row) = false
  /\ strip (vendor row) = vendor row /\ strip (entry_type row) = entry_type row
  /\ text_cell (raw_Vendor r) = Ok (vendor row)
  /\ text_cell (raw_EntryType r) = Ok (entry_type row)
  /\ to_date_only strptime fromisoformat (raw_Date_of_Start r) = Some (start_date row)
  /\ to_date_only strptime fromisoformat (raw_Date_of_End r) = end_date row
  /\ int_cell (raw_ID r) = Ok (id row).
Proof.
  unfold read_row.
  destruct (text_cell (raw_Vendor r)) as [v|] eqn:Ev; simpl; [|discriminate].
  destruct (text_cell (raw_EntryType r)) as [t|] eqn:Et; simpl; [|discriminate].
  destruct (is_empty v || is_empty t)%bool eqn:E; [discriminate|].
  destruct (to_date_only strptime fromisoformat (raw_Date_of_Start r)) as [s|];
    [|discriminate].
  destruct (int_cell (raw_ID r)) as [i|]; simpl; [|discriminate].
  intros [= <-]. simpl. apply orb_false_elim in E as [E1 E2].
  repeat split; auto; eapply text_cell_stripped; eassumption.
Qed.

Lemma read_rows_exact (raw : list RawRow) (rows : list RetailPromoRow) :
  read_rows strptime fromisoformat raw = Ok rows
  <-> exists os,
        Forall2 (fun r o => read_row strptime fromisoformat r = Ok o) raw os
        /\ rows = somes os.
Proof.
  revert rows. induction raw as [|r raw IH]; intros rows; simpl.
  - split.
    + intros [= <-]. exists []. split; [constructor | reflexivity].
    + intros (os & F & ->). inversion F. reflexivity.
  - split.
    + destruct (read_row strptime fromisoformat r) as [o|] eqn:R; simpl;
        [|discriminate].
      destruct (read_rows strptime fromisoformat raw) as [rest|] eqn:Rest; simpl;
        [|discriminate].
      intros [= <-]. destruct (proj1 (IH rest) eq_refl) as (os & F & ->).
      exists (o :: os). split; [constructor; assumption|].
      destruct o; reflexivity.
    + intros (os & F & ->). inversion F as [|r0 o raw0 os0 R F0]; subst.
      rewrite R. simpl.
      rewrite (proj2 (IH (somes os0)) (ex_intro _ os0 (conj F0 eq_refl))). simpl.
      destruct o; reflexivity.
Qed.

Lemma read_rows_raise (raw : list RawRow) (e : exn) :
  read_rows strptime fromisoformat raw = Raise e
  <-> exists before r after,
        raw = (before ++ r :: after)%list
        /\ Forall (fun r' => returns (read_row strptime fromisoformat r')) before
        /\ read_row strptime fromisoformat r = Raise e.
Proof.
  induction raw as [|r raw IH]; simpl.
  - split; [discriminate|]. intros (before & r & after & E & _).
    destruct before; discriminate.
  - split.
    + destruct (read_row strptime fromisoformat r) as [o|e'] eqn:R; simpl.
      * destruct (read_rows strptime fromisoformat raw) as [rest|e'']; simpl;
          [discriminate|].
        intros [= ->]. destruct (proj1 IH eq_refl) as (before & r1 & after & -> & F & R1).
        exists (r :: before), r1, after. split; [reflexivity|].
        split; [|exact R1]. constructor; [exists o; exact R | exact F].
      * intros [= ->]. exists [], r, raw. split; [reflexivity|].
        split; [constructor | exact R].
    + intros (before & r1 & after & E & F & R1).
      destruct before as [|b before]; simpl in E.
      * injection E as -> ->. rewrite R1. reflexivity.
      * injection E as -> ->. inversion F as [|b0 l0 (o & Rb) F0]; subst.
        rewrite Rb. simpl.
        rewrite (proj2 IH (ex_intro _ before (ex_intro _ r1 (ex_intro _ after
                   (conj eq_refl (conj F0 R1)))))). reflexivity.
Qed.

(** X13: The rows the reader returns are exactly the readings of the fetched
    rows, in the order they were fetched, with the skipped rows left out and
    nothing else; the reader raises exactly when reading one fetched row
    raises, and then with the exception of the first such row.  So there are
    never more rows than were fetched, and every returned row has a vendor
    and an entry type that are not empty and carry no white space at either
    end. *)
Theorem reader_rows_are_clean (raw : list RawRow) (rows : list RetailPromoRow) :
  (read_rows strptime fromisoformat raw = Ok rows
   <-> exists os,
         Forall2 (fun r o => read_row strptime fromisoformat r = Ok o) raw os
         /\ rows = somes os)
  /\ (forall e,
         read_rows strptime fromisoformat raw = Raise e
         <-> exists before r after,
               raw = (before ++ r :: after)%list
               /\ Forall (fun r' => returns (read_row strptime fromisoformat r'))
                         before
               /\ read_row strptime fromisoformat r = Raise e)
  /\ (read_rows strptime fromisoformat raw = Ok rows ->
      is_subsequence (read_as strptime fromisoformat) rows raw
      /\ (List.length rows <= List.length raw)%nat
      /\ forall row, In row rows ->
           is_empty (vendor row) = false /\ is_empty (entry_type row) = false
           /\ strip (vendor row) = vendor row
           /\ strip (entry_type row) = entry_type row).
Proof.
  split; [apply read_rows_exact|]. split; [intros e; apply read_rows_raise|].
  revert rows. induction raw as [|r raw IH]; intros rows; simpl.
  - intros [= <-]. simpl. repeat split; [lia | contradiction..].
  - destruct (read_row strptime fromisoformat r) as [o|] eqn:R; simpl; [|discriminate].
    destruct (read_rows strptime fromisoformat raw) as [rest|]; simpl; [|discriminate].
    destruct (IH rest eq_refl) as (S & L & C).
    intros [= <-]. destruct o as [row|].
    + split; [|split].
      * simpl. left. split; [exact R | exact S].
      * simpl. lia.
      * intros row' [<-|Hin]; [|apply C, Hin].
        destruct (read_row_clean r row R) as (A1 & A2 & A3 & A4 & _). auto.
    + split; [|split].
      * destruct rest; simpl; [exact I | right; exact S].
      * lia.
      * exact C.
Qed.

Lemma text_cell_pad (w1 w2 : string) (v : dbvalue) :
  all_space w1 = true -> all_space w2 = true ->
  text_cell (pad_cell w1 w2 v) = text_cell v.
Proof.
  intros H1 H2. destruct v; simpl; try reflexivity.
  rewrite strip_pad by assumption. reflexivity.
Qed.

Lemma to_date_only_pad (w1 w2 : string) (v : dbvalue) :
  all_space w1 = true -> all_space w2 = true ->
  to_date_only strptime fromisoformat (pad_cell w1 w2 v)
  = to_date_only strptime fromisoformat v.
Proof.
  intros H1 H2. destruct v; simpl; try reflexivity.
  rewrite strip_pad by assumption. reflexivity.
Qed.

(** X14: White space around the text of the vendor, the entry type and the two
    dates of a fetched row does not change what is read from it: the same
    row, the same skip, the same exception. *)
Theorem reader_ignores_padding (w1 w2 : string) (r : RawRow) :
  all_space w1 = true -> all_space w2 = true ->
  read_row strptime fromisoformat (pad_row w1 w2 r)
  = read_row strptime fromisoformat r.
Proof.
  intros H1 H2. unfold read_row, pad_row. simpl.
  rewrite !text_cell_pad, !to_date_only_pad by assumption. reflexivity.
Qed.

End ReaderMore.

(** Two fetched rows, the first without a start date *)
Lemma reader_rows_are_clean_witness :
  read_rows rejecting_strptime rejecting_fromisoformat
    [mkRaw (VInt 1) (VStr "Acme") (VStr "Sale") VNone VNone;
     mkRaw (VInt 2) (VStr "  Bolt ") (VStr "Sale ")
           (VDate (mkdate 2024 2 7)) (VDate (mkdate 2024 2 17))]
  = Ok [mkRow 2 "Bolt" "Sale" (mkdate 2024 2 7) (Some (mkdate 2024 2 17))].
Proof.
  apply (proj2 (proj1 (reader_rows_are_clean
          rejecting_strptime rejecting_fromisoformat
          [mkRaw (VInt 1) (VStr "Acme") (VStr "Sale") VNone VNone;
           mkRaw (VInt 2) (VStr "  Bolt ") (VStr "Sale ")
                 (VDate (mkdate 2024 2 7)) (VDate (mkdate 2024 2 17))]
          [mkRow 2 "Bolt" "Sale" (mkdate 2024 2 7) (Some (mkdate 2024 2 17))]))).
  exists [None; Some (mkRow 2 "Bolt" "Sale" (mkdate 2024 2 7) (Some (mkdate 2024 2 17)))].
  split; [repeat constructor | reflexivity].
Defined.

(** A row padded with a tab in front and two blanks behind *)
Lemma reader_ignores_padding_witness :
  read_row rejecting_strptime rejecting_fromisoformat
    (mkRaw (VInt 7) (VStr (String (ascii_of_nat 9) "Acme  ")) (VStr (String (ascii_of_nat 9) "Sale  "))
           (VDate (mkdate 2024 2 7)) VNone)
  = read_row rejecting_strptime rejecting_fromisoformat
      (mkRaw (VInt 7) (VStr "Acme") (VStr "Sale") (VDate (mkdate 2024 2 7)) VNone).
Proof.
  exact (reader_ignores_padding rejecting_strptime rejecting_fromisoformat
           (String (ascii_of_nat 9) EmptyString) "  "
           (mkRaw (VInt 7) (VStr "Acme") (VStr "Sale") (VDate (mkdate 2024 2 7)) VNone)
           eq_refl eq_refl).
Defined.

(** ** The Date Normalizer: stability *)

Lemma parse_mm_dd_output (ny : Z) (s : option string) (dy : option Z) (out : string) :
  parse_mm_dd ny s dy = Ok out ->
  strip out = out /\ is_empty out = false /\ already_iso out = true.
Proof.
  rewrite parse_mm_dd_unfold. cbv zeta.
  set (t := strip (match s with Some s0 => s0 | None => EmptyString end)).
  destruct (is_empty t) eqn:E; [discriminate|].
  destruct (already_iso t) eqn:I.
  - intros [= <-]. repeat split; [|exact E | exact I].
    unfold t. apply strip_idem.
  - destruct (split_md t separators) as [[m d]|]; simpl; [|discriminate].
    destruct (date_new (pick_year ny dy) m d) as [dt|] eqn:D; simpl; [|discriminate].
    intros [= <-]. apply date_new_ok in D as [V ->].
    apply iso_pattern_facts, isoformat_iso_pattern, V.
Qed.

(** X15: The normaliser is stable.  White space around the text does not change
    the outcome; and a text it returns is returned unchanged when it is
    normalised again, whatever the clock and the default year are then. *)
Theorem parse_mm_dd_stable (ny : Z) (dy : option Z) :
  (forall w1 w2 s,
      all_space w1 = true -> all_space w2 = true ->
      parse_mm_dd ny (Some (w1 ++ s ++ w2)) dy = parse_mm_dd ny (Some s) dy)
  /\ (forall s out,
         parse_mm_dd ny s dy = Ok out ->
         forall ny' dy', parse_mm_dd ny' (Some out) dy' = Ok out).
Proof.
  split.
  - intros w1 w2 s H1 H2. rewrite !parse_mm_dd_unfold. cbv zeta.
    rewrite strip_pad by assumption. reflexivity.
  - intros s out H ny' dy'.
    destruct (parse_mm_dd_output ny s dy out H) as (S & E & I).
    rewrite parse_mm_dd_unfold. cbv zeta. rewrite S, E, I. reflexivity.
Qed.

(** " 2/5 " in 2024 *)
Lemma parse_mm_dd_stable_witness :
  parse_mm_dd 2024 (Some (" " ++ "2/5" ++ " ")) None = parse_mm_dd 2024 (Some "2/5") None
  /\ parse_mm_dd 1999 (Some "2024-02-05") (Some 2030) = Ok "2024-02-05".
Proof.
  split.
  - exact (proj1 (parse_mm_dd_stable 2024 None) " " " " "2/5" eq_refl eq_refl).
  - exact (proj2 (parse_mm_dd_stable 2024 None) (Some "2/5") "2024-02-05" eq_refl
             1999 (Some 2030)).
Defined.

(** X16: The year of a month.day text.  When a default year is given and is
    not 0, every result for a text that does not pass the ISO test is the ISO
    form of a calendar date of that default year, whatever the clock says.
    Without a default year, or with the default year 0, which counts as not
    given, it is the ISO form of a date of the year of the clock. *)
Theorem parse_mm_dd_year (ny : Z) (s : option string) :
  let t := strip (match s with Some s => s | None => EmptyString end) in
  (forall y out,
      y <> 0 -> already_iso t = false ->
      parse_mm_dd ny s (Some y) = Ok out ->
      exists m d, out = isoformat (mkdate y m d) /\ valid_ymd y m d = true)
  /\ (forall dy out,
         dy = None \/ dy = Some 0 -> already_iso t = false ->
         parse_mm_dd ny s dy = Ok out ->
         exists m d, out = isoformat (mkdate ny m d) /\ valid_ymd ny m d = true)
  /\ (forall y ny', y <> 0 -> parse_mm_dd ny s (Some y) = parse_mm_dd ny' s (Some y))
  /\ parse_mm_dd ny s (Some 0) = parse_mm_dd ny s None.
Proof.
  cbv zeta.
  assert (G : forall dy out,
             already_iso (strip (match s with Some s0 => s0 | None => EmptyString end))
             = false ->
             parse_mm_dd ny s dy = Ok out ->
             exists m d, out = isoformat (mkdate (pick_year ny dy) m d)
                         /\ valid_ymd (pick_year ny dy) m d = true).
  { intros dy out I. rewrite parse_mm_dd_unfold. cbv zeta. rewrite I.
    destruct (is_empty _); [discriminate|].
    destruct (split_md _ separators) as [[m d]|]; simpl; [|discriminate].
    destruct (date_new (pick_year ny dy) m d) as [dt|] eqn:D; simpl; [|discriminate].
    intros [= <-]. apply date_new_ok in D as [V ->]. eauto. }
  split; [|split; [|split]].
  - intros y out Hy I H. destruct (G (Some y) out I H) as (m & d & E & V).
    unfold pick_year in E, V. destruct (Z.eqb_spec y 0); [contradiction|]. eauto.
  - intros dy out [-> | ->] I H; destruct (G _ out I H) as (m & d & E & V);
      simpl in E, V; eauto.
  - intros y ny' Hy. unfold parse_mm_dd, pick_year.
    destruct (Z.eqb_spec y 0); [contradiction | reflexivity].
  - reflexivity.
Qed.

(** "2.7" with the default year 2026, read in 2031 *)
Lemma parse_mm_dd_year_witness :
  exists m d, "2026-02-07" = isoformat (mkdate 2026 m d) /\ valid_ymd 2026 m d = true.
Proof.
  refine (proj1 (parse_mm_dd_year 2031 (Some "2.7")) 2026 "2026-02-07" _ eq_refl eq_refl).
  lia.
Defined.

(** ** The payload of the test script *)

(** X17: [build_metafields] accepts exactly the two type names "retail_sale" and
    "price_increase", spelled as they are, and raises ValueError for every
    other text.  When it returns, the payload has two entries, the start
    entry first, both for the given product, in the namespace "custom", of
    type "date", with the two texts as their values; and their keys are not
    among the four keys the synchronisation script writes and deletes, so the
    two scripts address different fields. *)
Theorem build_metafields_spec (product_id promo_type start_iso end_iso : string) :
  match build_metafields product_id promo_type start_iso end_iso with
  | Ok l =>
      (promo_type = "retail_sale" \/ promo_type = "price_increase")
      /\ (exists k_start k_end,
             l = [mkMf product_id "custom" k_start "date" start_iso;
                  mkMf product_id "custom" k_end "date" end_iso]
             /\ k_start <> k_end)
      /\ (forall m, In m l -> ~ In (key m) all_keys)
  | Raise e =>
      e = ValueError
      /\ promo_type <> "retail_sale" /\ promo_type <> "price_increase"
  end.
Proof.
  unfold build_metafields.
  destruct (String.eqb_spec promo_type "retail_sale") as [->|N1].
  - simpl. split; [left; reflexivity|]. split.
    + eexists _, _. split; [reflexivity | discriminate].
    + intros m [<-|[<-|[]]]; simpl;
        intros F; repeat (destruct F as [F|F]; [discriminate|]); exact F.
  - destruct (String.eqb_spec promo_type "price_increase") as [->|N2].
    + simpl. split; [right; reflexivity|]. split.
      * eexists _, _. split; [reflexivity | discriminate].
      * intros m [<-|[<-|[]]]; simpl;
          intros F; repeat (destruct F as [F|F]; [discriminate|]); exact F.
    + simpl. auto.
Qed.

(** ** The request loop of [ShopifyClient.graphql] *)

Section GraphqlFacts.

Variable data : Type.
Variable world : Type.
Variable has_errors : data -> bool.
Variable post : string -> world -> world * exchange data.

(** The number of requests the shop has received *)
Variable calls : world -> nat.
Hypothesis post_counts : forall q s, calls (fst (post q s)) = S (calls s).

Lemma attempt_result_some (x : exchange data) (d : data) :
  attempt_result data has_errors x = Some d
  <-> exists status,
        x = Answer status (Some d) /\ (status < 400 \/ 600 <= status)
        /\ has_errors d = false.
Proof.
  unfold attempt_result, is_temporary, raise_for_status. split.
  - destruct x as [|status [d'|]].
    + discriminate.
    + destruct (_ || _)%bool; [discriminate|].
      destruct ((400 <=? status) && (status <? 600))%bool eqn:R; [discriminate|].
      destruct (has_errors d') eqn:E; [discriminate|].
      intros [= <-]. exists status. repeat split; [|exact E].
      apply andb_false_iff in R as [R|R];
        [apply Z.leb_gt in R | apply Z.ltb_ge in R]; lia.
    + destruct (_ || _)%bool; [discriminate|].
      destruct (_ && _)%bool; discriminate.
  - intros (status & -> & R & E).
    assert (T : ((status =? 429) || (status =? 500) || (status =? 502)
                 || (status =? 503) || (status =? 504))%bool = false).
    { repeat (apply orb_false_intro); apply Z.eqb_neq; lia. }
    rewrite T.
    assert (F : ((400 <=? status) && (status <? 600))%bool = false).
    { apply andb_false_iff. destruct R; [left; apply Z.leb_gt | right; apply Z.ltb_ge]; lia. }
    rewrite F, E. reflexivity.
Qed.

Lemma graphql_loop_outcome (n : nat) (query : string) (s : world) :
  match graphql_loop data world has_errors post n query s with
  | (s', Ok d) =>
      has_errors d = false
      /\ (calls s < calls s' <= calls s + n)%nat
  | (s', Raise e) =>
      e = RuntimeError /\ calls s' = (calls s + n)%nat
  end.
Proof.
  revert s. induction n as [|n IH]; intros s; simpl.
  - split; [reflexivity | lia].
  - pose proof (post_counts query s) as C.
    destruct (post query s) as [s1 x]. simpl in C.
    destruct (attempt_result data has_errors x) as [d|] eqn:A.
    + apply attempt_result_some in A as (status & _ & _ & E).
      split; [exact E | lia].
    + specialize (IH s1).
      destruct (graphql_loop data world has_errors post n query s1) as [s' [d|e]].
      * destruct IH as (E & L). split; [exact E | lia].
      * destruct IH as (E & L). split; [exact E | lia].
Qed.

(** X18: A call of [graphql] sends at most [retries] requests.  When it returns,
    the answer carries no GraphQL errors and at least one request was sent.
    Otherwise it raises RuntimeError and no other exception, whatever the
    requests raised, after exactly [retries] requests; with [retries] at 0 or
    below it raises without sending anything. *)
Theorem graphql_retries (query : string) (retries : Z) (s : world) :
  match graphql data world has_errors post query retries s with
  | (s', Ok d) =>
      has_errors d = false
      /\ (calls s < calls s')%nat /\ Z.of_nat (calls s') <= Z.of_nat (calls s) + retries
  | (s', Raise e) =>
      e = RuntimeError
      /\ Z.of_nat (calls s') = Z.of_nat (calls s) + Z.max 0 retries
  end.
Proof.
  unfold graphql.
  pose proof (graphql_loop_outcome (Z.to_nat retries) query s) as H.
  destruct (graphql_loop data world has_errors post (Z.to_nat retries) query s)
    as [s' [d|e]].
  - destruct H as (E & L). repeat split; [exact E | lia | lia].
  - destruct H as (E & L). split; [exact E | lia].
Qed.

(** X19: An attempt ends the loop exactly when the shop answers with a status
    outside 400..599 and a body that parses and carries no errors.  The five
    statuses handled as temporary lie inside 400..599, so testing them first
    changes the waiting time only: every 4xx or 5xx answer leads to the next
    attempt. *)
Theorem attempt_succeeds_iff (x : exchange data) :
  (forall d, attempt_result data has_errors x = Some d
             <-> exists status,
                   x = Answer status (Some d) /\ (status < 400 \/ 600 <= status)
                   /\ has_errors d = false)
  /\ (forall status parsed,
         x = Answer status parsed -> is_temporary status = true ->
         raise_for_status status = true).
Proof.
  split; [intros d; apply attempt_result_some|].
  intros status parsed _. unfold is_temporary, raise_for_status. intros T.
  repeat (apply orb_prop in T as [T|T]); apply Z.eqb_eq in T; subst; reflexivity.
Qed.

End GraphqlFacts.

(** A shop that answers 503 to everything: four requests, then RuntimeError *)
Lemma graphql_retries_witness :
  match graphql unit nat (fun _ => false) (fun _ s => (S s, Answer 503 None))
                "query" 4 0%nat with
  | (s', Ok d) => False
  | (s', Raise e) => e = RuntimeError /\ Z.of_nat s' = 4
  end.
Proof.
  exact (graphql_retries unit nat (fun _ => false)
           (fun _ s => (S s, Answer 503 None)) (fun s => s)
           (fun _ _ => eq_refl) "query" 4 0%nat).
Defined.

(** ** Looking a collection up by its title *)

Lemma match_title_some (target : string) (l : list CollNode) (i t : string) :
  match_title target l = Some (i, t) ->
  In (mkColl i t) l /\ normalize t = target.
Proof.
  unfold match_title.
  destruct (find _ l) as [n|] eqn:F; [|discriminate].
  intros [= <- <-]. apply find_some in F as [Hin E].
  apply String.eqb_eq in E. destruct n; auto.
Qed.

Lemma match_title_none (target : string) (l : list CollNode) :
  match_title target l = None ->
  forall n, In n l -> normalize (coll_title n) <> target.
Proof.
  unfold match_title.
  destruct (find _ l) as [n|] eqn:F; [discriminate|].
  intros _ n Hin. apply String.eqb_neq. exact (find_none _ _ F n Hin).
Qed.

Section CatalogFacts.

Variable world : Type.
Variable query_collections : string -> world -> world * result (list CollNode).

(** X20: What [find_collection_by_title_exact] answers.
    - A collection it returns was among the nodes of one of the two
      searches, and its title equals the wanted title up to case and white
      space.  When it comes from the quoted search, the second search is not
      sent; it comes from the second search only when no node of the quoted
      search matched.
    - It returns None only after both searches were answered and no node of
      either matched.
    - An exception is the exception of the quoted search, or that of the
      second search after a quoted search without a match. *)
Theorem find_collection_spec (title : string) (s : world) :
  let q1 := "title:" ++ dquote ++ title ++ dquote in
  let q2 := "title:" ++ title in
  let no_match (l : list CollNode) :=
    forall n, In n l -> normalize (coll_title n) <> normalize title in
  match find_collection_by_title_exact world query_collections title s with
  | (s', Ok (Some (i, t))) =>
      normalize t = normalize title
      /\ exists l, In (mkColl i t) l
           /\ (query_collections q1 s = (s', Ok l)
               \/ exists s1 l1, query_collections q1 s = (s1, Ok l1) /\ no_match l1
                                /\ query_collections q2 s1 = (s', Ok l))
  | (s', Ok None) =>
      exists s1 l1 l2,
        query_collections q1 s = (s1, Ok l1) /\ query_collections q2 s1 = (s', Ok l2)
        /\ no_match (l1 ++ l2)%list
  | (s', Raise e) =>
      query_collections q1 s = (s', Raise e)
      \/ exists s1 l1, query_collections q1 s = (s1, Ok l1) /\ no_match l1
                       /\ query_collections q2 s1 = (s', Raise e)
  end.
Proof.
  cbv zeta. unfold find_collection_by_title_exact.
  destruct (query_collections ("title:" ++ dquote ++ title ++ dquote) s)
    as [s1 [l1|e1]] eqn:Q1; [|left; reflexivity].
  destruct (match_title (normalize title) l1) as [[i t]|] eqn:M1.
  - apply match_title_some in M1 as [Hin E]. split; [exact E|].
    exists l1. auto.
  - pose proof (match_title_none _ _ M1) as N1.
    destruct (query_collections ("title:" ++ title) s1) as [s2 [l2|e2]] eqn:Q2.
    + destruct (match_title (normalize title) l2) as [[i t]|] eqn:M2.
      * apply match_title_some in M2 as [Hin E]. split; [exact E|].
        exists l2. split; [exact Hin|]. right. exists s1, l1. auto.
      * pose proof (match_title_none _ _ M2) as N2.
        exists s1, l1, l2. split; [auto|]. split; [auto|].
        intros n Hin. apply in_app_or in Hin as [Hin|Hin]; auto.
    + right. exists s1, l1. auto.
Qed.

(** X21: The title is matched, not only searched: of the nodes the shop answers,
    the first one whose title has the same words up to case is taken, and a
    title that differs from the wanted one by case or white space only does
    match. *)
Theorem find_collection_first_match (title : string) (s s1 : world)
  (before after : list CollNode) (n : CollNode) :
  query_collections ("title:" ++ dquote ++ title ++ dquote) s
  = (s1, Ok (before ++ n :: after)%list) ->
  normalize (coll_title n) = normalize title ->
  (forall m, In m before -> normalize (coll_title m) <> normalize title) ->
  find_collection_by_title_exact world query_collections title s
  = (s1, Ok (Some (coll_id n, coll_title n))).
Proof.
  intros Q E N. unfold find_collection_by_title_exact. rewrite Q.
  assert (M : match_title (normalize title) (before ++ n :: after)
              = Some (coll_id n, coll_title n)).
  { clear Q. unfold match_title. induction before as [|m before IH]; simpl.
    - rewrite E, String.eqb_refl. reflexivity.
    - destruct (String.eqb_spec (normalize (coll_title m)) (normalize title)) as [X|_].
      + exfalso. apply (N m); [left; reflexivity | exact X].
      + apply IH. intros m' Hm. apply N. right. exact Hm. }
  rewrite M. reflexivity.
Qed.

End CatalogFacts.

(** The shop answers two collections; the second has the wanted title in
    another case. *)
Lemma find_collection_first_match_witness :
  find_collection_by_title_exact unit
    (fun _ s => (s, Ok [mkColl "gid://shopify/Collection/1" "Acme Outlet";
                        mkColl "gid://shopify/Collection/2" "ACME"]))
    "Acme" tt
  = (tt, Ok (Some ("gid://shopify/Collection/2", "ACME"))).
Proof.
  refine (find_collection_first_match unit
           (fun _ s => (s, Ok [mkColl "gid://shopify/Collection/1" "Acme Outlet";
                               mkColl "gid://shopify/Collection/2" "ACME"]))
           "Acme" tt tt
           [mkColl "gid://shopify/Collection/1" "Acme Outlet"]
           [] (mkColl "gid://shopify/Collection/2" "ACME") eq_refl eq_refl _).
  intros m [<-|[]]. vm_compute. discriminate.
Defined.

(** ** Listing products page by page *)

Section PageFacts.

Variable world : Type.
Variable fetch : option string -> world -> world * result Page.
Variable keep : ProdNode -> bool.

(** Node [n] was on a page the shop answered, and it is one the loop keeps. *)
Local Abbreviation answered_and_kept := (fun (i : string) =>
  exists cursor s0 s1 conn n,
    fetch cursor s0 = (s1, Ok conn) /\ In n (nodes conn)
    /\ keep n = true /\ prod_id n = i).

Lemma page_loop_sound (fuel : nat) (ids : list string) (cursor : option string)
  (s s' : world) (out : list string) :
  page_loop world fetch keep fuel ids cursor s = Some (s', Ok out) ->
  exists more, out = (ids ++ more)%list /\ Forall answered_and_kept more.
Proof.
  revert ids cursor s. induction fuel as [|fuel IH]; intros ids cursor s; simpl;
    [discriminate|].
  destruct (fetch cursor s) as [s1 [conn|e]] eqn:F; [|discriminate].
  assert (K : Forall answered_and_kept (map prod_id (filter keep (nodes conn)))).
  { apply Forall_forall. intros i Hi. apply in_map_iff in Hi as (n & <- & Hn).
    apply filter_In in Hn as [Hn Hk]. exists cursor, s, s1, conn, n. auto. }
  destruct (hasNextPage conn).
  - intros H. apply IH in H as (more & -> & M).
    exists (map prod_id (filter keep (nodes conn)) ++ more)%list.
    split; [rewrite app_assoc; reflexivity|].
    apply Forall_app. auto.
  - intros [= <- <-]. eauto.
Qed.

Lemma page_loop_more_fuel (fuel extra : nat) (ids : list string)
  (cursor : option string) (s : world) (r : world * result (list string)) :
  page_loop world fetch keep fuel ids cursor s = Some r ->
  page_loop world fetch keep (fuel + extra) ids cursor s = Some r.
Proof.
  revert ids cursor s. induction fuel as [|fuel IH]; intros ids cursor s; simpl;
    [discriminate|].
  destruct (fetch cursor s) as [s1 [conn|e]]; [|auto].
  destruct (hasNextPage conn); [apply IH | auto].
Qed.

Lemma page_loop_endless (fuel : nat) (ids : list string) (cursor : option string)
  (s : world) :
  (forall c s0, exists s1 conn, fetch c s0 = (s1, Ok conn) /\ hasNextPage conn = true) ->
  page_loop world fetch keep fuel ids cursor s = None.
Proof.
  intros E. revert ids cursor s.
  induction fuel as [|fuel IH]; intros ids cursor s; simpl; [reflexivity|].
  destruct (E cursor s) as (s1 & conn & -> & ->). apply IH.
Qed.

Lemma page_loop_first_page (fuel : nat) (cursor : option string) (s s1 : world)
  (conn : Page) :
  fetch cursor s = (s1, Ok conn) -> hasNextPage conn = false ->
  page_loop world fetch keep (S fuel) [] cursor s
  = Some (s1, Ok (map prod_id (filter keep (nodes conn)))).
Proof. intros F H. simpl. rewrite F, H. reflexivity. Qed.

End PageFacts.

Section ListingFacts.

Variable world : Type.
Variable query_collections : string -> world -> world * result (list CollNode).
Variable query_collection_products :
  string -> option string -> world -> world * result Page.
Variable query_products :
  string -> option string -> world -> world * result Page.


(** X22: The vendor search is filtered again on the client: every id that
    [list_product_ids_by_vendor] returns is the id of a product the shop
    answered to that search whose vendor equals the wanted vendor up to case
    and white space.  Once the loop has come to its last page, the result no
    longer depends on the number of iterations allowed. *)
Theorem vendor_listing_sound (fuel : nat) (vendor : string) (s s' : world)
  (ids : list string) :
  list_product_ids_by_vendor world query_products fuel vendor s
  = Some (s', Ok ids) ->
  (forall i, In i ids ->
     exists cursor s0 s1 conn n,
       query_products ("vendor:" ++ dquote ++ vendor ++ dquote) cursor s0 = (s1, Ok conn)
       /\ In n (nodes conn) /\ prod_id n = i
       /\ normalize (prod_vendor n) = normalize vendor)
  /\ forall extra,
       list_product_ids_by_vendor world query_products (fuel + extra) vendor s
       = Some (s', Ok ids).
Proof.
  intros H. split.
  - intros i Hi. unfold list_product_ids_by_vendor in H.
    apply page_loop_sound in H as (more & -> & M). simpl in Hi.
    rewrite Forall_forall in M.
    destruct (M i Hi) as (cursor & s0 & s1 & conn & n & F & Hn & K & P).
    apply String.eqb_eq in K. exists cursor, s0, s1, conn, n. auto.
  - intros extra. apply page_loop_more_fuel, H.
Qed.

(** X23: A collection listing returns the ids of products the shop answered for
    that collection, and nothing else. *)
Theorem collection_listing_sound (fuel : nat) (collection_id : string)
  (s s' : world) (ids : list string) :
  list_product_ids_in_collection world query_collection_products fuel
    collection_id s
  = Some (s', Ok ids) ->
  (forall i, In i ids ->
     exists cursor s0 s1 conn n,
       query_collection_products collection_id cursor s0 = (s1, Ok conn)
       /\ In n (nodes conn) /\ prod_id n = i)
  /\ forall extra,
       list_product_ids_in_collection world query_collection_products
         (fuel + extra) collection_id s
       = Some (s', Ok ids).
Proof.
  intros H. split.
  - intros i Hi. unfold list_product_ids_in_collection in H.
    apply page_loop_sound in H as (more & -> & M). simpl in Hi.
    rewrite Forall_forall in M.
    destruct (M i Hi) as (cursor & s0 & s1 & conn & n & F & Hn & K & P).
    exists cursor, s0, s1, conn, n. auto.
  - intros extra. apply page_loop_more_fuel, H.
Qed.

(** X24: The listing loops have no bound of their own: against a shop that
    announces another page on every answer, no number of iterations brings
    [list_product_ids_by_vendor] to an end. *)
Theorem vendor_listing_needs_a_last_page (vendor : string) :
  (forall c s0, exists s1 conn,
      query_products ("vendor:" ++ dquote ++ vendor ++ dquote) c s0 = (s1, Ok conn)
      /\ hasNextPage conn = true) ->
  forall fuel s, list_product_ids_by_vendor world query_products fuel vendor s = None.
Proof.
  intros E fuel s. unfold list_product_ids_by_vendor. apply page_loop_endless, E.
Qed.

End ListingFacts.

(** One page with three products, two of the wanted vendor *)
Lemma vendor_listing_sound_witness :
  list_product_ids_by_vendor unit
    (fun _ _ s => (s, Ok (mkPage [mkProd "p1" "Acme"; mkProd "p2" "Bolt";
                                  mkProd "p3" " ACME "] false None)))
    (1 + 5) "acme" tt
  = Some (tt, Ok ["p1"; "p3"]).
Proof.
  exact (proj2 (vendor_listing_sound unit
          (fun _ _ s => (s, Ok (mkPage [mkProd "p1" "Acme"; mkProd "p2" "Bolt";
                                        mkProd "p3" " ACME "] false None)))
          1 "acme" tt tt ["p1"; "p3"] eq_refl) 5%nat).
Defined.

(** One page with two products *)
Lemma collection_listing_sound_witness :
  list_product_ids_in_collection unit
    (fun _ _ s => (s, Ok (mkPage [mkProd "p1" "Acme"; mkProd "p2" "Bolt"]
                                 false None)))
    (1 + 5) "gid://shopify/Collection/1" tt
  = Some (tt, Ok ["p1"; "p2"]).
Proof.
  exact (proj2 (collection_listing_sound unit
          (fun _ _ s => (s, Ok (mkPage [mkProd "p1" "Acme"; mkProd "p2" "Bolt"]
                                       false None)))
          1 "gid://shopify/Collection/1" tt tt ["p1"; "p2"] eq_refl) 5%nat).
Defined.

(** A shop whose every page announces a next one *)
Lemma vendor_listing_needs_a_last_page_witness :
  list_product_ids_by_vendor unit
    (fun _ _ s => (s, Ok (mkPage [mkProd "p1" "Acme"] true (Some "c"))))
    1000 "Acme" tt
  = None.
Proof.
  refine (vendor_listing_needs_a_last_page unit
            (fun _ _ s => (s, Ok (mkPage [mkProd "p1" "Acme"] true (Some "c"))))
            "Acme" _ 1000%nat tt).
  intros c s0. exists s0, (mkPage [mkProd "p1" "Acme"] true (Some "c")).
  split; reflexivity.
Defined.

(** ** The two caches of [main] *)

Lemma list_ascii_of_string_app (a b : string) :
  list_ascii_of_string (a ++ b)
  = (list_ascii_of_string a ++ list_ascii_of_string b)%list.
Proof. induction a as [|c a IH]; simpl; [reflexivity | rewrite IH; reflexivity]. Qed.

Lemma list_ascii_of_string_inj (a b : string) :
  list_ascii_of_string a = list_ascii_of_string b -> a = b.
Proof.
  intros H. rewrite <- (string_of_list_ascii_of_string a),
    <- (string_of_list_ascii_of_string b), H. reflexivity.
Qed.

Lemma append_inv_tail (a b t : string) : a ++ t = b ++ t -> a = b.
Proof.
  intros H. apply (f_equal list_ascii_of_string) in H.
  rewrite !list_ascii_of_string_app in H. apply app_inv_tail in H.
  apply list_ascii_of_string_inj, H.
Qed.

Lemma cache_key_kinds (a b : string) : a ++ "::collection" <> b ++ "::vendor".
Proof.
  intros H. apply (f_equal list_ascii_of_string) in H.
  rewrite !list_ascii_of_string_app in H.
  apply (f_equal (@rev ascii)) in H. rewrite !rev_app_distr in H.
  simpl in H. discriminate.
Qed.

Lemma cache_key_inj (v v' : string) (col col' : option (string * string)) :
  cache_key v col = cache_key v' col' ->
  v = v' /\ (col = None <-> col' = None).
Proof.
  unfold cache_key. destruct col as [c|], col' as [c'|]; intros H.
  - split; [exact (append_inv_tail _ _ _ H) | split; discriminate].
  - exfalso. exact (cache_key_kinds _ _ H).
  - exfalso. symmetry in H. exact (cache_key_kinds _ _ H).
  - split; [exact (append_inv_tail _ _ _ H) | tauto].
Qed.

Lemma dict_get_set_fresh {V} (k k' : string) (x y : V) (d : dict V) :
  dict_get k d = None -> dict_get k' d = Some y ->
  dict_get k' (dict_set k x d) = Some y.
Proof.
  intros N G. rewrite dict_get_set.
  destruct (String.eqb_spec k k') as [->|_]; [congruence | exact G].
Qed.

Section CacheFacts.

Variable world : Type.
Variable query_collections : string -> world -> world * result (list CollNode).
Variable query_collection_products :
  string -> option string -> world -> world * result Page.
Variable query_products :
  string -> option string -> world -> world * result Page.

Lemma resolve_products_cached (fuel : nat) (vendor : string) (c c' : Caches)
  (s s' : world) (ids : list string) :
  resolve_products world query_collections query_collection_products
    query_products fuel vendor c s = Some (s', Ok (ids, c')) ->
  exists col,
    dict_get vendor (collection_cache c') = Some col
    /\ dict_get (cache_key vendor col) (product_cache c') = Some ids
    /\ (forall k x, dict_get k (collection_cache c) = Some x ->
                    dict_get k (collection_cache c') = Some x)
    /\ (forall k x, dict_get k (product_cache c) = Some x ->
                    dict_get k (product_cache c') = Some x)
    /\ (forall k, k <> vendor ->
                  dict_get k (collection_cache c') = dict_get k (collection_cache c))
    /\ (forall k, k <> cache_key vendor col ->
                  dict_get k (product_cache c') = dict_get k (product_cache c)).
Proof.
  unfold resolve_products.
  set (look := match dict_get vendor (collection_cache c) with
               | Some col => (s, Ok (col, collection_cache c))
               | None => _
               end).
  assert (L : forall s1 col cc,
             look = (s1, Ok (col, cc)) ->
             dict_get vendor cc = Some col
             /\ (forall k x, dict_get k (collection_cache c) = Some x ->
                             dict_get k cc = Some x)
             /\ (forall k, k <> vendor ->
                           dict_get k cc = dict_get k (collection_cache c))).
  { subst look. intros s1 col cc.
    destruct (dict_get vendor (collection_cache c)) as [col0|] eqn:G.
    - intros [= <- <- <-]. auto.
    - destruct (find_collection_by_title_exact world query_collections vendor s)
        as [s0 [col0|e]]; [|discriminate].
      intros [= <- <- <-]. split; [apply dict_get_set_eq|]. split.
      + intros k x Gk. apply dict_get_set_fresh; assumption.
      + intros k Nk. apply dict_get_set_neq. congruence. }
  destruct look as [s1 [[col cc]|e]]; [|discriminate].
  destruct (L s1 col cc eq_refl) as (Gc & Mc & Fc). clear L.
  destruct (dict_get (cache_key vendor col) (product_cache c)) as [ids0|] eqn:Gp.
  - intros [= <- <- <-]. exists col. simpl. auto 10.
  - set (listed := match col with Some _ => _ | None => _ end).
    destruct listed as [[s2 [ids0|e]]|]; try discriminate.
    intros [= <- <- <-]. exists col. simpl.
    split; [exact Gc|]. split; [apply dict_get_set_eq|].
    split; [exact Mc|]. split.
    + intros k x Gk. apply dict_get_set_fresh; assumption.
    + split; [exact Fc|]. intros k Nk. apply dict_get_set_neq. congruence.
Qed.

(** X25: A vendor is resolved once.  After [main] has found the products of a
    vendor, looking the same vendor up again with the caches it left is
    answered from the caches: the same product ids, no request to the shop,
    and the caches stay as they are, whatever the shop would answer by
    then. *)
Theorem resolved_vendor_is_cached (fuel : nat) (vendor : string) (c c' : Caches)
  (s s' : world) (ids : list string) :
  resolve_products world query_collections query_collection_products
    query_products fuel vendor c s = Some (s', Ok (ids, c')) ->
  forall fuel' s'',
    resolve_products world query_collections query_collection_products
      query_products fuel' vendor c' s'' = Some (s'', Ok (ids, c')).
Proof.
  intros H fuel' s''.
  destruct (resolve_products_cached _ _ _ _ _ _ _ H) as (col & Gc & Gp & _).
  unfold resolve_products. rewrite Gc, Gp. destruct c'. reflexivity.
Qed.

(** X26: Resolving a vendor only adds to the caches: an entry that is cached
    keeps its value, and the entries of every other vendor, in both caches
    and for both kinds of listing, are what they were. *)
Theorem caches_only_grow (fuel : nat) (vendor : string) (c c' : Caches)
  (s s' : world) (ids : list string) :
  resolve_products world query_collections query_collection_products
    query_products fuel vendor c s = Some (s', Ok (ids, c')) ->
  (forall k x, dict_get k (collection_cache c) = Some x ->
               dict_get k (collection_cache c') = Some x)
  /\ (forall k x, dict_get k (product_cache c) = Some x ->
                  dict_get k (product_cache c') = Some x)
  /\ (forall other col,
         other <> vendor ->
         dict_get other (collection_cache c') = dict_get other (collection_cache c)
         /\ dict_get (cache_key other col) (product_cache c')
            = dict_get (cache_key other col) (product_cache c)).
Proof.
  intros H.
  destruct (resolve_products_cached _ _ _ _ _ _ _ H)
    as (col0 & _ & _ & Mc & Mp & Fc & Fp).
  split; [exact Mc|]. split; [exact Mp|].
  intros other col N. split; [apply Fc, N|].
  apply Fp. intros E. apply cache_key_inj in E as [E _]. contradiction.
Qed.

End CacheFacts.

(** A shop without collections and with one product of the vendor: the
    second look-up needs no iteration of the listing loop. *)
Lemma resolved_vendor_is_cached_witness :
  resolve_products unit
    (fun _ s => (s, Ok []))
    (fun _ _ s => (s, Ok (mkPage [] false None)))
    (fun _ _ s => (s, Ok (mkPage [mkProd "p1" "Acme"] false None)))
    0 "Acme" (mkCaches [("Acme", None)] [("Acme::vendor", ["p1"])]) tt
  = Some (tt, Ok (["p1"], mkCaches [("Acme", None)] [("Acme::vendor", ["p1"])])).
Proof.
  exact (resolved_vendor_is_cached unit
           (fun _ s => (s, Ok []))
           (fun _ _ s => (s, Ok (mkPage [] false None)))
           (fun _ _ s => (s, Ok (mkPage [mkProd "p1" "Acme"] false None)))
           1 "Acme" (mkCaches [] [])
           (mkCaches [("Acme", None)] [("Acme::vendor", ["p1"])])
           tt tt ["p1"] eq_refl 0%nat tt).
Defined.

(** The entries of "Bolt" after "Acme" is resolved *)
Lemma caches_only_grow_witness :
  dict_get "Bolt::vendor" [("Bolt::vendor", ["p7"]); ("Acme::vendor", ["p1"])]
  = Some ["p7"].
Proof.
  refine (proj1 (proj2 (caches_only_grow unit
           (fun _ s => (s, Ok []))
           (fun _ _ s => (s, Ok (mkPage [] false None)))
           (fun _ _ s => (s, Ok (mkPage [mkProd "p1" "Acme"] false None)))
           1 "Acme" (mkCaches [("Bolt", None)] [("Bolt::vendor", ["p7"])])
           (mkCaches [("Bolt", None); ("Acme", None)]
                     [("Bolt::vendor", ["p7"]); ("Acme::vendor", ["p1"])])
           tt tt ["p1"] eq_refl)) "Bolt::vendor" ["p7"] eq_refl).
Defined.

(** ** The counters and the error log of a run *)

Section CounterFacts.

Variable world : Type.
Variable gql_metafields_set :
  list Metafield -> world -> world * result (list string).
Variable gql_product_metafields :
  string -> list (string * string) -> world -> result (list (option MfNode)).
Variable gql_metafield_delete :
  string -> world -> world * result (list string).

Local Abbreviation step :=
  (process_product world gql_metafields_set gql_product_metafields
                   gql_metafield_delete).

(** [st'] continues [st]: the counters do not go down, by at most [u] and [d],
    and the log is extended by at most [e] entries. *)
Local Abbreviation extends := (fun (st st' : RunState world) (u d e : nat) =>
  (updated_products st <= updated_products st' <= updated_products st + u)%nat
  /\ (deleted_metafields st <= deleted_metafields st'
      <= deleted_metafields st + d)%nat
  /\ exists more, errors st' = (errors st ++ more)%list
                  /\ (List.length more <= e)%nat).

Lemma write_phase_extends (payload : list Metafield) (st : RunState world) :
  extends st (write_phase world gql_metafields_set payload st)
          (if is_nil payload then 0 else 1)%nat 0%nat
          (if is_nil payload then 0 else 1)%nat.
Proof.
  unfold write_phase. destruct payload as [|m l]; simpl.
  - repeat split; try lia. exists []. rewrite app_nil_r. auto.
  - destruct (metafields_set world gql_metafields_set (m :: l) (shop st))
      as [s' [u|e]]; simpl; repeat split; try lia.
    + exists []. rewrite app_nil_r. auto.
    + exists [e]. auto.
Qed.

Lemma delete_loop_count (id_map : dict (option string)) (keys : list string)
  (s : world) (deleted : nat) :
  match delete_loop world gql_metafield_delete id_map keys s deleted with
  | (_, n, _) => (deleted <= n <= deleted + List.length keys)%nat
  end.
Proof.
  revert s deleted. induction keys as [|k keys IH]; intros s deleted; simpl; [lia|].
  destruct (truthy_id id_map k) as [i|].
  - destruct (metafield_delete world gql_metafield_delete i s) as [s' [u|e]].
    + specialize (IH s' (S deleted)).
      destruct (delete_loop world gql_metafield_delete id_map keys s' (S deleted))
        as [[s2 n] r]. lia.
    + lia.
  - specialize (IH s deleted).
    destruct (delete_loop world gql_metafield_delete id_map keys s deleted)
      as [[s2 n] r]. lia.
Qed.

Lemma delete_phase_extends (pid : string) (keys : list string) (st : RunState world) :
  extends st (delete_phase world gql_product_metafields gql_metafield_delete pid keys st)
          0%nat (List.length keys) 1%nat.
Proof.
  unfold delete_phase. destruct keys as [|k keys].
  - repeat split; try lia. exists []. rewrite app_nil_r. auto.
  - destruct (get_metafield_ids world gql_product_metafields pid MF_NAMESPACE
                (k :: keys) (shop st)) as [id_map|e].
    + pose proof (delete_loop_count id_map (k :: keys) (shop st)
                    (deleted_metafields st)) as C.
      destruct (delete_loop world gql_metafield_delete id_map (k :: keys) (shop st)
                  (deleted_metafields st)) as [[s' n] r].
      simpl updated_products. simpl deleted_metafields. simpl errors.
      repeat split; try lia.
      destruct r as [u|e]; simpl.
      * exists []. rewrite app_nil_r. auto.
      * exists [e]. auto.
    + simpl. repeat split; try lia. exists [e]. auto.
Qed.

Lemma keys_to_delete_length (w : VendorPlan) (today : date) :
  List.length (keys_to_delete w today)
  = ((if sale_should_exist w today then 0 else 2)
     + (if pi_should_exist w today then 0 else 2))%nat.
Proof.
  unfold keys_to_delete, sale_keys_to_delete, pi_keys_to_delete.
  destruct (sale_should_exist w today), (pi_should_exist w today); reflexivity.
Qed.

Lemma build_payload_nil (w : VendorPlan) (today : date) (pid : string) :
  sale_should_exist w today = false -> pi_should_exist w today = false ->
  build_payload pid w today = [].
Proof.
  intros S P. unfold build_payload, sale_payload, pi_payload. rewrite S, P.
  reflexivity.
Qed.

Lemma step_extends (dry_run : bool) (w : VendorPlan) (today : date) (pid : string)
  (st : RunState world) :
  extends st (step dry_run w today pid st)
          (if is_nil (build_payload pid w today) then 0 else 1)%nat
          (List.length (keys_to_delete w today)) 2%nat.
Proof.
  unfold process_product. destruct dry_run.
  - repeat split; try lia. exists []. rewrite app_nil_r. split; [reflexivity | simpl; lia].
  - pose proof (write_phase_extends (build_payload pid w today) st)
      as (U1 & D1 & more1 & E1 & L1).
    set (st1 := write_phase world gql_metafields_set (build_payload pid w today) st) in *.
    pose proof (delete_phase_extends pid (keys_to_delete w today) st1)
      as (U2 & D2 & more2 & E2 & L2).
    repeat split; try lia.
    exists (more1 ++ more2)%list. rewrite E2, E1, app_assoc. split; [reflexivity|].
    rewrite length_app. destruct (is_nil (build_payload pid w today)); lia.
Qed.

Lemma run_extends (dry_run : bool) (w : VendorPlan) (today : date)
  (pids : list string) (st : RunState world) :
  extends st (process_products world gql_metafields_set gql_product_metafields
    gql_metafield_delete dry_run w today pids st)
          (if (sale_should_exist w today || pi_should_exist w today)%bool
           then List.length pids else 0)%nat
          (List.length (keys_to_delete w today) * List.length pids)%nat
          (2 * List.length pids)%nat.
Proof.
  unfold process_products. revert st.
  induction pids as [|pid pids IH]; intros st; simpl fold_left.
  - repeat split; try lia. exists []. rewrite app_nil_r. split; [reflexivity | simpl; lia].
  - pose proof (step_extends dry_run w today pid st) as (U1 & D1 & more1 & E1 & L1).
    specialize (IH (step dry_run w today pid st)).
    destruct IH as (U2 & D2 & more2 & E2 & L2).
    assert (P : (sale_should_exist w today || pi_should_exist w today)%bool = false ->
                is_nil (build_payload pid w today) = true).
    { intros F. apply orb_false_elim in F as [F1 F2].
      rewrite build_payload_nil by assumption. reflexivity. }
    simpl List.length.
    destruct (sale_should_exist w today || pi_should_exist w today)%bool.
    + repeat split; try lia.
      * destruct (is_nil (build_payload pid w today)); lia.
      * exists (more1 ++ more2)%list. rewrite E2, E1, app_assoc.
        split; [reflexivity|]. rewrite length_app. lia.
    + rewrite (P eq_refl) in U1. repeat split; try lia.
      exists (more1 ++ more2)%list. rewrite E2, E1, app_assoc.
      split; [reflexivity|]. rewrite length_app. lia.
Qed.

(** X27: Over the products of one vendor the counters only go up and the errors
    are only added to.  At most one update is counted per product, and none
    when neither promotion type is displayed; at most two deletions are
    counted per product and promotion type that is not displayed, so none
    when both are displayed; and a product adds at most two errors, one of
    the write and one of the deletion.  A dry run changes nothing. *)
Theorem run_counters (dry_run : bool) (w : VendorPlan) (today : date)
  (pids : list string) (st : RunState world) :
  let st' := process_products world gql_metafields_set gql_product_metafields
    gql_metafield_delete dry_run w today pids st in
  let n := List.length pids in
  (updated_products st <= updated_products st'
   <= updated_products st
      + (if (sale_should_exist w today || pi_should_exist w today)%bool
         then n else 0))%nat
  /\ (deleted_metafields st <= deleted_metafields st'
      <= deleted_metafields st
         + ((if sale_should_exist w today then 0 else 2)
            + (if pi_should_exist w today then 0 else 2)) * n)%nat
  /\ (exists more, errors st' = (errors st ++ more)%list
                   /\ (List.length more <= 2 * n)%nat)
  /\ (dry_run = true -> st' = st).
Proof.
  cbv zeta.
  pose proof (run_extends dry_run w today pids st) as (U & D & E).
  rewrite keys_to_delete_length in D.
  split; [exact U|]. split; [exact D|]. split; [exact E|].
  intros ->. unfold process_products. clear.
  induction pids as [|pid pids IH]; simpl; [reflexivity | exact IH].
Qed.

End CounterFacts.
